(** * news-surge-alert-server: the signal pipeline, embedded and verified

    A shallow embedding of the trading core of the repository:
    - [strategy/entry.ts]  ([simulateEntry], the position sizer),
    - [strategy/exit.ts]   ([updateExit], the exit policy),
    - [sim/simulator.ts]   ([Simulator], the paper-trading ledger),
    - [pipeline/priceConfirm.ts] (rolling statistics and the confirmation gate),
    - [pipeline/classify.ts] and [pipeline/score.ts] (rule-based classifier
      and impact scorer).

    JavaScript numbers are IEEE-754 binary64 values, so they are embedded as
    Rocq's primitive floats: every arithmetic step of the model rounds exactly
    as the source does, and [NaN], the infinities and the signed zeros are
    ordinary values.  Objects used as dictionaries are [gmap]s keyed by the
    symbol; in-place mutation of a stored object is written as an update of
    the map entry that holds it.  The simulator's dictionary has no
    prototype; those of [priceConfirm.ts] are object literals and are read
    through [PriceConfirm.read], which gives the member inherited from
    [Object.prototype] where the dictionary owns no entry. *)

From Stdlib Require Import ZArith NArith Floats Bool List Ascii String.
From stdpp Require Import gmap strings.
Set Warnings "-inexact-float".

(* ===================================================================== *)
(** * Definitions *)
(* ===================================================================== *)

(** ** The number operations of the JavaScript runtime *)

Module JS.
Local Open Scope float_scope.

(** [x !== x] holds of NaN only. *)
Definition isNaN (x : float) : bool := negb (x =? x).

(** [Number.isFinite]: false for NaN and both infinities. *)
Definition isFinite (x : float) : bool := abs x <? infinity.

(** [Math.max] and [Math.min] of two arguments: NaN is contagious and
    [+0] counts as larger than [-0]. *)
Definition Math_max (x y : float) : float :=
  if isNaN x || isNaN y then nan
  else if x <? y then y
  else if y <? x then x
  else if x =? 0 then x + y else x.

Definition Math_min (x y : float) : float :=
  if isNaN x || isNaN y then nan
  else if x <? y then x
  else if y <? x then y
  else if x =? 0 then - (- x + - y) else x.

(** Integers back to floats; exact below [2^53]. *)
Definition Z2F (z : Z) : float := SF2Prim (binary_normalize prec emax z 0 false).
Definition signedZ (s : bool) (m : positive) : Z := if s then Z.neg m else Z.pos m.
Definition signed_zero (s : bool) : float :=
  if s then PrimFloat.neg_zero else PrimFloat.zero.

(** [Math.floor]: a float with a non-negative exponent is an integer
    already; otherwise the mantissa is shifted (an arithmetic shift rounds
    toward minus infinity). *)
Definition Math_floor (x : float) : float :=
  match Prim2SF x with
  | S754_finite s m e =>
      if (0 <=? e)%Z then x
      else let z := Z.shiftr (signedZ s m) (- e) in
           if (z =? 0)%Z then signed_zero s else Z2F z
  | _ => x
  end.

Definition Math_ceil (x : float) : float := - Math_floor (- x).

(** [Math.round]: nearest integer, ties toward plus infinity,
    computed as [floor (x + 1/2)] on the exact value. *)
Definition Math_round (x : float) : float :=
  match Prim2SF x with
  | S754_finite s m e =>
      if (0 <=? e)%Z then x
      else let z := Z.shiftr (2 * signedZ s m + 2 ^ (- e)) (- e + 1) in
           if (z =? 0)%Z then signed_zero s else Z2F z
  | _ => x
  end.

(** The floats above zero, in the kernel's specification of binary64:
    positive finite values and plus infinity. *)
Definition SFpos (f : spec_float) : Prop :=
  match f with
  | S754_finite false _ _ | S754_infinity false => True
  | _ => False
  end.

(** An optional argument with a default value ([f(x = d)]). *)
Definition orDefault {A} (d : A) (o : option A) : A :=
  match o with Some a => a | None => d end.

End JS.

(** ** strategy/entry.ts: orders, positions and the position sizer *)

Inductive Side := buy | sell.

Module Order.
Record t := mk {
  side : Side;
  symbol : string;
  qty : float;
  ts : float;
  px : float;
  stopPx : option float;
  notional : option float }.
End Order.

Module Position.
Record t := mk {
  symbol : string;
  qty : float;
  avg : float;
  openTs : float;
  high : float }.

(** The field assignment [p.high = h]. *)
Definition set_high (p : t) (h : float) : t :=
  mk (symbol p) (qty p) (avg p) (openTs p) h.
End Position.

Module Entry.
Import JS.
Local Open Scope float_scope.

Definition MIN_NOTIONAL : float := 50.
Definition MAX_NOTIONAL : float := 5000.
Definition MIN_PRICE : float := 0.5.
Definition LOT_SIZE : float := 1.
Definition TICK : float := 0.01.
Definition SLIPPAGE (px : float) : float := Math_max 0.01 (px * 0.0005).

(** The [const]s of [simulateEntry], each as a function of what it is
    computed from. *)
Definition cleanPx (px : float) : float :=
  Math_max MIN_PRICE (Math_round (px / TICK) * TICK).
Definition riskBudget (equity riskPct : float) : float := equity * riskPct.
Definition stopPx (cleanPx : float) : float :=
  Math_max (cleanPx * 0.92) (cleanPx - 0.5).
Definition perShareRisk (cleanPx stopPx : float) : float :=
  Math_max (cleanPx - stopPx) 0.01.
Definition rawQty (riskBudget perShareRisk : float) : float :=
  Math_floor (riskBudget / perShareRisk).
Definition maxQtyByNotional (cleanPx : float) : float :=
  Math_floor (MAX_NOTIONAL / cleanPx).

(** The three reassignments of [qty]. *)
Definition capQty (qty maxQty : float) : float :=
  Math_max 0 (Math_min qty maxQty).
Definition lotQty (qty : float) : float :=
  if (0 <? qty) && (qty <? LOT_SIZE) then LOT_SIZE else qty.
Definition minNotionalQty (qty cleanPx maxQty : float) : float :=
  if (0 <? qty) && (qty * cleanPx <? MIN_NOTIONAL)
  then Math_min (Math_ceil (MIN_NOTIONAL / cleanPx)) maxQty
  else qty.

Definition sizedQty (px riskPct equity : float) : float :=
  let c := cleanPx px in
  let q := rawQty (riskBudget equity riskPct) (perShareRisk c (stopPx c)) in
  let m := maxQtyByNotional c in
  minNotionalQty (lotQty (capQty q m)) c m.

Definition simulateEntry (symbol : string) (px now : float)
    (riskPct equity : option float) : Order.t :=
  let riskPct := orDefault 0.01 riskPct in
  let equity := orDefault 10000 equity in
  let c := cleanPx px in
  let qty := sizedQty px riskPct equity in
  if qty <=? 0 then
    Order.mk buy symbol 0 now c None None
  else
    let entryPx := c + SLIPPAGE px in
    let notional := qty * entryPx in
    Order.mk buy symbol qty now entryPx (Some (stopPx c)) (Some notional).

End Entry.

(** ** strategy/exit.ts: the exit policy *)

Module Exit.
Import JS.
Local Open Scope float_scope.

(** The decision object [{ reason, px }]; the reasons are the string
    literals of the source. *)
Record Decision := mkDecision { reason : string; px : float }.

Definition trail : string := "trail".
Definition target50 : string := "target50".
Definition time : string := "time".

Definition trailPct : float := 0.12.
Definition timeStopMin : float := 30.

Definition gain (pos : Position.t) (lastPx : float) : float :=
  lastPx / Position.avg pos - 1.
Definition drawdownFromHigh (pos : Position.t) (lastPx : float) : float :=
  lastPx / Position.high pos - 1.
Definition timePassedMin (pos : Position.t) (now : float) : float :=
  (now - Position.openTs pos) / 60000.

(** [updateExit] writes [pos.high] and returns a decision or [null]:
    the model returns the position as written together with the decision. *)
Definition updateExit (pos : Position.t) (lastPx now : float)
    : Position.t * option Decision :=
  let pos := Position.set_high pos (Math_max (Position.high pos) lastPx) in
  (pos,
   if drawdownFromHigh pos lastPx <=? - trailPct then Some (mkDecision trail lastPx)
   else if 0.5 <=? gain pos lastPx then Some (mkDecision target50 lastPx)
   else if (timeStopMin <=? timePassedMin pos now) && (gain pos lastPx <? 0.03)
        then Some (mkDecision time lastPx)
   else None).

End Exit.

(** ** sim/simulator.ts: the paper-trading ledger *)

Module SimFill.
Record t := mk {
  ts : float;
  symbol : string;
  side : Side;
  px : float;
  qty : float;
  reason : option string }.
End SimFill.

Module Simulator.
Import JS.
Local Open Scope float_scope.

(** The fields of the class.  [positions] is created with
    [Object.create(null)]: a dictionary with no inherited keys. *)
Record t := mk {
  fills : list SimFill.t;
  cash : float;
  positions : gmap string Position.t;
  realizedPnl : float }.

(** [constructor(startingCash = 100_000)] *)
Definition new (startingCash : option float) : t :=
  mk [] (orDefault 100000 startingCash) ∅ 0.

(** The record pushed by [fill]: the order as it was submitted, no reason. *)
Definition fillOfOrder (o : Order.t) : SimFill.t :=
  SimFill.mk (Order.ts o) (Order.symbol o) (Order.side o) (Order.px o)
             (Order.qty o) None.

(** [fill(o)], for an order object ([!o] is false).  The guard comes
    first, then the push onto [fills], then the side is looked at. *)
Definition fill (o : Order.t) (sim : t) : t :=
  if (Order.qty o <=? 0) || negb (isFinite (Order.px o)) then sim
  else
    let fills' := fills sim ++ [fillOfOrder o] in
    match Order.side o with
    | buy =>
        let cash' := cash sim - Order.px o * Order.qty o in
        match positions sim !! Order.symbol o with
        | None =>
            let p := Position.mk (Order.symbol o) (Order.qty o) (Order.px o)
                                 (Order.ts o) (Order.px o) in
            mk fills' cash' (<[Order.symbol o := p]> (positions sim))
               (realizedPnl sim)
        | Some p =>
            let newQty := Position.qty p + Order.qty o in
            let avg' := (Position.avg p * Position.qty p
                         + Order.px o * Order.qty o) / newQty in
            let p' := Position.mk (Position.symbol p) newQty avg'
                        (Position.openTs p)
                        (Math_max (Position.high p) (Order.px o)) in
            mk fills' cash' (<[Order.symbol o := p']> (positions sim))
               (realizedPnl sim)
        end
    | sell =>
        match positions sim !! Order.symbol o with
        | None => mk fills' (cash sim) (positions sim) (realizedPnl sim)
        | Some pos =>
            let qtyToSell := Math_min (Order.qty o) (Position.qty pos) in
            if qtyToSell <=? 0 then
              mk fills' (cash sim) (positions sim) (realizedPnl sim)
            else
              let cash' := cash sim + Order.px o * qtyToSell in
              let pnl' := realizedPnl sim
                          + (Order.px o - Position.avg pos) * qtyToSell in
              let qty' := Position.qty pos - qtyToSell in
              if qty' =? 0 then
                mk fills' cash' (delete (Order.symbol o) (positions sim)) pnl'
              else
                let pos' := Position.mk (Position.symbol pos) qty'
                              (Position.avg pos) (Position.openTs pos)
                              (Math_max (Position.high pos) (Order.px o)) in
                mk fills' cash' (<[Order.symbol o := pos']> (positions sim)) pnl'
        end
    end.

(** [tryExit(symbol, lastPx, now)].  [updateExit] writes the high of the
    stored position object, so the entry of the map changes even when no
    exit is decided. *)
Definition tryExit (symbol : string) (lastPx now : float) (sim : t) : t :=
  match positions sim !! symbol with
  | None => sim
  | Some p =>
      match Exit.updateExit p lastPx now with
      | (p', None) =>
          mk (fills sim) (cash sim) (<[symbol := p']> (positions sim))
             (realizedPnl sim)
      | (p', Some decision) =>
          let qty := Position.qty p' in
          let sellPx := Exit.px decision in
          mk (fills sim ++ [SimFill.mk now symbol sell sellPx qty
                              (Some (Exit.reason decision))])
             (cash sim + sellPx * qty)
             (delete symbol (positions sim))
             (realizedPnl sim + (sellPx - Position.avg p') * qty)
      end
  end.

(** [reset(startingCash?)] *)
Definition reset (startingCash : option float) (sim : t) : t :=
  mk [] (match startingCash with Some c => c | None => cash sim end) ∅ 0.

(** The calls a client can make on a ledger, and a run of them. *)
Inductive call :=
| Fill (o : Order.t)
| TryExit (symbol : string) (lastPx now : float)
| Reset (startingCash : option float).

Definition step (c : call) (sim : t) : t :=
  match c with
  | Fill o => fill o sim
  | TryExit symbol lastPx now => tryExit symbol lastPx now sim
  | Reset startingCash => reset startingCash sim
  end.

Definition run (cs : list call) (sim : t) : t :=
  fold_left (fun s c => step c s) cs sim.

(** The invariant of the open-positions map: every position it holds has
    a quantity strictly above zero. *)
Definition positionsPositive (sim : t) : Prop :=
  forall symbol p,
    positions sim !! symbol = Some p -> (0 <? Position.qty p) = true.

(** A call whose order, if it has one, carries a finite quantity. *)
Definition finiteQuantity (c : call) : Prop :=
  match c with
  | Fill o => isFinite (Order.qty o) = true
  | _ => True
  end.

End Simulator.

(** ** pipeline/priceConfirm.ts: rolling statistics and the confirmation gate *)

Module ConfirmSignal.
Record t := mk {
  symbol : string;
  ts : float;
  price : float;
  volZ : float;
  ret1m : float;
  vwapDev : float;
  pass : bool }.
End ConfirmSignal.

Module PriceConfirm.
Import JS.
Local Open Scope float_scope.

(** What the module reads from outside: the thresholds of [cfg]
    ([config.ts] is not among the sources) and [WINDOW_SIZE], read from
    the process environment when the module is loaded. *)
Record Env := mkEnv {
  VOL_Z_MIN : float;
  RET_1M_MIN : float;
  VWAP_DEV_MIN : float;
  WINDOW_SIZE : float }.

(** [values.length] as a number. *)
Definition lengthF {A} (l : list A) : float := Z2F (Z.of_nat (length l)).

(** [class RollingWindow] *)
Record RollingWindow := mkWindow { values : list float; capacity : float }.

Definition newWindow (capacity : float) : RollingWindow := mkWindow [] capacity.

Definition push (x : float) (w : RollingWindow) : RollingWindow :=
  let vs := values w ++ [x] in
  if capacity w <? lengthF vs then mkWindow (tail vs) (capacity w)
  else mkWindow vs (capacity w).

Definition last (w : RollingWindow) : option float := List.last (map Some (values w)) None.

Definition mean (w : RollingWindow) : float :=
  match values w with
  | [] => 0
  | _ => fold_left (fun a b => a + b) (values w) 0 / lengthF (values w)
  end.

Definition std (w : RollingWindow) : float :=
  let n := lengthF (values w) in
  if n <=? 1 then 0
  else
    let m := mean w in
    let variance :=
      fold_left (fun acc v => acc + (v - m) * (v - m)) (values w) 0 / (n - 1) in
    sqrt variance.

Record VwapAccumulator := mkVwap { priceVolume : float; volume : float }.

(** The entries the three module-level dictionaries own, keyed by ticker
    symbol. *)
Record State := mkState {
  volumeWindows : gmap string RollingWindow;
  vwapAccumulators : gmap string VwapAccumulator;
  referencePrices : gmap string float }.

Definition initial : State := mkState ∅ ∅ ∅.

(** The three dictionaries are object literals [{}]: a key that a
    dictionary does not own is looked up in [Object.prototype].  For the
    property names of [Object.prototype] a read therefore gives the
    inherited member (a function, or the prototype itself for
    [__proto__]), which is neither [undefined] nor falsy. *)
Definition inheritedNames : list string :=
  [ "constructor"; "__defineGetter__"; "__defineSetter__"; "hasOwnProperty";
    "__lookupGetter__"; "__lookupSetter__"; "isPrototypeOf";
    "propertyIsEnumerable"; "toString"; "valueOf"; "__proto__";
    "toLocaleString" ].

Definition inherited (key : string) : bool :=
  existsb (String.eqb key) inheritedNames.

(** What [dict[key]] evaluates to: the entry the dictionary owns, the
    inherited member, or [undefined]. *)
Inductive slot (V : Type) : Type :=
| Own (v : V)
| Inherited
| Missing.
Arguments Own {V} v.
Arguments Inherited {V}.
Arguments Missing {V}.

Definition read {V} (dict : gmap string V) (key : string) : slot V :=
  match dict !! key with
  | Some v => Own v
  | None => if inherited key then Inherited else Missing
  end.

(** A call returns a value or throws: the only exception of the module
    is the [TypeError] of calling [push] or [mean] on an inherited
    member, which has no such method. *)
Inductive outcome (A : Type) : Type :=
| Returned (a : A)
| TypeError.
Arguments Returned {A} a.
Arguments TypeError {A}.

(** The value of [volumeWindows[symbol] ||= new RollingWindow(WINDOW_SIZE)]:
    the window owned, a fresh one, or ([None]) the inherited member, which
    is truthy and so is not replaced. *)
Definition getOrCreateWindow (env : Env) (symbol : string) (st : State)
    : option RollingWindow :=
  match read (volumeWindows st) symbol with
  | Own w => Some w
  | Inherited => None
  | Missing => Some (newWindow (WINDOW_SIZE env))
  end.

(** The value of [vwapAccumulators[symbol] ||= { priceVolume: 0, volume: 0 }],
    with [None] for the inherited member. *)
Definition getOrCreateVwap (symbol : string) (st : State) : option VwapAccumulator :=
  match read (vwapAccumulators st) symbol with
  | Own a => Some a
  | Inherited => None
  | Missing => Some (mkVwap 0 0)
  end.

(** [onAgg(symbol, close, volume)]: both objects are created if absent,
    stored, and updated in place.  On an inherited member [win.push]
    throws before anything is written; the two [+=] on an inherited
    member write to that member, not to the dictionaries. *)
Definition onAgg (env : Env) (symbol : string) (close vol : float) (st : State)
    : outcome unit * State :=
  match getOrCreateWindow env symbol st with
  | None => (TypeError, st)
  | Some w =>
      let windows := <[symbol := push vol w]> (volumeWindows st) in
      match getOrCreateVwap symbol st with
      | None => (Returned tt, mkState windows (vwapAccumulators st) (referencePrices st))
      | Some acc =>
          let acc' := mkVwap (priceVolume acc + close * vol) (volume acc + vol) in
          (Returned tt,
           mkState windows (<[symbol := acc']> (vwapAccumulators st))
                   (referencePrices st))
      end
  end.

(** [setRef(symbol, px)]: an entry owned, and an inherited member, are
    not [null]. *)
Definition setRef (symbol : string) (px : float) (st : State) : State :=
  match read (referencePrices st) symbol with
  | Missing => mkState (volumeWindows st) (vwapAccumulators st)
                       (<[symbol := px]> (referencePrices st))
  | _ => st
  end.

(** The [vwapPx] of [getConfirm], the divisor of its [vwapDev]: the
    [volume] of an inherited member is [undefined], or the NaN that
    [onAgg] has added to it, and neither is above 0. *)
Definition vwapPxOf (acc : option VwapAccumulator) (priceNow : float) : float :=
  match acc with
  | Some a => if 0 <? volume a then priceVolume a / volume a else priceNow
  | None => priceNow
  end.

(** The [ref] of [getConfirm], the divisor of its [ret1m]: an inherited
    member is not nullish and converts to NaN as a number. *)
Definition refOf (entry : slot float) (vwapPx : float) : float :=
  match entry with
  | Own r => r
  | Inherited => nan
  | Missing => vwapPx
  end.

(** [getConfirm(symbol, priceNow)].  [clock] is the value of [Date.now()]
    at the call.  On an inherited member [win.mean()] throws.  The
    function writes none of the dictionaries (an absent window is
    replaced by a fresh one that is not stored), so the state it leaves
    is the state it was given. *)
Definition getConfirm (env : Env) (clock : float) (symbol : string)
    (priceNow : float) (st : State) : outcome ConfirmSignal.t * State :=
  match read (volumeWindows st) symbol with
  | Inherited => (TypeError, st)
  | entry =>
      let win := match entry with Own w => w | _ => newWindow (WINDOW_SIZE env) end in
      let meanVol := mean win in
      let sdVol := std win in
      let lastVol := orDefault 0 (last win) in
      let volZ := if 0 <? sdVol then (lastVol - meanVol) / sdVol else 0 in
      let vwapPx := vwapPxOf (vwapAccumulators st !! symbol) priceNow in
      let vwapDev := priceNow / vwapPx - 1 in
      let ref := refOf (read (referencePrices st) symbol) vwapPx in
      let ret1m := priceNow / ref - 1 in
      let pass :=
        ((VOL_Z_MIN env <=? volZ) && (RET_1M_MIN env <=? ret1m))
        || ((VWAP_DEV_MIN env <=? vwapDev) && (VOL_Z_MIN env - 0.5 <=? volZ)) in
      (Returned (ConfirmSignal.mk symbol clock priceNow volZ ret1m vwapDev pass), st)
  end.

(** The divisors of the divisions [getConfirm] evaluates, in the order
    it evaluates them: those of [mean] and of [std] (which calls [mean]
    again), the one of the z-score, the one of the VWAP, and the two of
    the deviation and of the return.  A call that throws divides nothing. *)
Definition meanDivisors (w : RollingWindow) : list float :=
  match values w with
  | [] => []
  | _ => [lengthF (values w)]
  end.

Definition stdDivisors (w : RollingWindow) : list float :=
  if lengthF (values w) <=? 1 then []
  else meanDivisors w ++ [lengthF (values w) - 1].

Definition divisors (env : Env) (symbol : string) (priceNow : float) (st : State)
    : list float :=
  match read (volumeWindows st) symbol with
  | Inherited => []
  | entry =>
      let win := match entry with Own w => w | _ => newWindow (WINDOW_SIZE env) end in
      let vwapPx := vwapPxOf (vwapAccumulators st !! symbol) priceNow in
      meanDivisors win ++ stdDivisors win
      ++ (if 0 <? std win then [std win] else [])
      ++ match vwapAccumulators st !! symbol with
         | Some a => if 0 <? volume a then [volume a] else []
         | None => []
         end
      ++ [vwapPx; refOf (read (referencePrices st) symbol) vwapPx]
  end.

(** [resetSymbolState(symbol)] *)
Definition resetSymbolState (symbol : string) (st : State) : State :=
  mkState (delete symbol (volumeWindows st))
          (delete symbol (vwapAccumulators st))
          (delete symbol (referencePrices st)).

(** No dictionary owns an entry under an inherited name.  The module
    starts so and stays so: [onAgg] and [setRef] store nothing under
    such a name. *)
Definition ownsNoInheritedName (st : State) : bool :=
  forallb
    (fun key =>
       match volumeWindows st !! key, vwapAccumulators st !! key,
             referencePrices st !! key with
       | None, None, None => true
       | _, _, _ => false
       end)
    inheritedNames.

End PriceConfirm.

(** ** Strings and regular expressions of the JavaScript runtime *)

(** A string is its sequence of UTF-16 code units. *)
Module Str.
Local Open Scope N_scope.
Definition jsstring := list N.
Definition lit (s : string) : jsstring := map N_of_ascii (list_ascii_of_string s).
Definition ch (a : ascii) : N := N_of_ascii a.

Definition isDigit (c : N) : bool := (48 <=? c) && (c <=? 57).
Definition isUpper (c : N) : bool := (65 <=? c) && (c <=? 90).
Definition isLower (c : N) : bool := (97 <=? c) && (c <=? 122).
Definition isWordChar (c : N) : bool := isDigit c || isUpper c || isLower c || (c =? 95).
Definition isLineTerminator (c : N) : bool :=
  (c =? 10) || (c =? 13) || (c =? 8232) || (c =? 8233).
Definition isWhiteSpace (c : N) : bool :=
  (c =? 9) || (c =? 11) || (c =? 12) || (c =? 32) || (c =? 160) || (c =? 5760)
  || ((8192 <=? c) && (c <=? 8202)) || (c =? 8239) || (c =? 8287)
  || (c =? 12288) || (c =? 65279).
Definition isSpace (c : N) : bool := isWhiteSpace c || isLineTerminator c.
Definition upperA (c : N) : N := if isLower c then c - 32 else c.
Definition lowerA (c : N) : N := if isUpper c then c + 32 else c.

Fixpoint eqb (a b : jsstring) : bool :=
  match a, b with
  | [], [] => true
  | x :: a', y :: b' => (x =? y) && eqb a' b'
  | _, _ => false
  end.

Fixpoint startsWith (s prefix : jsstring) : bool :=
  match prefix, s with
  | [], _ => true
  | p :: prefix', c :: s' => (c =? p) && startsWith s' prefix'
  | _ :: _, [] => false
  end.

(** [s.includes(needle)] *)
Fixpoint includes (s needle : jsstring) : bool :=
  startsWith s needle
  || match s with
     | [] => false
     | _ :: s' => includes s' needle
     end.

(** [s.toLowerCase()] on the letters of ASCII; other code units are kept.
    (The full mapping also lowers letters outside ASCII; the model uses
    the function only to compare with ASCII host names and tokens.) *)
Definition toLowerCase (s : jsstring) : jsstring := map lowerA s.

(** [s.replace(/\s+/g, " ")]: every maximal run of white space becomes
    one space. *)
Fixpoint collapseSpaces (inRun : bool) (s : jsstring) : jsstring :=
  match s with
  | [] => []
  | c :: s' =>
      if isSpace c
      then (if inRun then collapseSpaces true s' else 32 :: collapseSpaces true s')
      else c :: collapseSpaces false s'
  end.

Fixpoint dropSpaces (s : jsstring) : jsstring :=
  match s with
  | c :: s' => if isSpace c then dropSpaces s' else s
  | [] => []
  end.

(** [s.trim()] *)
Definition trim (s : jsstring) : jsstring :=
  rev (dropSpaces (rev (dropSpaces s))).

(** [parts.join(sep)] on Rocq strings (used to build a pattern). *)
Fixpoint join (sep : string) (parts : list string) : string :=
  match parts with
  | [] => EmptyString
  | [p] => p
  | p :: ps => (p ++ sep ++ join sep ps)%string
  end.

(** [parseInt(s, 10)]: leading white space, an optional sign, then the
    longest run of decimal digits; [None] stands for NaN. *)
Fixpoint digitsValue (s : jsstring) (acc : option Z) : option Z :=
  match s with
  | c :: s' =>
      if isDigit c
      then digitsValue s' (Some (10 * match acc with Some a => a | None => 0 end
                                 + Z.of_N (c - 48))%Z)
      else acc
  | [] => acc
  end.

Definition parseInt10 (s : jsstring) : option Z :=
  match dropSpaces s with
  | c :: s' =>
      if c =? ch "-" then option_map Z.opp (digitsValue s' None)
      else if c =? ch "+" then digitsValue s' None
      else digitsValue (c :: s') None
  | [] => None
  end.

(** A string that may be undefined, defaulted to the empty string. *)
Definition orEmpty (o : option jsstring) : jsstring :=
  match o with Some s => s | None => [] end.

End Str.

Module RegExp.
Import Str.
Local Open Scope N_scope.

Inductive classItem :=
| CChar (c : N)
| CRange (lo hi : N)
| CDigit (neg : bool)
| CSpace (neg : bool)
| CWord (neg : bool).

Inductive re :=
| REmpty
| RChar (c : N)
| RAny
| RClass (neg : bool) (items : list classItem)
| RWordB (neg : bool)
| RBol
| REol
| RSeq (a b : re)
| RAlt (a b : re)
| RGroup (idx : option nat) (r : re)
| RQuant (mn : nat) (mx : option nat) (greedy : bool) (r : re).

(** *** Parsing a pattern *)

Fixpoint pNat (s : jsstring) (acc : option nat) : option nat * jsstring :=
  match s with
  | c :: s' =>
      if isDigit c
      then pNat s' (Some (10 * match acc with Some a => a | None => 0 end
                          + N.to_nat (c - 48))%nat)
      else (acc, s)
  | [] => (acc, s)
  end.

Definition pEscapeClass (c : N) : option classItem :=
  if c =? ch "d" then Some (CDigit false)
  else if c =? ch "D" then Some (CDigit true)
  else if c =? ch "s" then Some (CSpace false)
  else if c =? ch "S" then Some (CSpace true)
  else if c =? ch "w" then Some (CWord false)
  else if c =? ch "W" then Some (CWord true)
  else None.

Definition pEscapeChar (c : N) : option N :=
  if c =? ch "n" then Some 10
  else if c =? ch "r" then Some 13
  else if c =? ch "t" then Some 9
  else if c =? ch "v" then Some 11
  else if c =? ch "f" then Some 12
  else if isWordChar c then None
  else Some c.

(** One atom of a class: a character or an escape. *)
Definition pClassAtom (s : jsstring) : option (classItem * jsstring) :=
  match s with
  | c :: s' =>
      if c =? ch "\" then
        match s' with
        | e :: s'' =>
            match pEscapeClass e with
            | Some it => Some (it, s'')
            | None =>
                if e =? ch "b" then Some (CChar 8, s'')
                else match pEscapeChar e with
                     | Some x => Some (CChar x, s'')
                     | None => None
                     end
            end
        | [] => None
        end
      else Some (CChar c, s')
  | [] => None
  end.

Fixpoint pClassItems (fuel : nat) (s : jsstring) (acc : list classItem)
    : option (list classItem * jsstring) :=
  match fuel with
  | O => None
  | S f =>
      match s with
      | [] => None
      | c :: s' =>
          if c =? ch "]" then Some (rev acc, s')
          else
            match pClassAtom s with
            | None => None
            | Some (a, s1) =>
                match a, s1 with
                | CChar lo, d :: s2 =>
                    if (d =? ch "-") && negb (match s2 with x :: _ => x =? ch "]" | [] => true end)
                    then match pClassAtom s2 with
                         | Some (CChar hi, s3) => pClassItems f s3 (CRange lo hi :: acc)
                         | _ => None
                         end
                    else pClassItems f s1 (a :: acc)
                | _, _ => pClassItems f s1 (a :: acc)
                end
            end
      end
  end.

Definition pQuant (s : jsstring) : option (option (nat * option nat) * jsstring) :=
  match s with
  | c :: s' =>
      if c =? ch "*" then Some (Some (0%nat, None), s')
      else if c =? ch "+" then Some (Some (1%nat, None), s')
      else if c =? ch "?" then Some (Some (0%nat, Some 1%nat), s')
      else if c =? ch "{" then
        match pNat s' None with
        | (Some lo, s1) =>
            match s1 with
            | d :: s2 =>
                if d =? ch "}" then Some (Some (lo, Some lo), s2)
                else if d =? ch "," then
                  match pNat s2 None with
                  | (hi, e :: s3) => if e =? ch "}" then Some (Some (lo, hi), s3) else None
                  | _ => None
                  end
                else None
            | [] => None
            end
        | _ => None
        end
      else Some (None, s)
  | [] => Some (None, s)
  end.

Definition withQuant (a : re) (s : jsstring) : option (re * jsstring) :=
  match pQuant s with
  | None => None
  | Some (None, s') => Some (a, s')
  | Some (Some (lo, hi), s') =>
      match s' with
      | c :: s'' => if c =? ch "?" then Some (RQuant lo hi false a, s'')
                    else Some (RQuant lo hi true a, s')
      | [] => Some (RQuant lo hi true a, s')
      end
  end.

Fixpoint pDisj (fuel : nat) (s : jsstring) (g : nat) {struct fuel}
    : option (re * jsstring * nat) :=
  match fuel with
  | O => None
  | S f =>
      match pAlt f s g with
      | None => None
      | Some (a, s1, g1) =>
          match s1 with
          | c :: s2 =>
              if c =? ch "|" then
                match pDisj f s2 g1 with
                | Some (b, s3, g3) => Some (RAlt a b, s3, g3)
                | None => None
                end
              else Some (a, s1, g1)
          | [] => Some (a, s1, g1)
          end
      end
  end
with pAlt (fuel : nat) (s : jsstring) (g : nat) {struct fuel}
    : option (re * jsstring * nat) :=
  match fuel with
  | O => None
  | S f =>
      match s with
      | [] => Some (REmpty, s, g)
      | c :: _ =>
          if (c =? ch "|") || (c =? ch ")") then Some (REmpty, s, g)
          else
            match pTerm f s g with
            | None => None
            | Some (t, s1, g1) =>
                match pAlt f s1 g1 with
                | Some (REmpty, s2, g2) => Some (t, s2, g2)
                | Some (r, s2, g2) => Some (RSeq t r, s2, g2)
                | None => None
                end
            end
      end
  end
with pTerm (fuel : nat) (s : jsstring) (g : nat) {struct fuel}
    : option (re * jsstring * nat) :=
  match fuel with
  | O => None
  | S f =>
      let quantified (a : re) (s' : jsstring) (g' : nat) :=
        match withQuant a s' with
        | Some (r, s'') => Some (r, s'', g')
        | None => None
        end in
      match s with
      | [] => None
      | c :: s' =>
          if c =? ch "^" then Some (RBol, s', g)
          else if c =? ch "$" then Some (REol, s', g)
          else if c =? ch "." then quantified RAny s' g
          else if c =? ch "(" then
            match s' with
            | q :: c2 :: s'' =>
                if (q =? ch "?") && (c2 =? ch ":") then
                  match pDisj f s'' g with
                  | Some (r, d :: s3, g3) =>
                      if d =? ch ")" then quantified (RGroup None r) s3 g3 else None
                  | _ => None
                  end
                else if q =? ch "?" then None
                else
                  match pDisj f s' (S g) with
                  | Some (r, d :: s3, g3) =>
                      if d =? ch ")" then quantified (RGroup (Some (S g)) r) s3 g3 else None
                  | _ => None
                  end
            | _ =>
                match pDisj f s' (S g) with
                | Some (r, d :: s3, g3) =>
                    if d =? ch ")" then quantified (RGroup (Some (S g)) r) s3 g3 else None
                | _ => None
                end
            end
          else if c =? ch "[" then
            let '(neg, s1) := match s' with
                              | n :: s1 => if n =? ch "^" then (true, s1) else (false, s')
                              | [] => (false, s')
                              end in
            match pClassItems (S (List.length s1)) s1 [] with
            | Some (items, s2) => quantified (RClass neg items) s2 g
            | None => None
            end
          else if c =? ch "\" then
            match s' with
            | e :: s'' =>
                if e =? ch "b" then Some (RWordB false, s'', g)
                else if e =? ch "B" then Some (RWordB true, s'', g)
                else match pEscapeClass e with
                     | Some it => quantified (RClass false [it]) s'' g
                     | None =>
                         match pEscapeChar e with
                         | Some x => quantified (RChar x) s'' g
                         | None => None
                         end
                     end
            | [] => None
            end
          else if (c =? ch "*") || (c =? ch "+") || (c =? ch "?") || (c =? ch "{")
                  || (c =? ch "}") || (c =? ch "]") then None
          else quantified (RChar c) s' g
      end
  end.

Definition parse (src : jsstring) : option re :=
  match pDisj (3 * List.length src + 3) src 0 with
  | Some (r, [], _) => Some r
  | _ => None
  end.


(** *** Matching: the backtracking semantics of the specification,
    with continuations *)

Record mstate := mkM {
  prev : option N;          (* the code unit before the current index *)
  rest : jsstring;          (* the input from the current index on *)
  idx : nat;                (* the current index *)
  caps : list (nat * (nat * nat)) (* group -> (start, end) *) }.

Definition advance (s : mstate) : mstate :=
  match rest s with
  | c :: r => mkM (Some c) r (S (idx s)) (caps s)
  | [] => s
  end.

Definition setCap (i : nat) (a b : nat) (s : mstate) : mstate :=
  mkM (prev s) (rest s) (idx s)
      ((i, (a, b)) :: filter (fun p => negb (Nat.eqb (fst p) i)) (caps s)).

Definition clearCaps (gs : list nat) (s : mstate) : mstate :=
  mkM (prev s) (rest s) (idx s)
      (filter (fun p => negb (existsb (Nat.eqb (fst p)) gs)) (caps s)).

Fixpoint groups (r : re) : list nat :=
  match r with
  | RSeq a b | RAlt a b => groups a ++ groups b
  | RGroup (Some i) r' => i :: groups r'
  | RGroup None r' => groups r'
  | RQuant _ _ _ r' => groups r'
  | _ => []
  end.

(** Canonicalize of the specification for the [i] flag.  Without the [u]
    flag a code unit outside ASCII never canonicalizes to an ASCII one, so
    for patterns written in ASCII, as all of these are, upper-casing the
    ASCII letters is the whole of it. *)
Definition canon (ic : bool) (c : N) : N := if ic then upperA c else c.

Definition itemMatches (ic : bool) (c : N) (it : classItem) : bool :=
  match it with
  | CChar x => canon ic c =? canon ic x
  | CRange lo hi =>
      let inR (y : N) := (lo <=? y) && (y <=? hi) in
      if ic then inR c || inR (upperA c) || inR (lowerA c) else inR c
  | CDigit neg => xorb neg (isDigit c)
  | CSpace neg => xorb neg (isSpace c)
  | CWord neg => xorb neg (isWordChar c)
  end.

Definition isWordAt (o : option N) : bool :=
  match o with Some c => isWordChar c | None => false end.

Definition orElse {A} (a b : option A) : option A :=
  match a with Some _ => a | None => b end.

Fixpoint m (ic : bool) (r : re) (k : mstate -> option mstate) (s : mstate)
    {struct r} : option mstate :=
  match r with
  | REmpty => k s
  | RChar c =>
      match rest s with
      | x :: _ => if canon ic x =? canon ic c then k (advance s) else None
      | [] => None
      end
  | RAny =>
      match rest s with
      | x :: _ => if isLineTerminator x then None else k (advance s)
      | [] => None
      end
  | RClass neg items =>
      match rest s with
      | x :: _ => if xorb neg (existsb (itemMatches ic x) items)
                  then k (advance s) else None
      | [] => None
      end
  | RWordB neg =>
      let a := isWordAt (prev s) in
      let b := isWordAt (hd_error (rest s)) in
      if xorb neg (xorb a b) then k s else None
  | RBol => match prev s with None => k s | Some _ => None end
  | REol => match rest s with [] => k s | _ => None end
  | RSeq a b => m ic a (fun s' => m ic b k s') s
  | RAlt a b => orElse (m ic a k s) (m ic b k s)
  | RGroup (Some i) r' => m ic r' (fun s' => k (setCap i (idx s) (idx s') s')) s
  | RGroup None r' => m ic r' k s
  | RQuant mn mx greedy r' =>
      (fix rep (fuel : nat) (mn : nat) (mx : option nat) (x : mstate)
           {struct fuel} : option mstate :=
         match fuel with
         | O => None
         | S fuel' =>
             match mx with
             | Some O => k x
             | _ =>
                 let d := fun y : mstate =>
                   if Nat.eqb mn 0 && Nat.eqb (idx y) (idx x) then None
                   else rep fuel' (Nat.pred mn) (option_map Nat.pred mx) y in
                 let xr := clearCaps (groups r') x in
                 if negb (Nat.eqb mn 0) then m ic r' d xr
                 else if greedy then orElse (m ic r' d xr) (k x)
                 else orElse (k x) (m ic r' d xr)
             end
         end) (S (mn + List.length (rest s))) mn mx s
  end.

(** A compiled regular expression: its pattern and the [i] flag. *)
Record t := mk { pattern : option re; ignoreCase : bool }.

Definition regex (src flags : string) : t :=
  mk (parse (lit src)) (existsb (N.eqb (ch "i")) (lit flags)).

(** The match at a given start, if any. *)
Definition matchAt (r : re) (ic : bool) (p : option N) (input : jsstring) (i : nat)
    : option mstate :=
  m ic r Some (mkM p input i []).

(** The search of [exec] for a regular expression without the [g] and
    [y] flags: the first start index, from 0, at which the pattern matches. *)
Fixpoint search (r : re) (ic : bool) (p : option N) (input : jsstring) (i : nat)
    : option (nat * mstate) :=
  match matchAt r ic p input i with
  | Some e => Some (i, e)
  | None =>
      match input with
      | c :: input' => search r ic (Some c) input' (S i)
      | [] => None
      end
  end.

Definition exec (rx : t) (input : jsstring) : option (nat * mstate) :=
  match pattern rx with
  | Some r => search r (ignoreCase rx) None input 0
  | None => None
  end.

(** [rx.test(input)] *)
Definition test (rx : t) (input : jsstring) : bool :=
  match exec rx input with Some _ => true | None => false end.

(** [input.match(rx)[i]]: the text of group [i] of the first match,
    [None] for no match or a group that took no part in it. *)
Definition substring (a b : nat) (input : jsstring) : jsstring :=
  firstn (b - a) (skipn a input).

Definition matchGroup (rx : t) (input : jsstring) (i : nat) : option jsstring :=
  match exec rx input with
  | Some (start, e) =>
      match i with
      | O => Some (substring start (idx e) input)
      | _ =>
          match find (fun p => Nat.eqb (fst p) i) (caps e) with
          | Some (_, (a, b)) => Some (substring a b input)
          | None => None
          end
      end
  | None => None
  end.

(** The array [input.match(rx)] for a pattern of [n] groups. *)
Definition matchArray (rx : t) (n : nat) (input : jsstring)
    : option (list (option jsstring)) :=
  match exec rx input with
  | Some _ => Some (map (matchGroup rx input) (seq 0 (S n)))
  | None => None
  end.

End RegExp.
(** ** pipeline/classify.ts: the rule-based event classifier *)

(** The items that flow through the pipeline ([types.ts] is not among the
    sources: the fields are those the providers fill and the pipeline
    reads).  A field the code guards with [||], [??] or [?.] is optional. *)
Module RawItem.
Record t := mk {
  id : Str.jsstring;
  url : option Str.jsstring;
  title : option Str.jsstring;
  summary : option Str.jsstring;
  source : Str.jsstring;
  publishedAt : Str.jsstring;
  symbols : option (list string);
  marketCap : option float }.
End RawItem.

(** Events commonly behind large single-day moves. *)
Inductive HighImpactEvent :=
| PIVOTAL_TRIAL_SUCCESS
| FDA_MARKETING_AUTH
| FDA_ADCOM_POSITIVE
| REGULATORY_DESIGNATION
| TIER1_PARTNERSHIP
| MAJOR_GOV_CONTRACT
| GOVERNMENT_EQUITY_OR_GRANT
| ACQUISITION_BUYOUT
| IPO_DEBUT_POP
| COURT_WIN_INJUNCTION
| MEME_OR_INFLUENCER
| RESTRUCTURING_OR_FINANCING
| POLICY_OR_POLITICS_TAILWIND
| EARNINGS_BEAT_OR_GUIDE_UP
| INDEX_INCLUSION
| UPLISTING_TO_NASDAQ
| OTHER.

#[global] Instance HighImpactEvent_eq_dec : EqDecision HighImpactEvent.
Proof. solve_decision. Defined.

(** [{ ...it, klass, score }] *)
Module ClassifiedItem.
Record t := mk {
  item : RawItem.t;
  klass : HighImpactEvent;
  score : float }.
End ClassifiedItem.

Module Classify.
Import JS Str RegExp.

(** Tier-1 counterparties. *)
Definition TIER1_COUNTERPARTIES : list string :=
  [ "Nvidia"; "Microsoft"; "OpenAI"; "Apple"; "Amazon"; "AWS"; "Google";
    "Alphabet"; "Meta"; "Facebook"; "Tesla"; "Oracle"; "Salesforce"; "Adobe";
    "IBM"; "Intel"; "AMD"; "Broadcom"; "Qualcomm"; "TSMC"; "Samsung";
    "Cisco"; "Dell"; "HPE"; "Supermicro"; "Snowflake"; "Palantir"; "Siemens";
    "Sony"; "Workday"; "ServiceNow"; "Shopify"; "Twilio"; "Atlassian";
    "Zoom"; "Datadog"; "CrowdStrike"; "Okta"; "MongoDB"; "Cloudflare";
    "Stripe"; "Block"; "Square"; "Walmart"; "Target"; "Costco"; "Home Depot";
    "Lowe's"; "Best Buy"; "Alibaba"; "Tencent"; "JD.com"; "ByteDance";
    "TikTok"; "Lockheed Martin"; "Raytheon"; "RTX"; "Boeing";
    "Northrop Grumman"; "General Dynamics"; "L3Harris"; "BAE Systems";
    "Thales"; "Airbus"; "SpaceX"; "NASA"; "Space Force"; "USSF"; "DARPA";
    "Department of Defense"; "DoD"; "Army"; "Navy"; "Air Force"; "Pfizer";
    "Merck"; "Johnson & Johnson"; "J&J"; "Bristol-Myers"; "BMS"; "Eli Lilly";
    "Lilly"; "Sanofi"; "GSK"; "AstraZeneca"; "Novo Nordisk"; "Roche";
    "Novartis"; "Bayer"; "Amgen"; "AbbVie"; "Takeda"; "Gilead"; "Biogen";
    "Regeneron"; "Medtronic"; "Boston Scientific"; "Abbott"; "GE Healthcare";
    "Philips"; "Siemens Healthineers"; "Intuitive Surgical"; "BARDA"; "HHS";
    "NIH"; "CMS"; "Medicare"; "VA"; "FDA"; "EMA"; "EC"; "MHRA"; "PMDA";
    "ExxonMobil"; "Chevron"; "BP"; "Shell"; "TotalEnergies"; "Schlumberger";
    "Halliburton"; "Caterpillar"; "Deere"; "GE"; "Honeywell" ].

(** [esc]: a backslash before each character of [.*+?^${}()|[\]\\]. *)
Definition isSpecial (a : ascii) : bool :=
  existsb (Ascii.eqb a)
    (list_ascii_of_string ".*+?^${}()|[]\").

Fixpoint esc (s : string) : string :=
  match s with
  | EmptyString => EmptyString
  | String a s' =>
      if isSpecial a then String "\" (String a (esc s')) else String a (esc s')
  end.

(** [normalize] *)
Definition normalize (s : jsstring) : jsstring :=
  let s := collapseSpaces false s in
  let s := map (fun c => if ((c =? 8220) || (c =? 8221))%N then 34%N else c) s in
  let s := map (fun c => if ((c =? 8217) || (c =? 8216))%N then 39%N else c) s in
  let s := map (fun c => if ((c =? 8209) || (c =? 8211) || (c =? 8212))%N
                         then 45%N else c) s in
  trim s.

Definition TIER1_RX : RegExp.t :=
  regex ("\b(?:" ++ join "|" (map esc TIER1_COUNTERPARTIES) ++ ")(?:'s)?\b") "i".

Definition WIRE_HOSTS : list jsstring :=
  [ lit "www.prnewswire.com"; lit "www.globenewswire.com";
    lit "www.businesswire.com"; lit "www.accesswire.com";
    lit "www.newsfilecorp.com" ].

Definition WIRE_TOKENS : list jsstring :=
  [ lit "PR Newswire"; lit "GlobeNewswire"; lit "Business Wire";
    lit "ACCESSWIRE"; lit "Newsfile" ].

Definition IR_HOST : RegExp.t := regex "^(ir|investors)\." "i".

Section WithURL.
(** [new URL(url).hostname] of the runtime; [None] when the constructor
    throws. *)
Variable hostname : jsstring -> option jsstring.

Definition isWirePR (url : option jsstring) (text : jsstring) : bool :=
  let t := normalize text in
  let tokens := existsb (fun tok => includes t tok) WIRE_TOKENS in
  match url with
  | Some (c :: u) =>
      match hostname (c :: u) with
      | Some h =>
          let host := toLowerCase h in
          if existsb (Str.eqb host) WIRE_HOSTS then true
          else if test IR_HOST host then true
          else tokens
      | None => tokens
      end
  | _ => tokens
  end.

End WithURL.

(** Helper cues for big percentage changes. *)
Definition BIG_PCT : RegExp.t :=
  regex "\b(revenue|sales|eps|earnings|arr|bookings|net income)\b[^.%]{0,80}?\b(up|increase[sd]?|grow[n|th|s]?|jump(?:ed)?|soar(?:ed)?|surged)\b[^%]{0,20}?(\d{2,3})\s?%" "i".
Definition RECORD_REVENUE : RegExp.t :=
  regex "\brecord\b[^.]{0,40}\b(revenue|sales)\b" "i".

Definition hasBigPercentGrowth (x : jsstring) : bool :=
  match matchGroup BIG_PCT x 3 with
  | Some (c :: g3) =>
      match parseInt10 (c :: g3) with
      | Some pct => if (50 <=? pct)%Z then true else test RECORD_REVENUE x
      | None => test RECORD_REVENUE x
      end
  | _ => test RECORD_REVENUE x
  end.

Definition SWING_TO_PROFIT : RegExp.t :=
  regex "\b(returns?|returned|swing|swung|back)\s+to\s+(profit|profitability|positive (?:net )?income)\b" "i".

Definition hasSwingToProfit (x : jsstring) : bool := test SWING_TO_PROFIT x.

(** The patterns of [PAT]. *)
Module PAT.
Definition pivotal : RegExp.t :=
  regex "\b(phase\s*(iii|3)|pivotal|registrational)\b.*\b(success|met (?:the )?primary endpoint|statistically significant)\b" "i".
Definition topline : RegExp.t :=
  regex "\b(top-?line)\b.*\b(positive|met (?:the )?primary endpoint|statistically significant)\b" "i".
Definition adcom : RegExp.t :=
  regex "\b(advisory (committee|panel)|adcom)\b.*\b(vote|voted|recommends?)\b" "i".
Definition approval : RegExp.t :=
  regex "\b(FDA|EMA|EC|MHRA|PMDA)\b.*\b(approved?|approval|authorized|authorization|clearance|clears|EUA|510\(k\))\b" "i".
Definition designation : RegExp.t :=
  regex "\b(breakthrough therapy|BTD|fast[- ]track|orphan (drug )?designation|PRIME|RMAT)\b" "i".
Definition mnaBinding : RegExp.t :=
  regex "\b(definitive (agreement|merger)|merger agreement (executed|signed)|entered into (a )?definitive (agreement|merger)|business combination|to be acquired|take[- ]private|go[- ]private|acquisition|buyout|tender|exchange offer)\b" "i".
Definition mnaWillAcquire : RegExp.t :=
  regex "\b(will|to)\s+acquire\b|\bto be acquired\b" "i".
Definition mnaPerShareOrValue : RegExp.t :=
  regex "\$\s?\d+(?:\.\d+)?\s*(?:per|\/)\s*share\b|(?:deal|transaction|enterprise|equity)\s+value(?:d)?\s+at\s+\$?\d+(?:\.\d+)?\s*(?:million|billion|bn|mm|m)\b" "i".
Definition mnaNonBinding : RegExp.t :=
  regex "\b(non[- ]binding|indicative|letter of intent|LOI)\b" "i".
Definition mnaAdminOnly : RegExp.t :=
  regex "\b(extend(s|ed|ing)?|extension)\b.*\b(tender offer|offer)\b" "i".
Definition mnaAssetOrProperty : RegExp.t :=
  regex "\b(divestiture|asset sale|dispos(?:e|al)|acquisition of (?:property|facility|real estate|inpatient rehabilitation))\b" "i".
Definition partnershipAny : RegExp.t :=
  regex "\b(partner(ship)?|strategic (?:alliance|partnership)|collaborat(?:e|ion)|distribution|licen[cs]e|supply|integration|deployment)\b" "i".
Definition dealSigned : RegExp.t :=
  regex "\b(signed|signs|inks?|enters? into)\b.*\b(agreement|deal|contract|MOU|memorandum of understanding)\b" "i".
Definition contractAny : RegExp.t :=
  regex "\b(contract|award|task order|IDIQ|grant|funding)\b" "i".
Definition govWords : RegExp.t :=
  regex "\b(NASA|USSF|Space Force|DoD|Department of Defense|Army|Navy|Air Force|DARPA|BARDA|HHS|NIH|CMS|Medicare|VA)\b" "i".
Definition govEquity : RegExp.t :=
  regex "\b(?:government|DoD|Department of Defense|HHS|BARDA)\b.*\b(preferred (stock|equity)|equity|investment|warrants?)\b" "i".
Definition earningsBeatGuideUp : RegExp.t :=
  regex "\b(raises?|increas(?:es|ed)|hikes?)\b.*\b(guidance|outlook|forecast)\b|\b(beat[s]?)\b.*\b(consensus|estimates|Street|expectations)\b" "i".
Definition indexInclusion : RegExp.t :=
  regex "\b(added|to be added|to join|inclusion|included)\b.*\b(Russell\s?(2000|3000)|MSCI|S&P\s?(500|400|600)|S&P Dow Jones Indices|FTSE)\b" "i".
Definition uplist : RegExp.t :=
  regex "\b(uplisting|uplist|approved to list)\b.*\b(Nasdaq|NYSE|NYSE American)\b" "i".
Definition listingCompliance : RegExp.t :=
  regex "\b(regain(?:ed|s)?|returns? to|back in)\b.*\b(compliance)\b.*\b(Nasdaq|NYSE|listing)\b" "i".
Definition courtWin : RegExp.t :=
  regex "\b(court|judge|ITC|PTAB)\b.*\b(grants?|wins?|injunction|vacates?|stays?)\b" "i".
Definition memeOrInfluencer : RegExp.t :=
  regex "\b(Roaring Kitty|Keith Gill|meme stock|wallstreetbets|WSB|short squeeze|Jensen Huang|Nvidia (blog|mention))\b" "i".
Definition nameDropContext : RegExp.t :=
  regex "\b(mention(?:ed)?|blog|keynote|showcase|featured|ecosystem|catalog|marketplace)\b" "i".
Definition proxyAdvisor : RegExp.t :=
  regex "\b(ISS|Institutional Shareholder Services|Glass Lewis)\b.*\b(recommend(s|ed)?|support(s|ed)?)\b.*\b(vote|proposal|deal|merger)\b" "i".
Definition voteAdminOnly : RegExp.t :=
  regex "\b(definitive proxy|proxy (statement|materials)|special meeting|annual meeting|extraordinary general meeting|EGM|shareholder vote|record date)\b" "i".
Definition lawFirmPR : RegExp.t :=
  regex "\b(class action|securities class action|investor (?:lawsuit|alert|reminder)|deadline alert|shareholder rights law firm|securities litigation|investigat(?:ion|ing)|Hagens Berman|Pomerantz|Rosen Law Firm|Glancy Prongay|Bronstein[, ]+Gewirtz|Kahn Swick|Saxena White|Kessler Topaz|Levi & Korsinsky)\b" "i".
Definition awardsPR : RegExp.t :=
  regex "\b(award|awards|winner|wins|finalist|recipient|honoree|recognized|recognition|named (?:as|to) (?:the )?(?:list|index|ranking)|anniversary|celebrat(es|ing|ion)|Respect the Drive)\b" "i".
Definition securityIncidentUpdate : RegExp.t :=
  regex "\b(cyber(?:security)?|security|ransomware|data (?:breach|exposure)|cyber[- ]?attack)\b.*\b(update|updated|provid(?:e|es)d? an? update)\b" "i".
Definition investorConfs : RegExp.t :=
  regex "\b(participat(e|es|ing)|to participate|will participate)\b.*\b(investor (?:conference|conferences)|conference|fireside chat|non-deal roadshow)\b" "i".
Definition financialResultsOnly : RegExp.t :=
  regex "\b(financial results|first quarter|second quarter|third quarter|fourth quarter|first half|second half|H1|H2|fiscal (?:Q\d|year) results)\b" "i".
Definition shelfOrATM : RegExp.t :=
  regex "\b(Form\s*S-3|shelf registration|at[- ]the[- ]market|ATM (program|facility))\b" "i".
Definition plainDilution : RegExp.t :=
  regex "\b(securities purchase agreement|registered direct|PIPE|private placement|unit financing|equity offering|warrants?)\b" "i".
Definition antiDilutionPositive : RegExp.t :=
  regex "\b(terminates?|terminated|withdraws?|withdrawn|cancels?|cancelled|reduces?|downsized?)\b.*\b(offering|registered direct|ATM|at[- ]the[- ]market|public offering|securities purchase agreement)\b" "i".
Definition strategicAlts : RegExp.t :=
  regex "\b(explore|evaluat(?:e|ing)|commence(?:s|d)?)\b.*\b(strategic alternatives|strategic review)\b" "i".
Definition conferenceOnly : RegExp.t :=
  regex "\b(presents?|to present|poster|abstract|oral presentation|fireside chat|non-deal roadshow|conference|corporate update)\b" "i".
Definition upcomingOnly : RegExp.t :=
  regex "\b(KOL|key opinion leader)\b.*\b(event|webcast|call)\b|\b(upcoming|will (announce|report)|to (announce|report))\b.*\b(data|results|top-?line)\b" "i".
Definition analystMedia : RegExp.t :=
  regex "\b(says|said|told|interview)\b.*\b(CNBC|Yahoo Finance|Bloomberg|Fox Business|Barron'?s)\b" "i".
Definition bidAuction : RegExp.t :=
  regex "\b(bid|proposal)\b.*\b(auction|court[- ]supervised|bankruptcy)\b" "i".
Definition govRoutine : RegExp.t :=
  regex "\b(continued production|follow[- ]on|option (exercise|exercised)|extension|renewal)\b" "i".
Definition typoErratum : RegExp.t :=
  regex "\b(typo|erratum|correction|corrects|amended release)\b" "i".
Definition cryptoTreasuryBuy : RegExp.t :=
  regex "\b(buy|bought|purchase[sd]?|acquire[sd]?)\b.*\b(Bitcoin|BTC|Ethereum|ETH|Solana|SOL|LINK|Chainlink|crypto(?:currency)?|tokens?)\b" "i".
Definition cryptoTreasuryDiscuss : RegExp.t :=
  regex "\b(treasury|reserve|policy|program|strategy)\b.*\b(discuss(?:ions?)?|approached|proposal|term sheet|non[- ]binding|indicative)\b.*\b(\$?\d+(?:\.\d+)?\s*(?:million|billion|bn|mm|m))\b" "i".
End PAT.

Definition LARGE_DOLLARS : RegExp.t :=
  regex "\$?\s?(?:\d{2,4})\s*(?:million|billion|bn|mm|m)\b" "i".
Definition SCALE : RegExp.t :=
  regex "\b(multi[- ]year|nationwide|global|enterprise[- ]wide|rollout)\b" "i".
Definition PREMIUM_OR_STRATEGIC : RegExp.t :=
  regex "premium|above[- ]market|strategic investor" "i".
Definition verbsTier1 : RegExp.t :=
  regex "\b(powered by|built (?:on|with)|integrat(?:es|ed)? with|adopt(?:s|ed)|selects?|standardiz(?:es|ed) on|deploys?|rolls out)\b" "i".

Record ScoreHit := mkHit { label : HighImpactEvent; w : float; why : string }.

(** The closure [push] of [classifyOne], with the list it appends to. *)
Definition push (ok : bool) (label : HighImpactEvent) (w : float) (why : string)
    (hits : list ScoreHit) : list ScoreHit :=
  if ok then hits ++ [mkHit label w why] else hits.

(** [Map<HighImpactEvent, number>]: the entries in insertion order. *)
Definition byMap := list (HighImpactEvent * float).

Fixpoint by_get (by_ : byMap) (k : HighImpactEvent) : option float :=
  match by_ with
  | [] => None
  | (k', v) :: r => if bool_decide (k' = k) then Some v else by_get r k
  end.

Definition by_has (by_ : byMap) (k : HighImpactEvent) : bool :=
  match by_get by_ k with Some _ => true | None => false end.

Fixpoint by_set (by_ : byMap) (k : HighImpactEvent) (v : float) : byMap :=
  match by_ with
  | [] => [(k, v)]
  | (k', v') :: r =>
      if bool_decide (k' = k) then (k, v) :: r else (k', v') :: by_set r k v
  end.

(** [entries.sort((a, b) => b[1] - a[1])]: the sort of the runtime is
    stable; an entry moves behind another only when the comparator is
    positive. *)
Fixpoint insertSorted (a : HighImpactEvent * float) (l : byMap) : byMap :=
  match l with
  | [] => [a]
  | b :: l' => if (0 <? snd b - snd a)%float then b :: insertSorted a l' else a :: l
  end.

Definition sortDescending (l : byMap) : byMap := fold_right insertSorted [] l.

Local Open Scope float_scope.

Section WithURL.
Variable hostname : jsstring -> option jsstring.

(** The positive rules: the hits pushed after the guards. *)
Definition positiveHits (x : jsstring) (isPR : bool) : list ScoreHit :=
  let hits := [] in
  (* Bio / regulatory (wire preferred) *)
  let hits :=
    if isPR then
      let hits := push (test PAT.approval x) FDA_MARKETING_AUTH 10 "approval" hits in
      let hits := push (test PAT.adcom x) FDA_ADCOM_POSITIVE 8 "adcom_positive" hits in
      let hits := push (test PAT.pivotal x || test PAT.topline x)
                       PIVOTAL_TRIAL_SUCCESS 9 "pivotal_or_topline" hits in
      push (test PAT.designation x) REGULATORY_DESIGNATION 6 "designation" hits
    else hits in
  (* M&A *)
  let binding :=
    test PAT.mnaBinding x
    || (test PAT.mnaWillAcquire x && test PAT.mnaPerShareOrValue x) in
  let nonbind := test PAT.mnaNonBinding x in
  let admin := test PAT.mnaAdminOnly x in
  let asset := test PAT.mnaAssetOrProperty x in
  let hits := push (binding && negb nonbind && negb admin && negb asset)
                   ACQUISITION_BUYOUT 9 "mna_binding" hits in
  let hits := if nonbind || admin || asset
              then push true OTHER 2 "mna_low_impact" hits else hits in
  (* Gov / partnerships *)
  let govContract := test PAT.govWords x && test PAT.contractAny x in
  let govEquity := test PAT.govEquity x in
  let isPartnership :=
    test PAT.partnershipAny x || test PAT.contractAny x || test PAT.dealSigned x
    || (test TIER1_RX x && test verbsTier1 x) in
  let hasTier1 := test TIER1_RX x in
  let hasScale := test LARGE_DOLLARS x || test SCALE x in
  let hits := if isPR && govContract && negb (test PAT.govRoutine x)
              then push true MAJOR_GOV_CONTRACT 8 "gov_contract" hits else hits in
  let hits := if isPR && govContract && test PAT.govRoutine x
              then push true OTHER 2 "gov_routine" hits else hits in
  let hits := push govEquity GOVERNMENT_EQUITY_OR_GRANT 9 "gov_equity" hits in
  let nameDropOnly :=
    hasTier1 && negb isPartnership && test PAT.nameDropContext x in
  let hits := if isPartnership && (hasTier1 || hasScale) && negb nameDropOnly
              then push true TIER1_PARTNERSHIP (if hasTier1 then 8 else 6)
                        (if hasTier1 then "tier1" else "scale") hits
              else hits in
  let hits := if negb isPartnership && nameDropOnly
              then push true MEME_OR_INFLUENCER 4 "tier1_name_drop_only" hits
              else hits in
  (* Corporate *)
  let beatOrGuide := test PAT.earningsBeatGuideUp x in
  let resultsBlob := test PAT.financialResultsOnly x in
  let strongExceptions := hasSwingToProfit x || hasBigPercentGrowth x in
  let hits := push (beatOrGuide || (resultsBlob && strongExceptions))
                   EARNINGS_BEAT_OR_GUIDE_UP (if beatOrGuide then 6 else 5)
                   (if beatOrGuide then "earnings" else "results_exception") hits in
  let hits := if test PAT.indexInclusion x
              then push true INDEX_INCLUSION 3 "index_inclusion" hits else hits in
  let hits := push (test PAT.uplist x) UPLISTING_TO_NASDAQ 5 "uplist" hits in
  let hits := push (test PAT.listingCompliance x) UPLISTING_TO_NASDAQ 6
                   "compliance" hits in
  (* Legal / meme *)
  let hits := push (test PAT.courtWin x) COURT_WIN_INJUNCTION 6 "court" hits in
  let hits := push (test PAT.memeOrInfluencer x) MEME_OR_INFLUENCER 6
                   "influencer" hits in
  (* Crypto / treasury catalysts *)
  let hits := if test PAT.cryptoTreasuryBuy x
              then push true RESTRUCTURING_OR_FINANCING 7 "crypto_treasury_buy" hits
              else hits in
  let hits := if test PAT.cryptoTreasuryDiscuss x
              then push true RESTRUCTURING_OR_FINANCING 6
                        "crypto_treasury_discuss" hits
              else hits in
  (* Positive financing exception *)
  let hits := if test PAT.antiDilutionPositive x
              then push true RESTRUCTURING_OR_FINANCING 7
                        "anti_dilution_positive" hits
              else hits in
  (* Generic results suppression *)
  let hits := if test PAT.financialResultsOnly x
                 && negb (test PAT.earningsBeatGuideUp x)
                 && negb (hasSwingToProfit x)
                 && negb (hasBigPercentGrowth x)
              then push true OTHER (-4) "generic_fin_results_only" hits
              else hits in
  hits.

(** Aggregation, synergies and selection, from the hits. *)
Definition selectEvent (x : jsstring) (hits : list ScoreHit)
    : HighImpactEvent * float :=
  match hits with
  | [] => (OTHER, 0)
  | _ =>
      let by_ :=
        fold_left
          (fun by_ h => by_set by_ (label h) (orDefault 0 (by_get by_ (label h)) + w h))
          hits [] in
      let by_ :=
        if by_has by_ PIVOTAL_TRIAL_SUCCESS && by_has by_ FDA_MARKETING_AUTH
        then by_set by_ FDA_MARKETING_AUTH
               (orDefault 0 (by_get by_ FDA_MARKETING_AUTH) + 3)
        else by_ in
      let by_ :=
        if (by_has by_ TIER1_PARTNERSHIP || by_has by_ MAJOR_GOV_CONTRACT
            || by_has by_ GOVERNMENT_EQUITY_OR_GRANT)
           && (test LARGE_DOLLARS x || test SCALE x)
        then by_set by_ OTHER (orDefault 0 (by_get by_ OTHER) + 2)
        else by_ in
      let total := fold_left (fun a b => a + b) (map snd by_) 0 in
      let strongCatalyst :=
        (8 <=? orDefault 0 (by_get by_ ACQUISITION_BUYOUT))
        || (8 <=? orDefault 0 (by_get by_ FDA_MARKETING_AUTH))
        || (8 <=? orDefault 0 (by_get by_ PIVOTAL_TRIAL_SUCCESS))
        || (8 <=? orDefault 0 (by_get by_ MAJOR_GOV_CONTRACT))
        || (7 <=? orDefault 0 (by_get by_ RESTRUCTURING_OR_FINANCING))
        || (6 <=? orDefault 0 (by_get by_ UPLISTING_TO_NASDAQ)) in
      if (total <=? 0) && negb strongCatalyst then (OTHER, 0)
      else
        match sortDescending by_ with
        | top :: _ => (fst top, snd top)
        | [] => (OTHER, 0)
        end
  end.

(** The text [classifyOne] works on: normalized title, a line feed,
    normalized summary. *)
Definition textOf (it : RawItem.t) : jsstring :=
  normalize (orEmpty (RawItem.title it)) ++ [10%N]
  ++ normalize (orEmpty (RawItem.summary it)).

(** [classifyOne(it)]: the hard guards, in their order, then the
    positive rules. *)
Definition classifyOne (it : RawItem.t) : HighImpactEvent * float :=
  let title := normalize (orEmpty (RawItem.title it)) in
  let body := normalize (orEmpty (RawItem.summary it)) in
  let x := title ++ [10%N] ++ body in
  let url := RawItem.url it in
  if test PAT.securityIncidentUpdate x then (OTHER, 0)
  else if test PAT.awardsPR x then (OTHER, 0)
  else if (test PAT.proxyAdvisor x || test PAT.voteAdminOnly x)
          && negb (test PAT.mnaBinding x) then (OTHER, 0)
  else if test PAT.investorConfs x then (OTHER, 0)
  else if test PAT.lawFirmPR x then (OTHER, 0)
  else if test PAT.shelfOrATM x then (OTHER, 0)
  else if test PAT.analystMedia x then (OTHER, 0)
  else if test PAT.typoErratum x then (OTHER, 0)
  else if test PAT.plainDilution x && negb (test PREMIUM_OR_STRATEGIC x)
       then (OTHER, 0.1)
  else
    let isPR := isWirePR hostname url x in
    selectEvent x (positiveHits x isPR).

(** [classify(items)] *)
Definition classify (items : list RawItem.t) : list ClassifiedItem.t :=
  map (fun it =>
         let '(event, score) := classifyOne it in
         ClassifiedItem.mk it event score)
      items.

End WithURL.

End Classify.

(** ** pipeline/score.ts: the impact scorer *)

Module Score.
Import JS Str RegExp.

(** Baseline impact by classified event. *)
Definition BASELINE (k : HighImpactEvent) : float :=
  match k with
  | PIVOTAL_TRIAL_SUCCESS => 0.72
  | FDA_MARKETING_AUTH => 0.7
  | FDA_ADCOM_POSITIVE => 0.66
  | REGULATORY_DESIGNATION => 0.54
  | TIER1_PARTNERSHIP => 0.6
  | MAJOR_GOV_CONTRACT => 0.6
  | GOVERNMENT_EQUITY_OR_GRANT => 0.58
  | ACQUISITION_BUYOUT => 0.64
  | IPO_DEBUT_POP => 0.55
  | COURT_WIN_INJUNCTION => 0.56
  | MEME_OR_INFLUENCER => 0.5
  | RESTRUCTURING_OR_FINANCING => 0.5
  | POLICY_OR_POLITICS_TAILWIND => 0.44
  | EARNINGS_BEAT_OR_GUIDE_UP => 0.52
  | INDEX_INCLUSION => 0.5
  | UPLISTING_TO_NASDAQ => 0.46
  | OTHER => 0.2
  end%float.

Definition LARGE_DOLLAR_AMOUNT : RegExp.t :=
  regex "\$?\s?(?:\d{2,4})\s*(?:million|billion)\b" "i".
Definition SUPERLATIVE_WORDS : RegExp.t :=
  regex "\b(record|unprecedented|all-time|exclusive|breakthrough|pivotal)\b" "i".
Definition BIG_MOVE_WORDS : RegExp.t :=
  regex "\b(double|doubled|triple|tripled)\b" "i".
Definition RX_PROXY_ADVISOR : RegExp.t :=
  regex "\b(ISS|Institutional Shareholder Services|Glass Lewis)\b.*\b(recommend(s|ed)?|support(s|ed)?)\b.*\b(vote|proposal|deal|merger)\b" "i".
Definition RX_VOTE_ADMIN_ONLY : RegExp.t :=
  regex "\b(definitive proxy|proxy (statement|materials)|special meeting|annual meeting|extraordinary general meeting|EGM|shareholder vote|record date)\b" "i".
Definition RX_LAWFIRM : RegExp.t :=
  regex "\b(class action|securities class action|investor (?:lawsuit|alert|reminder)|deadline alert|shareholder rights law firm|securities litigation|investigat(?:ion|ing)|Hagens Berman|Pomerantz|Rosen Law Firm|Glancy Prongay|Bronstein[, ]+Gewirtz|Kahn Swick|Saxena White|Kessler Topaz|Levi & Korsinsky)\b" "i".
Definition RX_SECURITY_UPDATE : RegExp.t :=
  regex "\b(cyber(?:security)?|security|ransomware|data (?:breach|exposure)|cyber[- ]?attack)\b.*\b(update|updated|provid(?:e|es)d? an? update)\b" "i".
Definition RX_INVESTOR_CONFS : RegExp.t :=
  regex "\b(participat(e|es|ing)|to participate|will participate)\b.*\b(investor (?:conference|conferences)|conference|fireside chat|non-deal roadshow)\b" "i".
Definition RX_AWARDS : RegExp.t :=
  regex "\b(award|awards|winner|wins|finalist|recipient|honoree|recognized|recognition|named (?:as|to) (?:the )?(?:list|index|ranking)|anniversary|celebrat(es|ing|ion)|Respect the Drive)\b" "i".
Definition RX_FIN_RESULTS : RegExp.t :=
  regex "\b(financial results|first quarter|second quarter|third quarter|fourth quarter|first half|second half|H1|H2|fiscal (?:Q\d|year) results)\b" "i".
Definition RX_EARNINGS_BEAT : RegExp.t :=
  regex "\b(raises?|increas(?:es|ed)|hikes?)\b.*\b(guidance|outlook|forecast)\b|\b(beat[s]?)\b.*\b(consensus|estimates|Street|expectations)\b" "i".
Definition RX_PIVOTAL : RegExp.t :=
  regex "\b(phase\s*(iii|3)|late-?stage|pivotal|registrational)\b" "i".
Definition RX_MID_STAGE_WIN : RegExp.t :=
  regex "\b(phase\s*(ii|2)|mid[- ]stage)\b.*\b(win|successful|success|met|achieved|statistically significant|primary endpoint)\b" "i".
Definition RX_TOPLINE_STRONG : RegExp.t :=
  regex "\b(top-?line|primary endpoint (met|achieved)|statistically significant|p<\s*0?\.\d+)\b" "i".
Definition RX_CE_MARK : RegExp.t :=
  regex "\b(CE[- ]mark|CE[- ]marking|CE[- ]certificate)\b.*\b(approval|approved|granted|obtained)\b" "i".
Definition RX_510K : RegExp.t :=
  regex "\b(FDA)\b.*\b(510\(k\)|510k)\b.*\b(clearance|clears?)\b" "i".
Definition RX_SUPPLEMENTAL : RegExp.t :=
  regex "\b(expanded indication|label (expansion|extension)|supplemental (s?NDA|s?BLA)|sNDA|sBLA)\b" "i".
Definition RX_REG_PROCESS : RegExp.t :=
  regex "\b(Type\s*(A|B|C)\s*meeting|End of Phase\s*(2|II)|EOP2|pre[- ](IND|NDA|BLA)|meeting (minutes|with FDA))\b" "i".
Definition RX_JOURNAL : RegExp.t :=
  regex "\b(published (in|on)|publication (in|on))\b.*\b(NEJM|New England Journal of Medicine|Lancet|JAMA|Nature|Science)\b" "i".
Definition RX_CONFERENCE : RegExp.t :=
  regex "\b(presents?|presented|to present|poster|abstract|oral presentation)\b.*\b(conference|congress|symposium|meeting)\b" "i".
Definition RX_MNA_DEFINITIVE : RegExp.t :=
  regex "\b(definitive (merger|agreement|deal)|merger agreement (executed|signed)|entered into (a )?definitive (agreement|merger))\b" "i".
Definition RX_MNA_WILL_ACQUIRE : RegExp.t :=
  regex "\b(will|to)\s+acquire\b|\bto be acquired\b" "i".
Definition RX_MNA_PERPRICE : RegExp.t :=
  regex "\$\s?\d+(?:\.\d+)?\s*(?:per|\/)\s*share\b|(?:deal|transaction|enterprise|equity)\s+value(?:d)?\s+at\s+\$?\d+(?:\.\d+)?\s*(?:million|billion)\b" "i".
Definition RX_MNA_TENDER : RegExp.t :=
  regex "\b(tender offer|exchange offer|commence(s|d)? (an )?offer)\b" "i".
Definition RX_MNA_REVISED : RegExp.t :=
  regex "\b(revise[sd]?|increase[sd]?|raise[sd]?|sweeten(?:s|ed)?)\b.*\b(offer|bid|proposal|consideration|purchase price)\b" "i".
Definition RX_MNA_CASHSTOCK : RegExp.t :=
  regex "\b(cash[- ]and[- ]stock|cash\s*(?:&|and|\/)\s*stock)\b" "i".
Definition RX_MNA_LOI_ANY : RegExp.t :=
  regex "\b(letter of intent|LOI|non[- ]binding|indicative)\b" "i".
Definition RX_MNA_ADMIN : RegExp.t :=
  regex "\b(extend(s|ed|ing)?|extension)\b.*\b(expiration|expiry)\b.*\b(tender offer|offer)\b" "i".
Definition RX_ASSET_SALE : RegExp.t :=
  regex "\b(sell(?:s|ing)?|divest(?:s|iture|ing)|dispos(?:e|al))\b.*\b(stake|interest|asset|assets|business|subsidiary|equity position)\b" "i".
Definition RX_PROPERTY_ACQ : RegExp.t :=
  regex "\b(acquires?|acquisition of)\b.*\b(property|properties|facility|facilities|building|real estate|inpatient rehabilitation facility|IRF)\b" "i".
Definition RX_SHELF_ATM : RegExp.t :=
  regex "\b(Form\s*S-3|shelf registration|universal shelf|at[- ]the[- ]market|ATM (program|facility))\b" "i".
Definition RX_FINANCING_DILUTIVE : RegExp.t :=
  regex "\b(securities purchase agreement|SPA|registered direct|PIPE|private placement|warrants?|convertible (notes?|debentures?|securities?)|at[- ]the[- ]market|ATM (offering|program|facility)?|equity (offering|raise)|unit (offering|financing)|pricing of (an )?offering)\b" "i".
Definition RX_FINANCING_PREMIUM : RegExp.t :=
  regex "\b(premium|above[- ]market|priced at)\b.*\$\d+(?:\.\d+)?" "i".
Definition RX_FINANCING_STRATEGIC : RegExp.t :=
  regex "\b(strategic (investment|investor|partner|partnership|financing))\b" "i".
Definition RX_FINANCING_GOING : RegExp.t :=
  regex "\b(going[- ]concern (removed|resolved)|debt (extinguished|retired|repaid|eliminated|paid (down|off))|default (cured|resolved))\b" "i".
Definition RX_ANTI_DILUTION_POS : RegExp.t :=
  regex "\b(terminates?|terminated|withdraws?|withdrawn|cancels?|cancelled|reduces?|downsized?)\b.*\b(offering|registered direct|ATM|at[- ]the[- ]market|public offering|securities purchase agreement)\b" "i".
Definition RX_CRYPTO_TREASURY_BUY : RegExp.t :=
  regex "\b(buy|bought|purchase[sd]?|acquire[sd]?)\b.*\b(Bitcoin|BTC|Ethereum|ETH|Solana|SOL|LINK|Chainlink|crypto(?:currency)?|tokens?)\b" "i".
Definition RX_CRYPTO_TREASURY_DISCUSS : RegExp.t :=
  regex "\b(treasury|reserve|policy|program|strategy)\b.*\b(discuss(?:ions?)?|approached|proposal|term sheet|non[- ]binding|indicative)\b.*\b(\$?\d+(?:\.\d+)?\s*(?:million|billion))\b" "i".
Definition RX_INDEX_MAJOR : RegExp.t :=
  regex "\b(S&P\s?(500|400|600)|MSCI|FTSE|Nasdaq[- ]?100)\b" "i".
Definition RX_INDEX_MINOR : RegExp.t :=
  regex "\b(Russell\s?(2000|3000)|S&P\/?TSX Composite|TSX Composite|TSX Venture|TSXV|CSE Composite)\b" "i".
Definition RX_ANALYST : RegExp.t :=
  regex "\b(initiates?|reiterates?|maintains?|upgrades?|downgrades?)\b.*\b(coverage|rating|price target|pt|target)\b" "i".
Definition RX_MEDIA_INTERVIEW : RegExp.t :=
  regex "\b(says|tells|told|said)\b.*\b(CNBC|Yahoo Finance|Bloomberg|Fox Business|Barron'?s)\b" "i".
Definition RX_BUYBACK_DIV : RegExp.t :=
  regex "\b(share repurchase|buyback|dividend (declaration|increase|initiation))\b" "i".
Definition RX_STRAT_ALTS : RegExp.t :=
  regex "\b(strategic alternatives?|exploring (alternatives|options)|review of strategic alternatives|considering strategic alternatives)\b" "i".
Definition RX_TIER1_VERBS : RegExp.t :=
  regex "\b(powered by|built (?:on|with)|integrat(?:es|ed)? with|adopt(?:s|ed)|selects?|standardiz(?:es|ed) on|deploys?|rolls out)\b" "i".
Definition RX_LISTING_COMPLIANCE : RegExp.t :=
  regex "\b(regain(?:ed|s)?|returns? to|back in)\b.*\b(compliance)\b.*\b(Nasdaq|NYSE|listing)\b" "i".
Definition RX_PRECLIN_NHP : RegExp.t :=
  regex "\b(non[- ]?human|nonhuman)\s+primate[s]?\b.*\b(well tolerated|tolerability|safety|safe)\b.*\b(higher than|exceed(?:s|ed)|above)\b.*\b(efficacious|effective)\b" "i".
Definition RX_CELL_MODEL : RegExp.t :=
  regex "\b(patient[- ]derived|iPSC|neurons?|organoid[s]?)\b.*\b(early (signals?|evidence) of (benefit|efficacy)|signal(?:s)? of (benefit|efficacy)|improv(?:e|ed)|rescue)\b" "i".
Definition RX_HOT_DISEASE : RegExp.t :=
  regex "\b(Alzheimer'?s|ALS|Parkinson'?s|Huntington'?s|multiple sclerosis|MS\b|glioblastoma|GBM|pancreatic cancer)\b" "i".
Definition RX_SPECIAL_DIVIDEND : RegExp.t :=
  regex "\b(special (cash )?dividend)\b.*\$\s?\d+(?:\.\d+)?\s*(?:per|\/)\s*share|\b(special (cash )?dividend of)\s*\$\s?\d+(?:\.\d+)?\b" "i".
Definition RX_MISINFO : RegExp.t :=
  regex "\b(misinformation|unauthorized (press )?release|retracts? (?:a )?press release|clarif(?:y|ies) misinformation)\b" "i".

Definition TIER1_RX : RegExp.t :=
  regex "\b(?:Nvidia|Microsoft|OpenAI|Apple|Amazon|AWS|Google|Alphabet|Meta|Facebook|Tesla|Oracle|Salesforce|Adobe|IBM|Intel|AMD|Broadcom|Qualcomm|TSMC|Samsung|Cisco|Dell|HPE|Supermicro|Snowflake|Palantir|Siemens|Sony|Workday|ServiceNow|Shopify|Twilio|Atlassian|Zoom|Datadog|CrowdStrike|Okta|MongoDB|Cloudflare|Stripe|Block|Square|Walmart|Target|Costco|Home Depot|Lowe's|Best Buy|Alibaba|Tencent|JD.com|ByteDance|TikTok|Lockheed Martin|Raytheon|RTX|Boeing|Northrop Grumman|General Dynamics|L3Harris|BAE Systems|Thales|Airbus|SpaceX|NASA|Space Force|USSF|DARPA|Department of Defense|DoD|Army|Navy|Air Force|Pfizer|Merck|Johnson & Johnson|J&J|Bristol-Myers|BMS|Eli Lilly|Lilly|Sanofi|GSK|AstraZeneca|Novo Nordisk|Roche|Novartis|Bayer|Amgen|AbbVie|Takeda|Gilead|Biogen|Regeneron|Medtronic|Boston Scientific|Abbott|GE Healthcare|Philips|Siemens Healthineers|Intuitive Surgical|BARDA|HHS|NIH|CMS|Medicare|VA|FDA|EMA|EC|MHRA|PMDA|ExxonMobil|Chevron|BP|Shell|TotalEnergies|Schlumberger|Halliburton|Caterpillar|Deere|GE|Honeywell)(?:'s)?\b" "i".

(** The patterns written in place in [score]. *)
Definition RX_PLAIN_DILUTIVE : RegExp.t :=
  regex "\b(securities purchase agreement|SPA|registered direct|PIPE|private placement|unit (offering|financing)|equity (offering|raise)|convertible (note|debenture|security)|warrants?)\b" "i".
Definition RX_GOV_FOLLOW_ON : RegExp.t :=
  regex "\b(continued production|follow[- ]on|followon|option (exercise|exercised)|extension|renewal)\b" "i".
Definition RX_PCT : RegExp.t :=
  regex "\b(revenue|sales|eps|earnings|arr|bookings|net income)\b[^.%]{0,90}?\b(up|increase[sd]?|grow[n|th|s]?|jump(?:ed)?|soar(?:ed)?|surged)\b[^%]{0,25}?(\d{2,3})\s?%(\s*(y\/y|yoy|year[- ]over[- ]year|q\/q|qoq))?" "i".
Definition RX_SWING_PROFIT : RegExp.t :=
  regex "\b(returns?|returned|swing|swung|back)\s+to\s+(profit|profitability|positive (?:net )?income)\b" "i".

Definition WIRE_HOSTS : list jsstring :=
  [ lit "www.prnewswire.com"; lit "www.globenewswire.com";
    lit "www.businesswire.com"; lit "www.accesswire.com";
    lit "www.newsfilecorp.com" ].

Definition WIRE_TOKENS : list jsstring :=
  [ lit "PR Newswire"; lit "GlobeNewswire"; lit "Business Wire";
    lit "ACCESSWIRE"; lit "Newsfile" ].

Definition IR_HOST : RegExp.t := regex "^(ir|investors)\." "i".

(** The text [score] reads: title, a space, summary. *)
Definition blobOf (it : ClassifiedItem.t) : jsstring :=
  orEmpty (RawItem.title (ClassifiedItem.item it)) ++ [32%N]
  ++ orEmpty (RawItem.summary (ClassifiedItem.item it)).

(** The number of symbols of the item, 0 when it has no list. *)
Definition symbolCount (it : ClassifiedItem.t) : nat :=
  match RawItem.symbols (ClassifiedItem.item it) with
  | Some l => List.length l
  | None => O
  end.

Local Open Scope float_scope.

Section WithURL.
(** [new URL(url).hostname] of the runtime; [None] when the constructor
    throws. *)
Variable hostname : jsstring -> option jsstring.

Definition isWirePR (url : option jsstring) (text : jsstring) : bool :=
  let t := toLowerCase text in
  let tokens := existsb (fun tok => includes t (toLowerCase tok)) WIRE_TOKENS in
  match url with
  | Some (c :: u) =>
      match hostname (c :: u) with
      | Some h =>
          let host := toLowerCase h in
          if existsb (Str.eqb host) WIRE_HOSTS then true
          else if test IR_HOST host then true
          else tokens
      | None => tokens
      end
  | _ => tokens
  end.

(** The body of the callback of [score]: the score of one item, from the
    five things it reads of the item. *)
Definition scoreOf (klass : HighImpactEvent) (blob : jsstring)
    (url : option jsstring) (marketCap : option float)
    (symbolCount : nat) : float :=
  let isWire := isWirePR url blob in
  (* 0) Hard suppress misinformation *)
  if test RX_MISINFO blob then 0
  else
  (* 1) Baseline *)
  let s := BASELINE klass in
  (* 2) Early caps for frequent non-catalysts *)
  let s := if test RX_PROXY_ADVISOR blob || test RX_VOTE_ADMIN_ONLY blob
           then Math_min s 0.2 else s in
  let s := if test RX_LAWFIRM blob then Math_min s 0.12 else s in
  let s := if test RX_AWARDS blob then Math_min s 0.18 else s in
  let s := if test RX_SECURITY_UPDATE blob then Math_min s 0.16 else s in
  let s := if test RX_INVESTOR_CONFS blob then Math_min s 0.16 else s in
  let s := if test RX_ANALYST blob || test RX_MEDIA_INTERVIEW blob
           then Math_min s 0.16 else s in
  let s := if test RX_SHELF_ATM blob then Math_min s 0.18 else s in
  let isSpecialDividend := test RX_SPECIAL_DIVIDEND blob in
  let s := if negb isSpecialDividend && test RX_BUYBACK_DIV blob
           then Math_min s 0.2 else s in
  let s := if test RX_STRAT_ALTS blob then Math_min s 0.3 else s in
  (* 3) Dilutive financing suppression *)
  let isPlainDilutive :=
    test RX_PLAIN_DILUTIVE blob
    && negb (test RX_FINANCING_PREMIUM blob
             || test RX_FINANCING_STRATEGIC blob
             || test RX_FINANCING_GOING blob) in
  let s := if isPlainDilutive then Math_min s 0.18 else s in
  (* 4) Bio nuance *)
  let s :=
    if bool_decide (klass = PIVOTAL_TRIAL_SUCCESS) then
      let s := if test RX_PIVOTAL blob then s + 0.05
               else if test RX_MID_STAGE_WIN blob then s + 0.05 else s in
      let s := if negb (test RX_TOPLINE_STRONG blob) then s - 0.05 else s in
      let s := if test RX_PRECLIN_NHP blob then s + 0.06 else s in
      let s := if test RX_CELL_MODEL blob
               then s + (if test RX_HOT_DISEASE blob then 0.06 else 0.04) else s in
      let journalStrong := test RX_JOURNAL blob && test RX_TOPLINE_STRONG blob in
      if journalStrong then s + 0.04 else s
    else s in
  (* 5) Approvals split *)
  let s :=
    if bool_decide (klass = FDA_MARKETING_AUTH) then
      let s := if test RX_CE_MARK blob then Math_min s 0.46 else s in
      let s := if test RX_510K blob then Math_min s 0.46 else s in
      if test RX_SUPPLEMENTAL blob then Math_min s 0.58 else s
    else s in
  (* 6) Process/journal/conference guards *)
  let hasStrongOutcome :=
    test RX_TOPLINE_STRONG blob || test RX_PIVOTAL blob
    || test RX_MID_STAGE_WIN blob in
  let s :=
    if negb hasStrongOutcome then
      let s := if test RX_REG_PROCESS blob then Math_min s 0.42 else s in
      let s := if test RX_JOURNAL blob then Math_min s 0.42 else s in
      if test RX_CONFERENCE blob then Math_min s 0.38 else s
    else s in
  (* 7) M&A specifics *)
  let s :=
    if bool_decide (klass = ACQUISITION_BUYOUT) then
      let definitive :=
        test RX_MNA_DEFINITIVE blob
        || (test RX_MNA_WILL_ACQUIRE blob && test RX_MNA_PERPRICE blob) in
      let s := if definitive then s + 0.06 else s in
      let s := if test RX_MNA_TENDER blob then s + 0.04 else s in
      let s := if test RX_MNA_REVISED blob then s + 0.06 else s in
      let s := if test RX_MNA_CASHSTOCK blob then s + 0.02 else s in
      let s := if test RX_MNA_PERPRICE blob then s + 0.02 else s in
      let s := if test RX_MNA_LOI_ANY blob then s - 0.06 else s in
      let s := if test RX_MNA_ADMIN blob then Math_min s 0.4 else s in
      if test RX_ASSET_SALE blob || test RX_PROPERTY_ACQ blob
      then Math_min s 0.4 else s
    else s in
  (* 8) Gov contracts: routine follow-on cap *)
  let s := if bool_decide (klass = MAJOR_GOV_CONTRACT) && test RX_GOV_FOLLOW_ON blob
           then Math_min s 0.48 else s in
  (* 9) Index inclusion: major vs minor *)
  let s :=
    if bool_decide (klass = INDEX_INCLUSION) then
      let s := if test RX_INDEX_MAJOR blob then s + 0.04 else s in
      if test RX_INDEX_MINOR blob then Math_min s 0.4 else s
    else s in
  (* 10) Wire presence modulation *)
  let label := klass in
  let wireSensitive :=
    bool_decide (label = PIVOTAL_TRIAL_SUCCESS)
    || bool_decide (label = FDA_MARKETING_AUTH)
    || bool_decide (label = FDA_ADCOM_POSITIVE)
    || bool_decide (label = TIER1_PARTNERSHIP)
    || bool_decide (label = MAJOR_GOV_CONTRACT)
    || bool_decide (label = GOVERNMENT_EQUITY_OR_GRANT)
    || bool_decide (label = ACQUISITION_BUYOUT)
    || bool_decide (label = EARNINGS_BEAT_OR_GUIDE_UP)
    || bool_decide (label = INDEX_INCLUSION)
    || bool_decide (label = UPLISTING_TO_NASDAQ) in
  let tier1Powered := test TIER1_RX blob && test RX_TIER1_VERBS blob in
  let s :=
    if wireSensitive then
      let definitiveMnaOffWire :=
        bool_decide (label = ACQUISITION_BUYOUT) && negb isWire
        && (test RX_MNA_DEFINITIVE blob
            || (test RX_MNA_WILL_ACQUIRE blob && test RX_MNA_PERPRICE blob)) in
      if negb (definitiveMnaOffWire || tier1Powered) then
        if isWire then s + 0.04 else Math_min s 0.48
      else s
    else s in
  (* 11) Crypto treasury *)
  let isCryptoBuy := test RX_CRYPTO_TREASURY_BUY blob in
  let isCryptoDiscuss := test RX_CRYPTO_TREASURY_DISCUSS blob in
  let s :=
    if bool_decide (label = RESTRUCTURING_OR_FINANCING) || isCryptoBuy
       || isCryptoDiscuss then
      let s := if isCryptoBuy then s + 0.14 else s in
      let s := if isCryptoDiscuss then s + 0.1 else s in
      if test LARGE_DOLLAR_AMOUNT blob then s + 0.04 else s
    else s in
  (* 12) Generic results cap unless beat/raise or strong exceptions *)
  let hasBigPct :=
    match matchGroup RX_PCT blob 3 with
    | Some (c :: g3) =>
        match parseInt10 (c :: g3) with
        | Some pct => (50 <=? pct)%Z
        | None => false
        end
    | _ => false
    end in
  let swingProfit := test RX_SWING_PROFIT blob in
  let s :=
    if test RX_FIN_RESULTS blob && negb (test RX_EARNINGS_BEAT blob) then
      if hasBigPct || swingProfit then s + (if swingProfit then 0.1 else 0.08)
      else Math_min s 0.32
    else s in
  (* 13) Positive financing exception *)
  let s := if test RX_ANTI_DILUTION_POS blob then s + 0.12 else s in
  (* 14) Listing compliance regained *)
  let s := if test RX_LISTING_COMPLIANCE blob then s + 0.12 else s in
  (* 15) Special cash dividend *)
  let s := if isSpecialDividend then s + 0.14 else s in
  (* 16) Generic boosters *)
  let isSmallCap :=
    (0 <? orDefault 0 marketCap) && (orDefault 0 marketCap <? 1000000000) in
  let s := if isSmallCap then s + 0.14 else s in
  let s := if test SUPERLATIVE_WORDS blob then s + 0.04 else s in
  let s := if test LARGE_DOLLAR_AMOUNT blob then s + 0.06 else s in
  let s := if test BIG_MOVE_WORDS blob then s + 0.06 else s in
  let s := if Nat.eqb symbolCount 1 then s + 0.03 else s in
  (* Bound [0,1] *)
  Math_max 0 (Math_min 1 s).

(** One step of the map of [score]: the item with its score replaced. *)
Definition scoreOne (it : ClassifiedItem.t) : ClassifiedItem.t :=
  let s := scoreOf (ClassifiedItem.klass it) (blobOf it)
             (RawItem.url (ClassifiedItem.item it))
             (RawItem.marketCap (ClassifiedItem.item it))
             (symbolCount it) in
  ClassifiedItem.mk (ClassifiedItem.item it) (ClassifiedItem.klass it) s.

(** [score(items)] *)
Definition score (items : list ClassifiedItem.t) : list ClassifiedItem.t :=
  map scoreOne items.

End WithURL.

End Score.

(** ** pipeline/score.ts: the body of [score], section by section *)

(** The statements of the callback of [score] between two of its numbered
    comments, each as a function from the running score [s] to the
    running score after them; [scoreOf] below runs them in the order of
    the source.  These are the statements of [Score.scoreOf], in pieces
    that can be reasoned about one at a time. *)
Module ScoreSections.
Import JS Str RegExp Score.
Local Open Scope float_scope.

(** 2) Early caps for frequent non-catalysts *)
Definition earlyCaps (blob : jsstring) (s : float) : float :=
  let s := if test RX_PROXY_ADVISOR blob || test RX_VOTE_ADMIN_ONLY blob
           then Math_min s 0.2 else s in
  let s := if test RX_LAWFIRM blob then Math_min s 0.12 else s in
  let s := if test RX_AWARDS blob then Math_min s 0.18 else s in
  let s := if test RX_SECURITY_UPDATE blob then Math_min s 0.16 else s in
  let s := if test RX_INVESTOR_CONFS blob then Math_min s 0.16 else s in
  let s := if test RX_ANALYST blob || test RX_MEDIA_INTERVIEW blob
           then Math_min s 0.16 else s in
  let s := if test RX_SHELF_ATM blob then Math_min s 0.18 else s in
  let isSpecialDividend := test RX_SPECIAL_DIVIDEND blob in
  let s := if negb isSpecialDividend && test RX_BUYBACK_DIV blob
           then Math_min s 0.2 else s in
  if test RX_STRAT_ALTS blob then Math_min s 0.3 else s.

(** 3) Dilutive financing suppression *)
Definition dilutiveFinancing (blob : jsstring) (s : float) : float :=
  let isPlainDilutive :=
    test RX_PLAIN_DILUTIVE blob
    && negb (test RX_FINANCING_PREMIUM blob
             || test RX_FINANCING_STRATEGIC blob
             || test RX_FINANCING_GOING blob) in
  if isPlainDilutive then Math_min s 0.18 else s.

(** 4) Bio nuance *)
Definition bioNuance (klass : HighImpactEvent) (blob : jsstring) (s : float) : float :=
  if bool_decide (klass = PIVOTAL_TRIAL_SUCCESS) then
    let s := if test RX_PIVOTAL blob then s + 0.05
             else if test RX_MID_STAGE_WIN blob then s + 0.05 else s in
    let s := if negb (test RX_TOPLINE_STRONG blob) then s - 0.05 else s in
    let s := if test RX_PRECLIN_NHP blob then s + 0.06 else s in
    let s := if test RX_CELL_MODEL blob
             then s + (if test RX_HOT_DISEASE blob then 0.06 else 0.04) else s in
    let journalStrong := test RX_JOURNAL blob && test RX_TOPLINE_STRONG blob in
    if journalStrong then s + 0.04 else s
  else s.

(** 5) Approvals split *)
Definition approvalsSplit (klass : HighImpactEvent) (blob : jsstring) (s : float) : float :=
  if bool_decide (klass = FDA_MARKETING_AUTH) then
    let s := if test RX_CE_MARK blob then Math_min s 0.46 else s in
    let s := if test RX_510K blob then Math_min s 0.46 else s in
    if test RX_SUPPLEMENTAL blob then Math_min s 0.58 else s
  else s.

(** 6) Process, journal and conference guards *)
Definition processGuards (blob : jsstring) (s : float) : float :=
  let hasStrongOutcome :=
    test RX_TOPLINE_STRONG blob || test RX_PIVOTAL blob
    || test RX_MID_STAGE_WIN blob in
  if negb hasStrongOutcome then
    let s := if test RX_REG_PROCESS blob then Math_min s 0.42 else s in
    let s := if test RX_JOURNAL blob then Math_min s 0.42 else s in
    if test RX_CONFERENCE blob then Math_min s 0.38 else s
  else s.

(** 7) M&A specifics *)
Definition mnaSpecifics (klass : HighImpactEvent) (blob : jsstring) (s : float) : float :=
  if bool_decide (klass = ACQUISITION_BUYOUT) then
    let definitive :=
      test RX_MNA_DEFINITIVE blob
      || (test RX_MNA_WILL_ACQUIRE blob && test RX_MNA_PERPRICE blob) in
    let s := if definitive then s + 0.06 else s in
    let s := if test RX_MNA_TENDER blob then s + 0.04 else s in
    let s := if test RX_MNA_REVISED blob then s + 0.06 else s in
    let s := if test RX_MNA_CASHSTOCK blob then s + 0.02 else s in
    let s := if test RX_MNA_PERPRICE blob then s + 0.02 else s in
    let s := if test RX_MNA_LOI_ANY blob then s - 0.06 else s in
    let s := if test RX_MNA_ADMIN blob then Math_min s 0.4 else s in
    if test RX_ASSET_SALE blob || test RX_PROPERTY_ACQ blob
    then Math_min s 0.4 else s
  else s.

(** 8) Government contracts: routine follow-on cap *)
Definition govFollowOn (klass : HighImpactEvent) (blob : jsstring) (s : float) : float :=
  if bool_decide (klass = MAJOR_GOV_CONTRACT) && test RX_GOV_FOLLOW_ON blob
  then Math_min s 0.48 else s.

(** 9) Index inclusion: major and minor *)
Definition indexInclusion (klass : HighImpactEvent) (blob : jsstring) (s : float) : float :=
  if bool_decide (klass = INDEX_INCLUSION) then
    let s := if test RX_INDEX_MAJOR blob then s + 0.04 else s in
    if test RX_INDEX_MINOR blob then Math_min s 0.4 else s
  else s.

(** 10) Wire presence modulation *)
Definition wireModulation (label : HighImpactEvent) (blob : jsstring) (isWire : bool)
    (s : float) : float :=
  let wireSensitive :=
    bool_decide (label = PIVOTAL_TRIAL_SUCCESS)
    || bool_decide (label = FDA_MARKETING_AUTH)
    || bool_decide (label = FDA_ADCOM_POSITIVE)
    || bool_decide (label = TIER1_PARTNERSHIP)
    || bool_decide (label = MAJOR_GOV_CONTRACT)
    || bool_decide (label = GOVERNMENT_EQUITY_OR_GRANT)
    || bool_decide (label = ACQUISITION_BUYOUT)
    || bool_decide (label = EARNINGS_BEAT_OR_GUIDE_UP)
    || bool_decide (label = INDEX_INCLUSION)
    || bool_decide (label = UPLISTING_TO_NASDAQ) in
  let tier1Powered := test TIER1_RX blob && test RX_TIER1_VERBS blob in
  if wireSensitive then
    let definitiveMnaOffWire :=
      bool_decide (label = ACQUISITION_BUYOUT) && negb isWire
      && (test RX_MNA_DEFINITIVE blob
          || (test RX_MNA_WILL_ACQUIRE blob && test RX_MNA_PERPRICE blob)) in
    if negb (definitiveMnaOffWire || tier1Powered) then
      if isWire then s + 0.04 else Math_min s 0.48
    else s
  else s.

(** 11) Crypto treasury *)
Definition cryptoTreasury (label : HighImpactEvent) (blob : jsstring) (s : float) : float :=
  let isCryptoBuy := test RX_CRYPTO_TREASURY_BUY blob in
  let isCryptoDiscuss := test RX_CRYPTO_TREASURY_DISCUSS blob in
  if bool_decide (label = RESTRUCTURING_OR_FINANCING) || isCryptoBuy
     || isCryptoDiscuss then
    let s := if isCryptoBuy then s + 0.14 else s in
    let s := if isCryptoDiscuss then s + 0.1 else s in
    if test LARGE_DOLLAR_AMOUNT blob then s + 0.04 else s
  else s.

(** 12) Generic results cap *)
Definition genericResults (blob : jsstring) (s : float) : float :=
  let hasBigPct :=
    match matchGroup RX_PCT blob 3 with
    | Some (c :: g3) =>
        match parseInt10 (c :: g3) with
        | Some pct => (50 <=? pct)%Z
        | None => false
        end
    | _ => false
    end in
  let swingProfit := test RX_SWING_PROFIT blob in
  if test RX_FIN_RESULTS blob && negb (test RX_EARNINGS_BEAT blob) then
    if hasBigPct || swingProfit then s + (if swingProfit then 0.1 else 0.08)
    else Math_min s 0.32
  else s.

(** 13) to 15) Positive financing exception, listing compliance
    regained, special cash dividend *)
Definition positiveExceptions (blob : jsstring) (s : float) : float :=
  let s := if test RX_ANTI_DILUTION_POS blob then s + 0.12 else s in
  let s := if test RX_LISTING_COMPLIANCE blob then s + 0.12 else s in
  let isSpecialDividend := test RX_SPECIAL_DIVIDEND blob in
  if isSpecialDividend then s + 0.14 else s.

(** 16) Generic boosters *)
Definition boosters (blob : jsstring) (marketCap : option float) (symbolCount : nat)
    (s : float) : float :=
  let isSmallCap :=
    (0 <? orDefault 0 marketCap) && (orDefault 0 marketCap <? 1000000000) in
  let s := if isSmallCap then s + 0.14 else s in
  let s := if test SUPERLATIVE_WORDS blob then s + 0.04 else s in
  let s := if test LARGE_DOLLAR_AMOUNT blob then s + 0.06 else s in
  let s := if test BIG_MOVE_WORDS blob then s + 0.06 else s in
  if Nat.eqb symbolCount 1 then s + 0.03 else s.

(** Sections 1) to 16): the running score before the final bound. *)
Definition unbounded (klass : HighImpactEvent) (blob : jsstring) (isWire : bool)
    (marketCap : option float) (symbolCount : nat) : float :=
  boosters blob marketCap symbolCount
    (positiveExceptions blob
       (genericResults blob
          (cryptoTreasury klass blob
             (wireModulation klass blob isWire
                (indexInclusion klass blob
                   (govFollowOn klass blob
                      (mnaSpecifics klass blob
                         (processGuards blob
                            (approvalsSplit klass blob
                               (bioNuance klass blob
                                  (dilutiveFinancing blob
                                     (earlyCaps blob (BASELINE klass))))))))))))).

Section WithURL.
Variable hostname : jsstring -> option jsstring.

(** The score of one item: section 0), sections 1) to 16), the bound. *)
Definition scoreOf (klass : HighImpactEvent) (blob : jsstring)
    (url : option jsstring) (marketCap : option float)
    (symbolCount : nat) : float :=
  if test RX_MISINFO blob then 0
  else Math_max 0 (Math_min 1
         (unbounded klass blob (isWirePR hostname url blob) marketCap symbolCount)).

(** One step of the map of [score], and [score(items)]. *)
Definition scoreOne (it : ClassifiedItem.t) : ClassifiedItem.t :=
  let s := scoreOf (ClassifiedItem.klass it) (blobOf it)
             (RawItem.url (ClassifiedItem.item it))
             (RawItem.marketCap (ClassifiedItem.item it))
             (symbolCount it) in
  ClassifiedItem.mk (ClassifiedItem.item it) (ClassifiedItem.klass it) s.

Definition score (items : list ClassifiedItem.t) : list ClassifiedItem.t :=
  map scoreOne items.

End WithURL.

End ScoreSections.

(** ** pipeline/score.ts, the earlier scorer: baseline and boosters *)

(** The version of [score] that precedes the one above: a baseline by
    class, five boosters, and a cap at 1.  Its three patterns are the
    patterns of the same names above. *)
Module ScoreEarlier.
Import JS Str RegExp.
Local Open Scope float_scope.

(** The table of this version; it has no entry for four of the labels. *)
Definition BASELINE (k : HighImpactEvent) : option float :=
  match k with
  | PIVOTAL_TRIAL_SUCCESS => Some 0.72
  | FDA_MARKETING_AUTH => Some 0.7
  | FDA_ADCOM_POSITIVE => Some 0.66
  | REGULATORY_DESIGNATION => Some 0.54
  | TIER1_PARTNERSHIP => Some 0.6
  | MAJOR_GOV_CONTRACT => Some 0.6
  | ACQUISITION_BUYOUT => Some 0.62
  | IPO_DEBUT_POP => Some 0.55
  | COURT_WIN_INJUNCTION => Some 0.56
  | MEME_OR_INFLUENCER => Some 0.5
  | RESTRUCTURING_OR_FINANCING => Some 0.48
  | POLICY_OR_POLITICS_TAILWIND => Some 0.44
  | OTHER => Some 0.2
  | _ => None
  end.

(** [BASELINE.OTHER] *)
Definition BASELINE_OTHER : float := 0.2.

Section WithRuntime.
(** [String.prototype.toLowerCase] of the runtime, on arbitrary text. *)
Variable toLowerCase : jsstring -> jsstring.

(** [(it.title + " " + (it.summary || "")).toLowerCase()]; a title that
    is undefined is concatenated as the text "undefined". *)
Definition textOf (it : ClassifiedItem.t) : jsstring :=
  toLowerCase
    (orDefault (lit "undefined") (RawItem.title (ClassifiedItem.item it))
     ++ [32%N] ++ orEmpty (RawItem.summary (ClassifiedItem.item it))).

(** The body of the callback of [score]. *)
Definition scoreOf (it : ClassifiedItem.t) : float :=
  let text := textOf it in
  (* 1) Baseline from event type *)
  let s := orDefault BASELINE_OTHER (BASELINE (ClassifiedItem.klass it)) in
  (* 2) Boosters *)
  let marketCap := RawItem.marketCap (ClassifiedItem.item it) in
  let isSmallCap :=
    (0 <? orDefault 0 marketCap) && (orDefault 0 marketCap <? 1000000000) in
  let s := if isSmallCap then s + 0.14 else s in
  let s := if test Score.SUPERLATIVE_WORDS text then s + 0.04 else s in
  let s := if test Score.LARGE_DOLLAR_AMOUNT text then s + 0.06 else s in
  let s := if test Score.BIG_MOVE_WORDS text then s + 0.06 else s in
  let s := if Nat.eqb (Score.symbolCount it) 1 then s + 0.03 else s in
  (* 3) Cap at 1.0 *)
  Math_min 1 s.

Definition scoreOne (it : ClassifiedItem.t) : ClassifiedItem.t :=
  ClassifiedItem.mk (ClassifiedItem.item it) (ClassifiedItem.klass it) (scoreOf it).

(** [score(items)] *)
Definition score (items : list ClassifiedItem.t) : list ClassifiedItem.t :=
  map scoreOne items.

End WithRuntime.

End ScoreEarlier.

(** ** Example data *)

Module Examples.
Import Str.
Local Open Scope float_scope.

(** A stand-in for the URL parser of the runtime, for the examples: the
    host of [scheme://host[:port][/path]], nothing without [://]. *)
Fixpoint afterScheme (s : jsstring) : option jsstring :=
  match s with
  | 58%N :: 47%N :: 47%N :: r => Some r
  | _ :: s' => afterScheme s'
  | [] => None
  end.

Fixpoint takeHost (s : jsstring) : jsstring :=
  match s with
  | c :: s' =>
      if ((c =? 47) || (c =? 63) || (c =? 35) || (c =? 58))%N then []
      else c :: takeHost s'
  | [] => []
  end.

Definition hostname (u : jsstring) : option jsstring :=
  option_map (fun r => toLowerCase (takeHost r)) (afterScheme u).

(** A news item with the given URL, title, summary, symbols and market
    capitalisation. *)
Definition item (url : option string) (title summary : string)
    (symbols : list string) (marketCap : option float) : RawItem.t :=
  RawItem.mk (lit "id-1") (option_map lit url) (Some (lit title))
             (Some (lit summary)) (lit "fmp_pr") (lit "2025-01-02T10:00:00Z")
             (Some symbols) marketCap.

(** Thresholds and window size of an example configuration. *)
Definition env : PriceConfirm.Env := PriceConfirm.mkEnv 2 0.01 0.005 60.

(** The market state after one bar of volume 0 for ACME. *)
Definition zeroVolumeState : PriceConfirm.State :=
  snd (PriceConfirm.onAgg env "ACME" 10 0 PriceConfirm.initial).

(** Every pattern of the two modules. *)
Definition allPatterns : list RegExp.t :=
  [ Classify.PAT.pivotal; Classify.PAT.topline; Classify.PAT.adcom;
    Classify.PAT.approval; Classify.PAT.designation; Classify.PAT.mnaBinding;
    Classify.PAT.mnaWillAcquire; Classify.PAT.mnaPerShareOrValue;
    Classify.PAT.mnaNonBinding; Classify.PAT.mnaAdminOnly;
    Classify.PAT.mnaAssetOrProperty; Classify.PAT.partnershipAny;
    Classify.PAT.dealSigned; Classify.PAT.contractAny; Classify.PAT.govWords;
    Classify.PAT.govEquity; Classify.PAT.earningsBeatGuideUp;
    Classify.PAT.indexInclusion; Classify.PAT.uplist;
    Classify.PAT.listingCompliance; Classify.PAT.courtWin;
    Classify.PAT.memeOrInfluencer; Classify.PAT.nameDropContext;
    Classify.PAT.proxyAdvisor; Classify.PAT.voteAdminOnly;
    Classify.PAT.lawFirmPR; Classify.PAT.awardsPR;
    Classify.PAT.securityIncidentUpdate; Classify.PAT.investorConfs;
    Classify.PAT.financialResultsOnly; Classify.PAT.shelfOrATM;
    Classify.PAT.plainDilution; Classify.PAT.antiDilutionPositive;
    Classify.PAT.strategicAlts; Classify.PAT.conferenceOnly;
    Classify.PAT.upcomingOnly; Classify.PAT.analystMedia;
    Classify.PAT.bidAuction; Classify.PAT.govRoutine; Classify.PAT.typoErratum;
    Classify.PAT.cryptoTreasuryBuy; Classify.PAT.cryptoTreasuryDiscuss;
    Classify.TIER1_RX; Classify.IR_HOST; Classify.BIG_PCT;
    Classify.RECORD_REVENUE; Classify.SWING_TO_PROFIT; Classify.LARGE_DOLLARS;
    Classify.SCALE; Classify.PREMIUM_OR_STRATEGIC; Classify.verbsTier1;
    Score.LARGE_DOLLAR_AMOUNT; Score.SUPERLATIVE_WORDS; Score.BIG_MOVE_WORDS;
    Score.RX_PROXY_ADVISOR; Score.RX_VOTE_ADMIN_ONLY; Score.RX_LAWFIRM;
    Score.RX_SECURITY_UPDATE; Score.RX_INVESTOR_CONFS; Score.RX_AWARDS;
    Score.RX_FIN_RESULTS; Score.RX_EARNINGS_BEAT; Score.RX_PIVOTAL;
    Score.RX_MID_STAGE_WIN; Score.RX_TOPLINE_STRONG; Score.RX_CE_MARK;
    Score.RX_510K; Score.RX_SUPPLEMENTAL; Score.RX_REG_PROCESS;
    Score.RX_JOURNAL; Score.RX_CONFERENCE; Score.RX_MNA_DEFINITIVE;
    Score.RX_MNA_WILL_ACQUIRE; Score.RX_MNA_PERPRICE; Score.RX_MNA_TENDER;
    Score.RX_MNA_REVISED; Score.RX_MNA_CASHSTOCK; Score.RX_MNA_LOI_ANY;
    Score.RX_MNA_ADMIN; Score.RX_ASSET_SALE; Score.RX_PROPERTY_ACQ;
    Score.RX_SHELF_ATM; Score.RX_FINANCING_DILUTIVE;
    Score.RX_FINANCING_PREMIUM; Score.RX_FINANCING_STRATEGIC;
    Score.RX_FINANCING_GOING; Score.RX_ANTI_DILUTION_POS;
    Score.RX_CRYPTO_TREASURY_BUY; Score.RX_CRYPTO_TREASURY_DISCUSS;
    Score.RX_INDEX_MAJOR; Score.RX_INDEX_MINOR; Score.RX_ANALYST;
    Score.RX_MEDIA_INTERVIEW; Score.RX_BUYBACK_DIV; Score.RX_STRAT_ALTS;
    Score.RX_TIER1_VERBS; Score.RX_LISTING_COMPLIANCE; Score.RX_PRECLIN_NHP;
    Score.RX_CELL_MODEL; Score.RX_HOT_DISEASE; Score.RX_SPECIAL_DIVIDEND;
    Score.RX_MISINFO; Score.TIER1_RX; Score.RX_PLAIN_DILUTIVE;
    Score.RX_GOV_FOLLOW_ON; Score.RX_PCT; Score.RX_SWING_PROFIT; Score.IR_HOST ].

End Examples.

(** ** Call sequences and normal forms the statements speak of *)

(** NaN, and the binary64 form of a positive integer below [2^53] (the
    integer shifted up to 53 digits, with the exponent that undoes the
    shift), in the specification of the floats. *)
Module SF.
Definition SFisNaN (f : spec_float) : bool :=
  match f with S754_nan => true | _ => false end.

Definition SFisFinite (f : spec_float) : bool :=
  match f with S754_zero _ | S754_finite _ _ _ => true | _ => false end.

Definition intSF (p : positive) : spec_float :=
  S754_finite false (fst (shl_align p 0 (Z.pos (digits2_pos p) - 53)))
              (Z.pos (digits2_pos p) - 53).

(** The value of a float of the specification in units of [2^-1074], an
    integer; the infinities sit just above the largest finite value. *)
Definition ordInf : Z := (2 ^ 2098)%Z.

Definition ord (f : spec_float) : Z :=
  match f with
  | S754_zero _ => 0
  | S754_infinity s => cond_Zopp s ordInf
  | S754_nan => 0
  | S754_finite s m e => cond_Zopp s (Z.pos m * 2 ^ (e + 1074))
  end%Z.

(** Rounding to nearest, ties to even: [V / 2^k] rounded to an integer,
    a positive integer rounded to 53 significant bits, and the rounding
    of an exact sum, which overflows to an infinity. *)
Definition rne (V k : Z) : Z :=
  let q := (V / 2 ^ k)%Z in
  match (2 * (V mod 2 ^ k) ?= 2 ^ k)%Z with
  | Lt => q
  | Eq => if Z.even q then q else (q + 1)%Z
  | Gt => (q + 1)%Z
  end.

Definition rnd (V : Z) : Z :=
  let k := Z.max (Z.log2 V - 52) 0 in (rne V k * 2 ^ k)%Z.

Definition RND (S : Z) : Z :=
  match S with
  | 0 => 0
  | Z.pos _ => Z.min (rnd S) ordInf
  | Z.neg p => - Z.min (rnd (Z.pos p)) ordInf
  end%Z.

(** Two numbers, the first at most the second. *)
Definition below (x y : float) : Prop :=
  JS.isNaN x = false /\ JS.isNaN y = false /\ (x <=? y)%float = true.
End SF.

(** The symbol a ledger call works on, and the calls that clear the ledger. *)
Module Ledger.
Import Simulator.

Definition callSymbol (c : call) : option string :=
  match c with
  | Fill o => Some (Order.symbol o)
  | TryExit symbol _ _ => Some symbol
  | Reset _ => None
  end.

Definition isReset (c : call) : bool :=
  match c with Reset _ => true | _ => false end.

End Ledger.

(** The calls a client makes on [priceConfirm]: the bar feed, the
    reference price, the read of the signal, and the reset of a symbol. *)
Module Feed.
Import JS PriceConfirm.
Local Open Scope float_scope.

Inductive call :=
| OnAgg (symbol : string) (close vol : float)
| SetRef (symbol : string) (px : float)
| GetConfirm (clock : float) (symbol : string) (priceNow : float)
| ResetSymbolState (symbol : string).

Definition callSymbol (c : call) : string :=
  match c with
  | OnAgg s _ _ => s
  | SetRef s _ => s
  | GetConfirm _ s _ => s
  | ResetSymbolState s => s
  end.

(** The state a call leaves the module in, also when the call throws. *)
Definition step (env : Env) (c : call) (st : State) : State :=
  match c with
  | OnAgg s close vol => snd (onAgg env s close vol st)
  | SetRef s px => setRef s px st
  | GetConfirm clock s priceNow => snd (getConfirm env clock s priceNow st)
  | ResetSymbolState s => resetSymbolState s st
  end.

Definition run (env : Env) (cs : list call) (st : State) : State :=
  fold_left (fun st c => step env c st) cs st.

(** Successive [push] calls on one window. *)
Definition pushAll (xs : list float) (w : RollingWindow) : RollingWindow :=
  fold_left (fun w x => push x w) xs w.

(** The last [n] elements of a list. *)
Definition lastN {A} (n : nat) (l : list A) : list A :=
  skipn (List.length l - n) l.

(** Successive bars [(close, volume)] of one symbol. *)
Definition bars (env : Env) (symbol : string) (bs : list (float * float))
    (st : State) : State :=
  fold_left (fun st b => snd (onAgg env symbol (fst b) (snd b) st)) bs st.

End Feed.

(** What [normalize] establishes, as predicates on a text. *)
Module NormalForm.
Import Str.
Local Open Scope N_scope.

(** White space occurs only as single space characters: no other white
    space character, and no two in a row ([prev] tells whether the
    character before the text is a space). *)
Fixpoint singleSpaced (prev : bool) (s : jsstring) : bool :=
  match s with
  | [] => true
  | c :: s' =>
      if isSpace c then (c =? 32) && negb prev && singleSpaced true s'
      else singleSpaced false s'
  end.

(** The characters [normalize] replaces: curly quotes and apostrophes,
    the non-breaking hyphen and the two dashes. *)
Definition isTypographic (c : N) : bool :=
  (c =? 8220) || (c =? 8221) || (c =? 8217) || (c =? 8216)
  || (c =? 8209) || (c =? 8211) || (c =? 8212).

(** No white space at either end. *)
Definition trimmed (s : jsstring) : bool :=
  match s with
  | [] => true
  | c :: _ => negb (isSpace c) && negb (isSpace (List.last s c))
  end.

(** The three replacements of [normalize], on one character. *)
Definition straighten (c : N) : N :=
  let c := if (c =? 8220) || (c =? 8221) then 34 else c in
  let c := if (c =? 8217) || (c =? 8216) then 39 else c in
  if (c =? 8209) || (c =? 8211) || (c =? 8212) then 45 else c.

End NormalForm.

(** Data of the examples that instantiate the theorems on runs. *)
Module Samples.
Import JS.
Local Open Scope float_scope.

Definition buyAcme : Order.t := Order.mk buy "ACME" 10 1000 5 None None.
Definition sellAcme : Order.t := Order.mk sell "ACME" 10 2000 6 None None.
Definition acme : Position.t := Position.mk "ACME" 10 5 1000 5.

(** A ledger holding ten ACME shares bought at 5. *)
Definition ledgerWithAcme : Simulator.t :=
  Simulator.fill buyAcme (Simulator.new None).

(** A ledger holding GLBX only, and calls that concern ACME only. *)
Definition ledgerWithGlbx : Simulator.t :=
  Simulator.fill (Order.mk buy "GLBX" 3 500 20 None None) (Simulator.new None).

Definition acmeCalls : list Simulator.call :=
  [ Simulator.Fill buyAcme;
    Simulator.TryExit "ACME" 5.5 2000;
    Simulator.Fill (Order.mk sell "ACME" 4 3000 7 None None) ].

(** Five volumes, two bars of ACME, and feed calls for ACME and for GLBX. *)
Definition volumes : list float := [ 1; 2; 3; 4; 5 ].

Definition acmeBars : list (float * float) := [ (10, 100); (11, 200) ].

Definition acmeFeed : list Feed.call :=
  [ Feed.OnAgg "ACME" 11 100; Feed.SetRef "ACME" 12; Feed.GetConfirm 0 "ACME" 11 ].

Definition glbxFeed : list Feed.call :=
  [ Feed.OnAgg "GLBX" 20 300; Feed.SetRef "GLBX" 19;
    Feed.GetConfirm 0 "GLBX" 21; Feed.ResetSymbolState "GLBX" ].

(** News items: an approval reported off the wires, an interview on
    television about a priced takeover, and a registered direct offering. *)
Definition approvalOffWire : RawItem.t :=
  Examples.item None "Company X Receives FDA Approval for Drug Y" EmptyString [] None.

Definition interview : RawItem.t :=
  Examples.item (Some "https://www.prnewswire.com/news/acme")
    "Acme CEO told CNBC the company is to be acquired for $12.50 per share"
    "PR Newswire -- Acme entered into a definitive agreement" ["ACME"] None.

Definition registeredDirect : RawItem.t :=
  Examples.item (Some "https://www.prnewswire.com/news/acme")
    "Acme announces $10 million registered direct offering" EmptyString ["ACME"] None.

(** A batch of classified items that between them reach every numbered
    section of [score]. *)
Definition scored : list ClassifiedItem.t :=
  [ ClassifiedItem.mk
      (Examples.item None "Pomerantz Law Firm announces class action against Acme"
         EmptyString ["ACME"] (Some 500000000)) OTHER 0;
    ClassifiedItem.mk
      (Examples.item (Some "https://www.globenewswire.com/news/acme")
         "Acme announces statistically significant topline results from Phase 3 trial"
         "Results were published in the Lancet" ["ACME"] (Some 300000000))
      PIVOTAL_TRIAL_SUCCESS 0;
    ClassifiedItem.mk
      (Examples.item None "Acme patient-derived neurons show early signals of benefit in ALS"
         EmptyString ["ACME"] None) PIVOTAL_TRIAL_SUCCESS 0;
    ClassifiedItem.mk
      (Examples.item None "Acme receives CE mark approval for its device" EmptyString
         ["ACME"] None) FDA_MARKETING_AUTH 0;
    ClassifiedItem.mk
      (Examples.item (Some "https://ir.acme.com/news/1")
         "FDA grants 510(k) clearance to Acme; sNDA accepted" EmptyString [] None)
      FDA_MARKETING_AUTH 0;
    ClassifiedItem.mk
      (Examples.item None
         "Acme to be acquired for $12.50 per share in cash-and-stock deal"
         "Definitive merger agreement signed; tender offer to follow; buyer raises offer"
         ["ACME"; "GLBX"] (Some 2000000000)) ACQUISITION_BUYOUT 0;
    ClassifiedItem.mk
      (Examples.item None "Acme signs non-binding letter of intent"
         "Acme extends expiration of tender offer and sells its stake in a subsidiary"
         ["ACME"] None) ACQUISITION_BUYOUT 0;
    ClassifiedItem.mk
      (Examples.item None "Acme receives follow-on order from the U.S. Army" EmptyString
         ["ACME"] (Some nan)) MAJOR_GOV_CONTRACT 0;
    ClassifiedItem.mk
      (Examples.item None "Acme to join the S&P 600 and the Russell 2000" "(Business Wire)"
         ["ACME"] None) INDEX_INCLUSION 0;
    ClassifiedItem.mk
      (Examples.item None "Acme purchases Bitcoin for its treasury"
         "The treasury strategy follows a proposal of $50 million" ["ACME"] None)
      RESTRUCTURING_OR_FINANCING 0;
    ClassifiedItem.mk
      (Examples.item None "Acme reports third quarter financial results"
         "Revenue up 85% year-over-year" ["ACME"] None) EARNINGS_BEAT_OR_GUIDE_UP 0;
    ClassifiedItem.mk
      (Examples.item None "Acme reports first quarter results" "Acme returns to profitability"
         ["ACME"] None) OTHER 0;
    ClassifiedItem.mk
      (Examples.item None "Acme reports second quarter results" EmptyString ["ACME"] None)
      COURT_WIN_INJUNCTION 0;
    ClassifiedItem.mk
      (Examples.item None "Acme terminates at-the-market offering" EmptyString ["ACME"] None)
      OTHER 0;
    ClassifiedItem.mk
      (Examples.item None "Acme regains compliance with Nasdaq listing requirement"
         EmptyString ["ACME"] None) UPLISTING_TO_NASDAQ 0;
    ClassifiedItem.mk
      (Examples.item None "Acme declares special cash dividend of $1.00 per share"
         EmptyString ["ACME"] None) OTHER 0;
    ClassifiedItem.mk
      (Examples.item None "Acme announces share repurchase and explores strategic alternatives"
         EmptyString ["ACME"] None) COURT_WIN_INJUNCTION 0;
    ClassifiedItem.mk
      (Examples.item None "Acme issues statement on unauthorized press release" EmptyString
         ["ACME"] (Some 500000000)) ACQUISITION_BUYOUT 0;
    ClassifiedItem.mk
      (Examples.item None
         "Acme platform powered by Nvidia doubled record bookings of $200 million"
         EmptyString ["ACME"] (Some 500000000)) TIER1_PARTNERSHIP 0;
    ClassifiedItem.mk
      (Examples.item None "Acme announces registered direct offering" EmptyString
         ["ACME"] None) RESTRUCTURING_OR_FINANCING 0;
    ClassifiedItem.mk
      (Examples.item None "Acme holds Type B meeting with FDA"
         "Acme to present poster at the spring congress" ["ACME"] None)
      REGULATORY_DESIGNATION 0;
    ClassifiedItem.mk
      (Examples.item None "ISS recommends that shareholders vote for the merger"
         EmptyString ["ACME"] None) IPO_DEBUT_POP 0;
    ClassifiedItem.mk
      (Examples.item None "Acme provides an update on cybersecurity incident"
         "Acme will participate in investor conference; analyst reiterates price target"
         ["ACME"] None) MEME_OR_INFLUENCER 0 ].

(** Bars of ACME that end in a surge of volume, the market state after
    them with the reference price set, and a looser configuration than
    the one of the examples. *)
Definition surgeBars : list (float * float) :=
  [ (10, 100); (10, 100); (10, 100); (10, 100); (10, 100); (10, 100); (11, 1000) ].

Definition surge : PriceConfirm.State :=
  PriceConfirm.setRef "ACME" 10
    (Feed.bars Examples.env "ACME" surgeBars PriceConfirm.initial).

Definition looseEnv : PriceConfirm.Env := PriceConfirm.mkEnv 1 0 0 60.





End Samples.


(* ===================================================================== *)
(** * Theorems *)
(* ===================================================================== *)

Section FloatOrder.
Local Open Scope float_scope.

(** The strict order of floats implies the large one.  Both are read off
    [SFcompare] through the specification of the primitive comparisons. *)
Lemma ltb_leb (x y : float) : (x <? y) = true -> (x <=? y) = true.
Proof.
  rewrite ltb_spec, leb_spec. unfold SFltb, SFleb.
  destruct (SFcompare (Prim2SF x) (Prim2SF y)) as [[]|]; congruence.
Qed.

Lemma leb_false_ltb_false (x y : float) : (x <=? y) = false -> (x <? y) = false.
Proof.
  intros H. destruct (x <? y) eqn:E; [|reflexivity].
  apply ltb_leb in E. congruence.
Qed.

End FloatOrder.

Section SizerTheorems.
Import JS Entry.
Local Open Scope float_scope.

(** The quantity of the returned order is the literal [0] or the sized
    quantity, and the latter only when it is not [<= 0]. *)
Lemma simulateEntry_qty symbol px now riskPct equity :
  let q := sizedQty px (orDefault 0.01 riskPct) (orDefault 10000 equity) in
  Order.qty (simulateEntry symbol px now riskPct equity) =
  if q <=? 0 then 0 else q.
Proof.
  unfold simulateEntry. cbv zeta.
  destruct (sizedQty px (orDefault 0.01 riskPct) (orDefault 10000 equity) <=? 0);
    reflexivity.
Qed.

(** C1, as the claim states it, fails: at price 2.00, risk 1% and equity
    10,000 the order's quantity is 625, not 2500. *)
Lemma C1_qty_is_not_2500 :
  Order.qty (simulateEntry "ACME" 2 0 (Some 0.01) (Some 10000)) <> 2500.
Proof.
  intros H. apply (f_equal (fun q => q =? 2500)) in H.
  vm_compute in H. discriminate H.
Qed.

(** C1 (amended): for price 2.00, risk 1% and equity 10,000 (given or by
    default) and any symbol and time, the sizer cleans the price to 2, puts
    the stop at 1.84 (8% below), has a risk per share of 2 - 1.84 (0.16 to
    the cent, 0.15999999999999992 as a double), a raw quantity of 625 and a
    notional cap of 2500 shares, which does not bind: the order's quantity
    is 625.  And for every input the quantity of the order is never
    negative. *)
Theorem C1_sizer_example_and_sign :
  (forall symbol now (givenRisk givenEquity : bool),
      let riskPct := if givenRisk then Some 0.01 else None in
      let equity := if givenEquity then Some 10000 else None in
      let o := simulateEntry symbol 2 now riskPct equity in
      cleanPx 2 = 2 /\
      stopPx 2 = 1.84 /\ 1.84 = 2 * 0.92 /\
      Order.stopPx o = Some 1.84 /\
      perShareRisk 2 1.84 = 2 - 1.84 /\
      Math_round (perShareRisk 2 1.84 * 100) / 100 = 0.16 /\
      rawQty (riskBudget 10000 0.01) (perShareRisk 2 1.84) = 625 /\
      maxQtyByNotional 2 = 2500 /\
      capQty 625 2500 = 625 /\
      Order.qty o = 625 /\
      (MIN_NOTIONAL <=? Order.qty o * 2) = true) /\
  (forall symbol px now riskPct equity,
      (Order.qty (simulateEntry symbol px now riskPct equity) <? 0) = false).
Proof.
  split.
  - intros symbol now [|] [|]; vm_compute; repeat split.
  - intros symbol px now riskPct equity. rewrite simulateEntry_qty. cbv zeta.
    destruct (sizedQty _ _ _ <=? 0) eqn:E.
    + reflexivity.
    + apply leb_false_ltb_false. exact E.
Qed.

End SizerTheorems.

Section ExitTheorems.
Import JS Exit.
Local Open Scope float_scope.

(** C7: [updateExit] first writes [max(high, lastPx)] into the position's
    high, leaving its other fields, and then tests, with the high so
    written, the trailing stop (the price at least 12% below the high),
    then the 50% target, then the time stop (at least 30 minutes open and
    a gain below 3%); the first rule that holds decides and none gives
    [null].  For a position with average cost 10 and high 12 and a last
    price of 10.50 the decision is the trailing stop, whatever the
    quantity, the opening time and the clock.  A last price of 16 raises
    the high to 16 and reaches the target; where the trailing stop and
    the target both hold, the trailing stop decides; a drop of exactly
    12% trails; the time stop decides at 30 minutes and not one
    millisecond earlier, and not at a gain of 5%. *)
Theorem C7_updateExit_priority :
  (forall symbol qty avg openTs high lastPx now,
      let h := Math_max high lastPx in
      let dd := lastPx / h - 1 in
      let g := lastPx / avg - 1 in
      let mins := (now - openTs) / 60000 in
      let r := updateExit (Position.mk symbol qty avg openTs high) lastPx now in
      fst r = Position.mk symbol qty avg openTs h /\
      ((dd <=? - 0.12) = true -> snd r = Some (mkDecision "trail" lastPx)) /\
      ((dd <=? - 0.12) = false -> (0.5 <=? g) = true ->
         snd r = Some (mkDecision "target50" lastPx)) /\
      ((dd <=? - 0.12) = false -> (0.5 <=? g) = false ->
         (30 <=? mins) = true -> (g <? 0.03) = true ->
         snd r = Some (mkDecision "time" lastPx)) /\
      ((dd <=? - 0.12) = false -> (0.5 <=? g) = false ->
         ((30 <=? mins) = false \/ (g <? 0.03) = false) ->
         snd r = None)) /\
  (forall symbol qty openTs now,
      updateExit (Position.mk symbol qty 10 openTs 12) 10.5 now =
      (Position.mk symbol qty 10 openTs 12, Some (mkDecision "trail" 10.5))) /\
  (forall symbol qty openTs now,
      updateExit (Position.mk symbol qty 10 openTs 12) 16 now =
      (Position.mk symbol qty 10 openTs 16, Some (mkDecision "target50" 16))) /\
  (forall symbol qty openTs now,
      updateExit (Position.mk symbol qty 1 openTs 100) 2 now =
      (Position.mk symbol qty 1 openTs 100, Some (mkDecision "trail" 2))) /\
  (forall symbol qty openTs now,
      updateExit (Position.mk symbol qty 80 openTs 100) 88 now =
      (Position.mk symbol qty 80 openTs 100, Some (mkDecision "trail" 88))) /\
  (forall symbol qty,
      updateExit (Position.mk symbol qty 10 0 10.125) 10.25 1800000 =
      (Position.mk symbol qty 10 0 10.25, Some (mkDecision "time" 10.25))) /\
  (forall symbol qty,
      updateExit (Position.mk symbol qty 10 0 10.125) 10.25 1799999 =
      (Position.mk symbol qty 10 0 10.25, None)) /\
  (forall symbol qty,
      updateExit (Position.mk symbol qty 10 0 10.125) 10.5 1800000 =
      (Position.mk symbol qty 10 0 10.5, None)).
Proof.
  split.
  - intros symbol qty avg openTs high lastPx now. cbv zeta.
    unfold updateExit, drawdownFromHigh, gain, timePassedMin.
    cbn [fst snd Position.set_high Position.high
      Position.avg Position.openTs Position.symbol Position.qty].
    split; [reflexivity|].
    assert (E : - trailPct = - 0.12) by reflexivity. rewrite E.
    unfold timeStopMin.
    repeat split.
    + intros H. rewrite H. reflexivity.
    + intros H1 H2. rewrite H1, H2. reflexivity.
    + intros H1 H2 H3 H4. rewrite H1, H2, H3, H4. reflexivity.
    + intros H1 H2 H3. rewrite H1, H2.
      destruct H3 as [H3 | H3]; rewrite H3; [reflexivity|].
      rewrite andb_false_r. reflexivity.
  - repeat split; intros; vm_compute; reflexivity.
Qed.

End ExitTheorems.

Section FloatDivision.
Import JS.
Local Open Scope float_scope.

(** A finite float other than zero is a signed mantissa and exponent. *)
Lemma finite_nonzero_SF (x : float) :
  isFinite x = true -> (x =? 0) = false ->
  exists s m e, Prim2SF x = S754_finite s m e.
Proof.
  unfold isFinite.
  rewrite FloatAxioms.ltb_spec, FloatAxioms.abs_spec, FloatAxioms.eqb_spec.
  change (Prim2SF infinity) with (S754_infinity false).
  change (Prim2SF 0) with (S754_zero false).
  destruct (Prim2SF x) as [s|s| |s m e]; cbn; try discriminate.
  intros _ _. eauto.
Qed.

Lemma div_eucl_shift (m : positive) :
  Z.div_eucl (Z.shiftl (Z.pos m) 53) (Z.pos m) = (2 ^ 53, 0)%Z.
Proof.
  rewrite Z.shiftl_mul_pow2 by lia.
  rewrite (Z.mul_comm (Z.pos m)).
  pose proof (Z.div_mul (2 ^ 53) (Z.pos m) ltac:(lia)) as Hq.
  pose proof (Z.mod_mul (2 ^ 53) (Z.pos m) ltac:(lia)) as Hr.
  unfold Z.div, Z.modulo in Hq, Hr.
  destruct (Z.div_eucl (2 ^ 53 * Z.pos m) (Z.pos m)) as [q r].
  cbn [fst snd] in *. congruence.
Qed.

(** Dividing a finite non-zero binary64 value by itself: the quotient of
    the mantissas is an exact power of two, which rounds to one. *)
Lemma SFdiv_self s m e :
  SF64div (S754_finite s m e) (S754_finite s m e) = Prim2SF 1.
Proof.
  unfold SF64div, SFdiv, SFdiv_core_binary.
  rewrite Z.sub_diag, Z.sub_diag.
  change (Z.min (fexp prec emax 0) 0) with (-53)%Z.
  change (0 - -53)%Z with 53%Z.
  cbv beta iota zeta.
  rewrite div_eucl_shift.
  replace (new_location (Z.pos m) 0) with loc_Exact.
  2:{ unfold new_location. destruct (Z.even (Z.pos m)); reflexivity. }
  rewrite xorb_nilpotent.
  vm_compute. reflexivity.
Qed.

Lemma div_self (x : float) :
  isFinite x = true -> (x =? 0) = false -> x / x = 1.
Proof.
  intros Hf Hz. destruct (finite_nonzero_SF x Hf Hz) as (s & m & e & Hx).
  apply Prim2SF_inj. rewrite div_spec, Hx. apply SFdiv_self.
Qed.

(** A float equal to zero is not above zero. *)
Lemma eqb_zero_not_pos (x : float) : (x =? 0) = true -> (0 <? x) = false.
Proof.
  rewrite FloatAxioms.ltb_spec, FloatAxioms.eqb_spec.
  change (Prim2SF 0) with (S754_zero false).
  destruct (Prim2SF x) as [s|s| |s m e]; cbn; try discriminate; try reflexivity.
  - destruct s; discriminate.
  - destruct s; discriminate.
Qed.

End FloatDivision.

Section FloatSign.
Import JS.
Local Open Scope Z_scope.

(** The number of binary digits, as the library of positive numbers has it. *)
Lemma digits2_size p : digits2_pos p = Pos.size p.
Proof. induction p; cbn; congruence. Qed.

Lemma digits2_bounds p :
  2 ^ (Z.pos (digits2_pos p) - 1) <= Z.pos p < 2 ^ Z.pos (digits2_pos p).
Proof.
  rewrite digits2_size.
  pose proof (Pos.size_gt p) as Hgt. pose proof (Pos.size_le p) as Hle.
  split.
  - assert (H : 2 ^ Z.pos (Pos.size p) <= 2 * Z.pos p).
    { rewrite <- Pos2Z.inj_pow.
      change (Z.pos (2 ^ Pos.size p) <= Z.pos p~0). lia. }
    replace (Z.pos (Pos.size p)) with (Z.succ (Z.pos (Pos.size p) - 1)) in H by lia.
    rewrite Z.pow_succ_r in H by lia. lia.
  - rewrite <- Pos2Z.inj_pow. lia.
Qed.

Lemma shr_1_m mrs : 0 <= shr_m mrs -> shr_m (shr_1 mrs) = shr_m mrs / 2.
Proof.
  destruct mrs as [m r s]. cbn [shr_m]. intros Hm.
  destruct m as [|p|p]; [reflexivity| |lia].
  destruct p as [p|p|]; cbn [shr_1 shr_m].
  - rewrite Pos2Z.inj_xI. apply Z.div_unique with 1; lia.
  - rewrite Pos2Z.inj_xO. apply Z.div_unique with 0; lia.
  - reflexivity.
Qed.

Lemma iter_pos_shr_m p : forall mrs,
  0 <= shr_m mrs ->
  shr_m (SpecFloat.iter_pos shr_1 p mrs) = shr_m mrs / 2 ^ Z.pos p.
Proof.
  induction p as [p IH|p IH|]; intros mrs Hm; cbn [SpecFloat.iter_pos].
  - assert (H1 : 0 <= shr_m (shr_1 mrs)).
    { rewrite shr_1_m by assumption. apply Z.div_pos; lia. }
    assert (H2 : 0 <= shr_m (SpecFloat.iter_pos shr_1 p (shr_1 mrs))).
    { rewrite IH by assumption. apply Z.div_pos; [assumption|]. apply Z.pow_pos_nonneg; lia. }
    rewrite IH, IH, shr_1_m by assumption.
    rewrite !Z.div_div by (try apply Z.pow_pos_nonneg; lia).
    f_equal.
    replace (Z.pos p~1) with (1 + Z.pos p + Z.pos p) by lia.
    rewrite !Z.pow_add_r by lia. rewrite Z.pow_1_r. ring.
  - assert (H2 : 0 <= shr_m (SpecFloat.iter_pos shr_1 p mrs)).
    { rewrite IH by assumption. apply Z.div_pos; [assumption|]. apply Z.pow_pos_nonneg; lia. }
    rewrite IH, IH by assumption.
    rewrite !Z.div_div by (try apply Z.pow_pos_nonneg; lia).
    f_equal.
    replace (Z.pos p~0) with (Z.pos p + Z.pos p) by lia.
    rewrite Z.pow_add_r by lia. reflexivity.
  - rewrite shr_1_m by assumption. reflexivity.
Qed.

(** The least exponent and the canonical exponent of binary64. *)
Lemma emin_eq : emin = -1074. Proof. reflexivity. Qed.

Lemma fexp_eq e : fexp prec emax e = Z.max (e - 53) (-1074).
Proof. reflexivity. Qed.

(** Shifting a positive mantissa to its canonical exponent leaves it
    positive, when the exponent is not below the least one. *)
Lemma shr_fexp_pos m e l :
  0 < m -> -1074 <= e ->
  0 < shr_m (fst (shr_fexp prec emax m e l)) /\
  -1074 <= snd (shr_fexp prec emax m e l).
Proof.
  intros Hm He. unfold shr_fexp, shr. rewrite fexp_eq.
  assert (Hrec : shr_m (shr_record_of_loc m l) = m).
  { destruct l as [|[]]; reflexivity. }
  destruct m as [|p|p]; try lia.
  cbn [Zdigits2].
  pose proof (digits2_bounds p) as [Hlo Hhi].
  set (d := Z.pos (digits2_pos p)) in *.
  destruct (Z.max (d + e - 53) (-1074) - e) as [|n|n] eqn:En; cbn [fst snd].
  - rewrite Hrec. lia.
  - rewrite iter_pos_shr_m by (rewrite Hrec; lia). rewrite Hrec.
    assert (Hn : Z.pos n = d - 53) by lia.
    split; [|lia].
    apply Z.div_str_pos. split; [apply Z.pow_pos_nonneg; lia|].
    rewrite Hn. apply Z.le_trans with (2 ^ (d - 1)); [|lia].
    apply Z.pow_le_mono_r; lia.
  - rewrite Hrec. lia.
Qed.

Lemma round_nearest_even_ge m l : m <= round_nearest_even m l.
Proof.
  destruct l as [|[]]; cbn; try lia. destruct (Z.even m); lia.
Qed.

Lemma binary_round_aux_pos m e l :
  0 < m -> -1074 <= e -> SFpos (binary_round_aux prec emax false m e l).
Proof.
  intros Hm He. unfold binary_round_aux.
  pose proof (shr_fexp_pos m e l Hm He) as [H1 H1e].
  destruct (shr_fexp prec emax m e l) as [mrs' e']. cbn [fst snd] in *.
  pose proof (round_nearest_even_ge (shr_m mrs') (loc_of_shr_record mrs')) as Hr.
  pose proof (shr_fexp_pos (round_nearest_even (shr_m mrs') (loc_of_shr_record mrs')) e'
                loc_Exact ltac:(lia) H1e) as [H2 _].
  destruct (shr_fexp prec emax _ e' loc_Exact) as [mrs'' e'']. cbn [fst snd] in *.
  destruct (shr_m mrs'') as [|q|q]; try lia.
  destruct (e'' <=? emax - prec); exact I.
Qed.

Lemma binary_round_pos m e :
  -1074 <= e -> SFpos (binary_round prec emax false m e).
Proof.
  intros He. unfold binary_round, shl_align. rewrite fexp_eq.
  destruct (Z.max (Z.pos (digits2_pos m) + e - 53) (-1074) - e) as [|n|n] eqn:En;
    apply binary_round_aux_pos; lia.
Qed.

Lemma valid_finite s m e :
  valid_binary (S754_finite s m e) = true ->
  -1074 <= e /\ Z.pos (digits2_pos m) <= 53 /\
  (e = -1074 \/ Z.pos (digits2_pos m) = 53).
Proof.
  cbn [SpecFloat.valid_binary]. unfold bounded, canonical_mantissa.
  rewrite fexp_eq. intros H. apply andb_prop in H as [H _].
  apply Z.eqb_eq in H. lia.
Qed.

Lemma iter_xO m d : Z.pos (Pos.iter xO m d) = Z.pos m * 2 ^ Z.pos d.
Proof.
  induction d as [|d IH] using Pos.peano_ind.
  - cbn. lia.
  - rewrite Pos.iter_succ, Pos2Z.inj_xO, IH, Pos2Z.inj_succ, Z.pow_succ_r by lia. ring.
Qed.

Lemma shl_align_fst m e ez :
  ez <= e -> Z.pos (fst (shl_align m e ez)) = Z.pos m * 2 ^ (e - ez).
Proof.
  intros H. unfold shl_align.
  destruct (ez - e) as [|d|d] eqn:E; cbn [fst]; try lia.
  - replace (e - ez) with 0 by lia. lia.
  - rewrite iter_xO. f_equal. f_equal. lia.
Qed.

Lemma SFadd_pos a b :
  valid_binary a = true -> valid_binary b = true ->
  SFpos a -> SFpos b -> SFpos (SF64add a b).
Proof.
  intros Va Vb Ha Hb.
  destruct a as [sa|sa| |sa ma ea]; try contradiction;
  destruct b as [sb|sb| |sb mb eb]; try contradiction;
  destruct sa; try contradiction; destruct sb; try contradiction;
  try exact I.
  unfold SF64add, SFadd. cbn [cond_Zopp].
  apply valid_finite in Va as (Hea & _ & _). apply valid_finite in Vb as (Heb & _ & _).
  cbn [Z.add binary_normalize]. apply binary_round_pos. lia.
Qed.

(** Subtracting a smaller positive finite float from a larger one gives
    [+0] or a positive float. *)
Lemma SFsub_nonneg ma ea mq eq_ :
  valid_binary (S754_finite false ma ea) = true ->
  valid_binary (S754_finite false mq eq_) = true ->
  SFleb (S754_finite false mq eq_) (S754_finite false ma ea) = true ->
  SF64sub (S754_finite false ma ea) (S754_finite false mq eq_) = S754_zero false \/
  SFpos (SF64sub (S754_finite false ma ea) (S754_finite false mq eq_)).
Proof.
  intros Va Vq Hle.
  apply valid_finite in Va as (Hea & Hda & Hna).
  apply valid_finite in Vq as (Heq & Hdq & Hnq).
  pose proof (digits2_bounds ma) as [Hloa Hhia].
  pose proof (digits2_bounds mq) as [Hloq Hhiq].
  unfold SF64sub, SFsub. cbn [cond_Zopp].
  set (ez := Z.min ea eq_).
  assert (Hord : Z.pos (fst (shl_align mq eq_ ez)) <= Z.pos (fst (shl_align ma ea ez))).
  { rewrite !shl_align_fst by (unfold ez; lia).
    unfold SFleb, SFcompare in Hle.
    destruct (Z.compare_spec eq_ ea) as [E|E|E]; try discriminate.
    - subst eq_. replace ez with ea by (unfold ez; lia).
      rewrite Z.sub_diag. rewrite !Z.mul_1_r.
      change (Pos.compare_cont Eq mq ma) with (Pos.compare mq ma) in Hle.
      destruct (Pos.compare_spec mq ma); try discriminate; lia.
    - replace ez with eq_ by (unfold ez; lia).
      rewrite Z.sub_diag, Z.mul_1_r.
      assert (Hd : Z.pos (digits2_pos ma) = 53) by lia.
      rewrite Hd in Hloa. 
      assert (Hq : Z.pos mq < 2 ^ 53).
      { eapply Z.lt_le_trans; [exact Hhiq|]. apply Z.pow_le_mono_r; lia. }
      assert (H2 : 2 ^ 1 <= 2 ^ (ea - eq_)) by (apply Z.pow_le_mono_r; lia).
      change (2 ^ (53 - 1)) with 4503599627370496 in Hloa.
      change (2 ^ 53) with 9007199254740992 in Hq.
      change (2 ^ 1) with 2 in H2. nia. }
  destruct (Z.pos (fst (shl_align ma ea ez)) - Z.pos (fst (shl_align mq eq_ ez)))
    as [|d|d] eqn:Ed; try lia.
  - left. reflexivity.
  - right. cbn [binary_normalize]. apply binary_round_pos. unfold ez. lia.
Qed.

Local Open Scope float_scope.

Lemma pos_iff x : (0 <? x) = true <-> SFpos (Prim2SF x).
Proof.
  rewrite FloatAxioms.ltb_spec. change (Prim2SF 0) with (S754_zero false).
  unfold SFltb, SFcompare, SFpos.
  destruct (Prim2SF x) as [s|s| |s m e]; try destruct s; cbn; intuition congruence.
Qed.

Lemma SFeqb_refl_pos f : SFpos f -> SFeqb f f = true.
Proof.
  destruct f as [s|s| |s m e]; try contradiction; destruct s; try contradiction;
    intros _; unfold SFeqb, SFcompare; [reflexivity|].
  rewrite Z.compare_refl.
  change (Pos.compare_cont Eq m m) with (Pos.compare m m).
  rewrite Pos.compare_refl. reflexivity.
Qed.

Lemma pos_not_NaN x : (0 <? x) = true -> isNaN x = false.
Proof.
  intros H. apply pos_iff in H. unfold isNaN.
  rewrite FloatAxioms.eqb_spec, SFeqb_refl_pos by assumption. reflexivity.
Qed.

(** F1: a finite quantity that is not [<= 0] is above zero. *)
Lemma finite_not_le_pos x :
  isFinite x = true -> (x <=? 0) = false -> (0 <? x) = true.
Proof.
  unfold isFinite.
  rewrite FloatAxioms.ltb_spec, FloatAxioms.abs_spec, FloatAxioms.leb_spec, pos_iff.
  change (Prim2SF infinity) with (S754_infinity false).
  change (Prim2SF 0) with (S754_zero false).
  destruct (Prim2SF x) as [s|s| |s m e]; cbn; try discriminate.
  destruct s; cbn; try discriminate. intros _ _. exact I.
Qed.

(** F2: the sum of two floats above zero is above zero. *)
Lemma add_pos a b : (0 <? a) = true -> (0 <? b) = true -> (0 <? a + b) = true.
Proof.
  rewrite !pos_iff, add_spec. apply SFadd_pos; apply Prim2SF_valid.
Qed.

Lemma sub_le_pos x y my ey :
  SFpos (Prim2SF x) -> Prim2SF y = S754_finite false my ey ->
  SFleb (Prim2SF y) (Prim2SF x) = true ->
  Prim2SF (x - y) = S754_zero false \/ SFpos (Prim2SF (x - y)).
Proof.
  intros Hx Hy Hle. rewrite sub_spec.
  pose proof (Prim2SF_valid x) as Vx. pose proof (Prim2SF_valid y) as Vy.
  rewrite Hy in *.
  destruct (Prim2SF x) as [s|s| |s m e]; try contradiction;
    destruct s; try contradiction.
  - right. exact I.
  - apply SFsub_nonneg; assumption.
Qed.

(** F3: selling [min(o, a)] out of a held quantity [a > 0], for an order
    quantity [o > 0] that is finite, leaves zero or a quantity above zero. *)
Lemma sub_min_pos a o :
  (0 <? a) = true -> (0 <? o) = true -> isFinite o = true ->
  (a - Math_min o a =? 0) = true \/ (0 <? a - Math_min o a) = true.
Proof.
  intros Ha Ho Hfin.
  assert (Hres : forall r, Prim2SF r = S754_zero false \/ SFpos (Prim2SF r) ->
                 (r =? 0) = true \/ (0 <? r) = true).
  { intros r [Hz | Hp].
    - left. rewrite FloatAxioms.eqb_spec, Hz. reflexivity.
    - right. apply pos_iff. exact Hp. }
  apply Hres.
  pose proof (pos_not_NaN a Ha) as Na. pose proof (pos_not_NaN o Ho) as No.
  apply pos_iff in Ha. 
  assert (Hof : exists mo eo, Prim2SF o = S754_finite false mo eo).
  { apply pos_iff in Ho. revert Hfin Ho. unfold isFinite.
    rewrite FloatAxioms.ltb_spec, FloatAxioms.abs_spec.
    change (Prim2SF infinity) with (S754_infinity false).
    destruct (Prim2SF o) as [s|s| |s m e]; cbn; try contradiction; try discriminate.
    destruct s; try contradiction. eauto. }
  destruct Hof as (mo & eo & Hof).
  unfold Math_min. rewrite No, Na. cbn [orb].
  rewrite !FloatAxioms.ltb_spec, FloatAxioms.eqb_spec, Hof.
  change (Prim2SF 0) with (S754_zero false).
  destruct (SFltb (S754_finite false mo eo) (Prim2SF a)) eqn:L1.
  - (* o < a: sell o *)
    apply (sub_le_pos a o mo eo Ha Hof). rewrite Hof.
    unfold SFltb in L1. unfold SFleb.
    destruct (SFcompare (S754_finite false mo eo) (Prim2SF a)) as [[]|]; congruence.
  - destruct (SFltb (Prim2SF a) (S754_finite false mo eo)) eqn:L2.
    + (* a < o: sell a, which is finite *)
      destruct (Prim2SF a) as [s|s| |s m e] eqn:Ea; try contradiction;
        destruct s; try contradiction; try discriminate L2.
      apply (sub_le_pos a a m e); rewrite ?Ea; try exact I; try reflexivity.
      pose proof (SFeqb_refl_pos (S754_finite false m e) I) as R.
      unfold SFeqb in R. unfold SFleb.
      destruct (SFcompare (S754_finite false m e) (S754_finite false m e)) as [[]|];
        congruence.
    + (* neither: the two are equal, sell o *)
      change (SFeqb (S754_finite false mo eo) (S754_zero false)) with false.
      cbv iota.
      apply (sub_le_pos a o mo eo Ha Hof). rewrite Hof.
      destruct (Prim2SF a) as [s|s| |s m e] eqn:Ea; try contradiction;
        destruct s; try contradiction; try discriminate L1.
      unfold SFltb in L1, L2. unfold SFleb.
      unfold SFcompare in *.
      destruct (Z.compare_spec eo e) as [E|E|E]; try discriminate.
      * subst. rewrite Z.compare_refl in L2.
        change (Pos.compare_cont Eq mo m) with (Pos.compare mo m) in *.
        change (Pos.compare_cont Eq m mo) with (Pos.compare m mo) in *.
        destruct (Pos.compare_spec mo m) as [Em|Em|Em]; try discriminate;
          try reflexivity.
        apply Pos.compare_lt_iff in Em. rewrite Em in L2. discriminate L2.
      * exfalso. destruct (Z.compare_spec e eo); try discriminate; lia.
Qed.

End FloatSign.

Section LedgerTheorems.
Import JS Simulator.
Local Open Scope float_scope.

(** What [fill] does with a sell order on a symbol that has no position:
    cash, positions and realized P&L stay, and the order is pushed onto
    [fills] exactly when it passes the guard. *)
Lemma fill_sell_no_position (o : Order.t) (sim : t) :
  Order.side o = sell ->
  positions sim !! Order.symbol o = None ->
  cash (fill o sim) = cash sim /\
  positions (fill o sim) = positions sim /\
  realizedPnl (fill o sim) = realizedPnl sim /\
  fills (fill o sim) =
    if (Order.qty o <=? 0) || negb (isFinite (Order.px o)) then fills sim
    else fills sim ++ [fillOfOrder o].
Proof.
  intros Hside Hpos. unfold fill. rewrite Hside, Hpos.
  destruct ((Order.qty o <=? 0) || negb (isFinite (Order.px o)));
    repeat split; reflexivity.
Qed.

(** C2, on the code: a sell of 10 shares at 5 for a symbol with no open
    position, submitted to a fresh ledger, leaves cash, positions and
    realized P&L as they were but appends a fill record for the order. *)
Theorem C2_sell_without_position_is_recorded :
  positions (new None) !! "ACME" = None /\
  fill (Order.mk sell "ACME" 10 1000 5 None None) (new None) =
    mk [SimFill.mk 1000 "ACME" sell 5 10 None]
       (cash (new None)) (positions (new None)) (realizedPnl (new None)) /\
  length (fills (fill (Order.mk sell "ACME" 10 1000 5 None None) (new None))) = 1%nat /\
  length (fills (new None)) = 0%nat.
Proof. vm_compute. repeat split; reflexivity. Qed.

(** C9: [tryExit] on a symbol with no open position returns the ledger
    as it is: no fill is appended and cash, positions and realized P&L are
    unchanged, for every last price and time. *)
Theorem C9_tryExit_no_position (sim : t) (symbol : string) (lastPx now : float) :
  positions sim !! symbol = None ->
  tryExit symbol lastPx now sim = sim /\
  fills (tryExit symbol lastPx now sim) = fills sim /\
  cash (tryExit symbol lastPx now sim) = cash sim /\
  positions (tryExit symbol lastPx now sim) = positions sim /\
  realizedPnl (tryExit symbol lastPx now sim) = realizedPnl sim.
Proof.
  intros H. unfold tryExit. rewrite H. repeat split; reflexivity.
Qed.

Lemma C9_tryExit_no_position_witness :
  tryExit "ACME" 10.5 60000 (new None) = new None /\
  fills (tryExit "ACME" 10.5 60000 (new None)) = fills (new None) /\
  cash (tryExit "ACME" 10.5 60000 (new None)) = cash (new None) /\
  positions (tryExit "ACME" 10.5 60000 (new None)) = positions (new None) /\
  realizedPnl (tryExit "ACME" 10.5 60000 (new None)) = realizedPnl (new None).
Proof.
  apply (C9_tryExit_no_position (new None) "ACME" 10.5 60000).
  reflexivity.
Defined.

(** The invariant holds of a new and of a reset ledger. *)
Lemma new_positive startingCash : positionsPositive (new startingCash).
Proof.
  intros symbol p H. unfold new in H. cbn [positions] in H.
  rewrite lookup_empty in H. discriminate H.
Qed.

Lemma reset_positive startingCash sim : positionsPositive (reset startingCash sim).
Proof.
  intros symbol p H. unfold reset in H. cbn [positions] in H.
  rewrite lookup_empty in H. discriminate H.
Qed.

(** Writing a position of positive quantity, or deleting one, keeps it. *)
Lemma insert_positive (m : gmap string Position.t) symbol p :
  (forall s q, m !! s = Some q -> (0 <? Position.qty q) = true) ->
  (0 <? Position.qty p) = true ->
  forall s q, <[symbol := p]> m !! s = Some q -> (0 <? Position.qty q) = true.
Proof.
  intros Hm Hp s q. destruct (decide (symbol = s)) as [->|Hne].
  - rewrite lookup_insert_eq. intros [= <-]. exact Hp.
  - rewrite lookup_insert_ne by assumption. apply Hm.
Qed.

Lemma delete_positive (m : gmap string Position.t) symbol :
  (forall s q, m !! s = Some q -> (0 <? Position.qty q) = true) ->
  forall s q, delete symbol m !! s = Some q -> (0 <? Position.qty q) = true.
Proof.
  intros Hm s q. destruct (decide (symbol = s)) as [->|Hne].
  - rewrite lookup_delete_eq. discriminate.
  - rewrite lookup_delete_ne by assumption. apply Hm.
Qed.

(** [fill] keeps the invariant when the quantity of the order is finite. *)
Lemma fill_positive (o : Order.t) (sim : t) :
  isFinite (Order.qty o) = true ->
  positionsPositive sim -> positionsPositive (fill o sim).
Proof.
  intros Hfin Hinv. unfold fill.
  destruct (Order.qty o <=? 0) eqn:Hq; cbn [orb]; [exact Hinv|].
  destruct (negb (isFinite (Order.px o))); [exact Hinv|].
  pose proof (finite_not_le_pos _ Hfin Hq) as Hpos.
  destruct (Order.side o).
  - destruct (positions sim !! Order.symbol o) as [p|] eqn:Hp;
      unfold positionsPositive; cbn [positions];
      apply insert_positive; try exact Hinv; cbn [Position.qty].
    + apply add_pos; [exact (Hinv _ _ Hp) | exact Hpos].
    + exact Hpos.
  - destruct (positions sim !! Order.symbol o) as [pos|] eqn:Hp; [|exact Hinv].
    destruct (Math_min (Order.qty o) (Position.qty pos) <=? 0); [exact Hinv|].
    destruct (sub_min_pos (Position.qty pos) (Order.qty o) (Hinv _ _ Hp) Hpos Hfin)
      as [Hz | Hgt].
    + rewrite Hz. unfold positionsPositive; cbn [positions].
      apply delete_positive. exact Hinv.
    + destruct (Position.qty pos - Math_min (Order.qty o) (Position.qty pos) =? 0);
        unfold positionsPositive; cbn [positions].
      * apply delete_positive. exact Hinv.
      * apply insert_positive; [exact Hinv|]. exact Hgt.
Qed.

(** [tryExit] keeps the invariant: it rewrites the high of a position or
    deletes the position. *)
Lemma tryExit_positive symbol lastPx now (sim : t) :
  positionsPositive sim -> positionsPositive (tryExit symbol lastPx now sim).
Proof.
  intros Hinv. unfold tryExit.
  destruct (positions sim !! symbol) as [p|] eqn:Hp; [|exact Hinv].
  unfold Exit.updateExit.
  destruct (_ <=? _); [|destruct (_ <=? _); [|destruct (_ && _)]];
    unfold positionsPositive; cbn [positions];
    try (apply delete_positive; exact Hinv).
  apply insert_positive; [exact Hinv|]. cbn. exact (Hinv _ _ Hp).
Qed.

(** Every run of [fill], [tryExit] and [reset] calls whose orders carry
    finite quantities keeps the invariant; in particular from a new or a
    reset ledger.  No position is ever stored with quantity 0: a position
    is in the map only with a quantity above zero. *)
Lemma run_positive (cs : list call) (sim : t) :
  Forall finiteQuantity cs ->
  positionsPositive sim -> positionsPositive (run cs sim).
Proof.
  unfold run. intros Hcs. revert sim.
  induction Hcs as [|c cs Hc _ IH]; intros sim Hinv; cbn [fold_left]; [exact Hinv|].
  apply IH. destruct c as [o|symbol lastPx now|startingCash]; cbn [step].
  - apply fill_positive; assumption.
  - apply tryExit_positive; assumption.
  - apply reset_positive.
Qed.

Lemma run_from_new_positive (cs : list call) startingCash :
  Forall finiteQuantity cs -> positionsPositive (run cs (new startingCash)).
Proof. intros H. apply run_positive; [exact H | apply new_positive]. Qed.

(** C6, on the code: the guard of [fill] lets a quantity through that is
    not a number ([NaN <= 0] is false), so a buy order with quantity NaN
    and a finite price, as the sizer returns for an equity that is NaN,
    creates a position whose quantity is not strictly positive; and after
    a buy and a sell of an infinite quantity the position is kept with
    quantity NaN instead of being deleted. *)
Theorem C6_non_finite_quantity_is_stored :
  positions (fill (Order.mk buy "ACME" nan 1000 5 None None) (new None)) !! "ACME"
    = Some (Position.mk "ACME" nan 5 1000 5) /\
  (0 <? nan) = false /\
  Order.qty (Entry.simulateEntry "ACME" 2 1000 None (Some nan)) = nan /\
  isFinite (Order.px (Entry.simulateEntry "ACME" 2 1000 None (Some nan))) = true /\
  option_map Position.qty
    (positions (fill (Entry.simulateEntry "ACME" 2 1000 None (Some nan)) (new None))
       !! "ACME") = Some nan /\
  option_map Position.qty
    (positions
       (run [Fill (Order.mk buy "ACME" infinity 1000 5 None None);
             Fill (Order.mk sell "ACME" infinity 2000 5 None None)] (new None))
       !! "ACME") = Some nan.
Proof. vm_compute. repeat split; reflexivity. Qed.

End LedgerTheorems.

Section GateTheorems.
Import JS PriceConfirm.
Local Open Scope float_scope.


(** The outcome of [getConfirm] reads the state through the symbol's
    three entries only. *)
Lemma getConfirm_entries env clock symbol priceNow st2 st :
  volumeWindows st2 !! symbol = volumeWindows st !! symbol ->
  vwapAccumulators st2 !! symbol = vwapAccumulators st !! symbol ->
  referencePrices st2 !! symbol = referencePrices st !! symbol ->
  fst (getConfirm env clock symbol priceNow st2) =
  fst (getConfirm env clock symbol priceNow st).
Proof.
  intros Hw Ha Hr. unfold getConfirm, read. rewrite Hw, Ha, Hr.
  destruct (volumeWindows st !! symbol); [reflexivity|].
  destruct (inherited symbol); reflexivity.
Qed.


(** C10: [getConfirm] leaves the state it was given, whether it returns
    or throws, so every symbol's window, accumulator and reference price
    are as before the call, and a second call with the same arguments has
    the outcome of the first: it throws if the first threw, and otherwise
    returns the same symbol, price, volZ, ret1m, vwapDev and pass (the two
    calls may read different clocks). *)
Theorem C10_getConfirm_read_only :
  forall env clock1 clock2 symbol priceNow st,
    snd (getConfirm env clock1 symbol priceNow st) = st /\
    (forall other,
        volumeWindows (snd (getConfirm env clock1 symbol priceNow st)) !! other =
          volumeWindows st !! other /\
        vwapAccumulators (snd (getConfirm env clock1 symbol priceNow st)) !! other =
          vwapAccumulators st !! other /\
        referencePrices (snd (getConfirm env clock1 symbol priceNow st)) !! other =
          referencePrices st !! other) /\
    fst (getConfirm env clock2 symbol priceNow
           (snd (getConfirm env clock1 symbol priceNow st))) =
      match fst (getConfirm env clock1 symbol priceNow st) with
      | Returned sig =>
          Returned (ConfirmSignal.mk (ConfirmSignal.symbol sig) clock2
                      (ConfirmSignal.price sig) (ConfirmSignal.volZ sig)
                      (ConfirmSignal.ret1m sig) (ConfirmSignal.vwapDev sig)
                      (ConfirmSignal.pass sig))
      | TypeError => TypeError
      end.
Proof.
  intros env clock1 clock2 symbol priceNow st.
  assert (E : snd (getConfirm env clock1 symbol priceNow st) = st).
  { unfold getConfirm. destruct (read (volumeWindows st) symbol); reflexivity. }
  rewrite E. repeat split.
  unfold getConfirm. destruct (read (volumeWindows st) symbol); reflexivity.
Qed.

End GateTheorems.

Section RegExpExamples.
Import Str RegExp.

(** The matcher on the examples the ECMAScript specification gives for
    alternatives, greedy and lazy quantifiers, backtracking into a group
    and the resetting of captures at each iteration. *)
Example alternative_order :
  matchArray (regex "a|ab" EmptyString) 0 (lit "abc") = Some [Some (lit "a")].
Proof. vm_compute. reflexivity. Qed.

Example alternative_captures :
  matchArray (regex "((a)|(ab))((c)|(bc))" EmptyString) 6 (lit "abc") =
  Some [Some (lit "abc"); Some (lit "a"); Some (lit "a"); None;
        Some (lit "bc"); None; Some (lit "bc")].
Proof. vm_compute. reflexivity. Qed.

Example greedy_bounded :
  matchArray (regex "a[a-z]{2,4}" EmptyString) 0 (lit "abcdefghi") = Some [Some (lit "abcde")].
Proof. vm_compute. reflexivity. Qed.

Example lazy_bounded :
  matchArray (regex "a[a-z]{2,4}?" EmptyString) 0 (lit "abcdefghi") = Some [Some (lit "abc")].
Proof. vm_compute. reflexivity. Qed.

Example star_backtracks :
  matchArray (regex "(aa|aabaac|ba|b|c)*" EmptyString) 1 (lit "aabaac") =
  Some [Some (lit "aaba"); Some (lit "ba")].
Proof. vm_compute. reflexivity. Qed.

Example captures_reset_per_iteration :
  matchArray (regex "(z)((a+)?(b+)?(c))*" EmptyString) 5 (lit "zaacbbbcac") =
  Some [Some (lit "zaacbbbcac"); Some (lit "z"); Some (lit "ac");
        Some (lit "a"); None; Some (lit "c")].
Proof. vm_compute. reflexivity. Qed.

Example empty_iteration_rejected :
  matchArray (regex "(a*)*" EmptyString) 1 (lit "b") = Some [Some []; None].
Proof. vm_compute. reflexivity. Qed.

Example word_boundary_and_case :
  test (regex "\b(class action|investigat(?:ion|ing))\b" "i")
       (lit "ACME faces Class Action lawsuit") = true /\
  test (regex "\b(class action|investigat(?:ion|ing))\b" "i")
       (lit "subclass actions and investigations") = false /\
  test (regex "\b(class action|investigat(?:ion|ing))\b" EmptyString)
       (lit "ACME faces Class Action lawsuit") = false.
Proof. vm_compute. repeat split; reflexivity. Qed.

(** The dot stops at a line terminator, so a pattern with [.*] does not
    join the title and the summary of an item. *)
Example dot_stops_at_line_feed :
  test Classify.PAT.approval (lit "FDA decision expected" ++ [10%N] ++ lit "approval") = false /\
  test Classify.PAT.approval (lit "FDA decision expected: approval") = true.
Proof. vm_compute. repeat split; reflexivity. Qed.

End RegExpExamples.

Section ClassifierTheorems.
Import JS Str RegExp Classify.
Local Open Scope float_scope.

(** Every pattern of the classifier and of the scorer is in the syntax
    the parser reads: none of them is the pattern that matches nothing. *)
Lemma all_patterns_parse :
  forallb (fun r => match pattern r with Some _ => true | None => false end)
          Examples.allPatterns = true.
Proof. vm_compute. reflexivity. Qed.

(** C5: an item whose normalized text (title, line feed, summary) matches
    the law-firm pattern or the awards pattern is classified [OTHER] with
    raw score 0, whatever the URL parser of the runtime and whatever else
    the text matches; [classify] gives it that class and score. *)
Theorem C5_lawfirm_awards_guards
    (hostname : jsstring -> option jsstring) (it : RawItem.t) :
  test PAT.lawFirmPR (textOf it) = true \/ test PAT.awardsPR (textOf it) = true ->
  classifyOne hostname it = (OTHER, 0) /\
  classify hostname [it] = [ClassifiedItem.mk it OTHER 0].
Proof.
  intros H.
  assert (Hone : classifyOne hostname it = (OTHER, 0)).
  { unfold classifyOne. cbv zeta. fold (textOf it).
    destruct (test PAT.securityIncidentUpdate (textOf it)); [reflexivity|].
    destruct (test PAT.awardsPR (textOf it)) eqn:Haw; [reflexivity|].
    destruct ((test PAT.proxyAdvisor (textOf it) || test PAT.voteAdminOnly (textOf it))
              && negb (test PAT.mnaBinding (textOf it))); [reflexivity|].
    destruct (test PAT.investorConfs (textOf it)); [reflexivity|].
    destruct H as [Hlaw | Habs]; [|discriminate Habs].
    rewrite Hlaw. reflexivity. }
  split; [exact Hone|].
  unfold classify. cbn [map]. rewrite Hone. reflexivity.
Qed.

(** An item with law-firm wording next to a definitive, priced merger
    announcement on a wire: the guard decides. *)
Lemma C5_lawfirm_awards_guards_witness :
  classifyOne Examples.hostname
    (Examples.item (Some "https://www.prnewswire.com/news/acme")
       "Pomerantz Law Firm reminds investors: Acme to be acquired for $12.50 per share"
       "PR Newswire -- Acme entered into a definitive agreement" ["ACME"] None)
  = (OTHER, 0) /\
  classify Examples.hostname
    [Examples.item (Some "https://www.prnewswire.com/news/acme")
       "Pomerantz Law Firm reminds investors: Acme to be acquired for $12.50 per share"
       "PR Newswire -- Acme entered into a definitive agreement" ["ACME"] None]
  = [ClassifiedItem.mk
       (Examples.item (Some "https://www.prnewswire.com/news/acme")
          "Pomerantz Law Firm reminds investors: Acme to be acquired for $12.50 per share"
          "PR Newswire -- Acme entered into a definitive agreement" ["ACME"] None)
       OTHER 0].
Proof.
  apply (C5_lawfirm_awards_guards Examples.hostname).
  left. vm_compute. reflexivity.
Defined.

(** The same announcement without the law-firm wording is an acquisition
    with raw score 9: the positive detectors were there. *)
Example guard_hides_a_positive_match :
  classifyOne Examples.hostname
    (Examples.item (Some "https://www.prnewswire.com/news/acme")
       "Acme to be acquired for $12.50 per share"
       "PR Newswire -- Acme entered into a definitive agreement" ["ACME"] None)
  = (ACQUISITION_BUYOUT, 9).
Proof. vm_compute. reflexivity. Qed.

End ClassifierTheorems.

Section ScorerTheorems.
Import JS Str RegExp Score.
Local Open Scope float_scope.

(** C3, as the claim states it, fails: class and text do not determine
    the score.  Each pair below has the same class and the same title and
    summary; the two items differ in market capitalisation, in the number
    of symbols, or in the URL, and get different scores. *)
Lemma C3_same_class_and_text_different_scores :
  (let a := ClassifiedItem.mk (Examples.item None "hello" "world" ["ACME"] (Some 500000000)) OTHER 0 in
   let b := ClassifiedItem.mk (Examples.item None "hello" "world" ["ACME"] None) OTHER 0 in
   ClassifiedItem.klass a = ClassifiedItem.klass b /\ blobOf a = blobOf b /\
   ClassifiedItem.score (scoreOne Examples.hostname a) = 0.37 /\
   ClassifiedItem.score (scoreOne Examples.hostname b) = 0.23000000000000001) /\
  (let a := ClassifiedItem.mk (Examples.item None "hello" "world" ["ACME"] None) OTHER 0 in
   let b := ClassifiedItem.mk (Examples.item None "hello" "world" ["ACME"; "GLBX"] None) OTHER 0 in
   ClassifiedItem.klass a = ClassifiedItem.klass b /\ blobOf a = blobOf b /\
   ClassifiedItem.score (scoreOne Examples.hostname a) = 0.23000000000000001 /\
   ClassifiedItem.score (scoreOne Examples.hostname b) = 0.2) /\
  (let a := ClassifiedItem.mk
              (Examples.item (Some "https://www.prnewswire.com/news/acme")
                 "Company X Receives FDA Approval for Drug Y" EmptyString [] None)
              FDA_MARKETING_AUTH 10 in
   let b := ClassifiedItem.mk
              (Examples.item None
                 "Company X Receives FDA Approval for Drug Y" EmptyString [] None)
              FDA_MARKETING_AUTH 10 in
   ClassifiedItem.klass a = ClassifiedItem.klass b /\ blobOf a = blobOf b /\
   ClassifiedItem.score (scoreOne Examples.hostname a) = 0.74 /\
   ClassifiedItem.score (scoreOne Examples.hostname b) = 0.48).
Proof. vm_compute. repeat split; reflexivity. Qed.

(** C3 (amended): the score computed by [score] is a function of the
    item's class, its title-plus-summary text, its URL, its market
    capitalisation and its number of symbols, and of nothing else (not of
    the score the item carries, nor of any state): two items equal in
    these five get the same score, and scoring an already scored item, or
    a scored batch, changes nothing. *)
Theorem C3_score_is_a_function
    (hostname : jsstring -> option jsstring) (a b : ClassifiedItem.t) :
  ClassifiedItem.klass a = ClassifiedItem.klass b ->
  blobOf a = blobOf b ->
  RawItem.url (ClassifiedItem.item a) = RawItem.url (ClassifiedItem.item b) ->
  RawItem.marketCap (ClassifiedItem.item a) = RawItem.marketCap (ClassifiedItem.item b) ->
  symbolCount a = symbolCount b ->
  ClassifiedItem.score (scoreOne hostname a) = ClassifiedItem.score (scoreOne hostname b) /\
  scoreOne hostname (scoreOne hostname a) = scoreOne hostname a /\
  (forall items, score hostname (score hostname items) = score hostname items).
Proof.
  intros Hk Hb Hu Hm Hn.
  assert (Hidem : forall it, scoreOne hostname (scoreOne hostname it) = scoreOne hostname it).
  { intros it. unfold scoreOne, blobOf, symbolCount.
    cbn [ClassifiedItem.item ClassifiedItem.klass]. reflexivity. }
  split; [|split].
  - unfold scoreOne. cbn [ClassifiedItem.score].
    rewrite Hk, Hb, Hu, Hm, Hn. reflexivity.
  - apply Hidem.
  - intros items. unfold score. rewrite map_map.
    apply map_ext. exact Hidem.
Qed.

(** Two items that differ in identifier, source, date, symbol names and
    incoming score, and agree on the five things that are read. *)
Lemma C3_score_is_a_function_witness :
  ClassifiedItem.score
    (scoreOne Examples.hostname
       (ClassifiedItem.mk
          (RawItem.mk (lit "a-1") None (Some (lit "Acme doubled revenue")) None
             (lit "fmp_pr") (lit "2025-01-02") (Some ["ACME"]) (Some 500000000))
          EARNINGS_BEAT_OR_GUIDE_UP 6)) =
  ClassifiedItem.score
    (scoreOne Examples.hostname
       (ClassifiedItem.mk
          (RawItem.mk (lit "b-2") None (Some (lit "Acme doubled revenue")) (Some [])
             (lit "marketaux") (lit "2025-03-04") (Some ["GLBX"]) (Some 500000000))
          EARNINGS_BEAT_OR_GUIDE_UP 0)) /\
  scoreOne Examples.hostname
    (scoreOne Examples.hostname
       (ClassifiedItem.mk
          (RawItem.mk (lit "a-1") None (Some (lit "Acme doubled revenue")) None
             (lit "fmp_pr") (lit "2025-01-02") (Some ["ACME"]) (Some 500000000))
          EARNINGS_BEAT_OR_GUIDE_UP 6)) =
  scoreOne Examples.hostname
    (ClassifiedItem.mk
       (RawItem.mk (lit "a-1") None (Some (lit "Acme doubled revenue")) None
          (lit "fmp_pr") (lit "2025-01-02") (Some ["ACME"]) (Some 500000000))
       EARNINGS_BEAT_OR_GUIDE_UP 6) /\
  (forall items,
      score Examples.hostname (score Examples.hostname items) =
      score Examples.hostname items).
Proof.
  apply (C3_score_is_a_function Examples.hostname); reflexivity.
Defined.

End ScorerTheorems.

(* ===================================================================== *)
(** * Further properties of the code *)
(* ===================================================================== *)

Section FloatCompare.
Import JS SF.
Local Open Scope float_scope.

(** The comparison of the specification is antisymmetric, and reflexive
    away from NaN. *)
Lemma SFcompare_antisym a b :
  SFcompare b a = option_map CompOpp (SFcompare a b).
Proof.
  destruct a as [sa|sa| |sa ma ea], b as [sb|sb| |sb mb eb];
    try destruct sa; try destruct sb; try reflexivity;
    cbn [SFcompare option_map]; f_equal;
    rewrite (Z.compare_antisym ea eb); destruct (ea ?= eb)%Z; cbn [CompOpp];
    try reflexivity;
    change (Pos.compare_cont Eq mb ma) with (Pos.compare_cont (CompOpp Eq) mb ma);
    rewrite <- Pos.compare_cont_antisym; reflexivity.
Qed.

Lemma SFcompare_refl a : SFisNaN a = false -> SFcompare a a = Some Eq.
Proof.
  destruct a as [s|s| |s m e]; try destruct s; try reflexivity; try discriminate;
    intros _; cbn [SFcompare]; rewrite Z.compare_refl;
    change (Pos.compare_cont Eq m m) with (Pos.compare m m);
    rewrite Pos.compare_refl; reflexivity.
Qed.

Lemma isNaN_spec x : isNaN x = SFisNaN (Prim2SF x).
Proof.
  unfold isNaN. rewrite FloatAxioms.eqb_spec. unfold SFeqb.
  destruct (SFisNaN (Prim2SF x)) eqn:E.
  - destruct (Prim2SF x); try discriminate. reflexivity.
  - rewrite SFcompare_refl by assumption. reflexivity.
Qed.

Lemma ltb_irrefl x : (x <? x) = false.
Proof.
  rewrite FloatAxioms.ltb_spec. unfold SFltb.
  destruct (SFisNaN (Prim2SF x)) eqn:E.
  - destruct (Prim2SF x); try discriminate. reflexivity.
  - rewrite SFcompare_refl by assumption. reflexivity.
Qed.

Lemma ltb_asym x y : (x <? y) = true -> (y <? x) = false.
Proof.
  rewrite !FloatAxioms.ltb_spec. unfold SFltb.
  rewrite (SFcompare_antisym (Prim2SF x) (Prim2SF y)).
  destruct (SFcompare (Prim2SF x) (Prim2SF y)) as [[]|]; cbn; congruence.
Qed.

Lemma ltb_not_NaN x y : (x <? y) = true -> isNaN x = false /\ isNaN y = false.
Proof.
  rewrite !isNaN_spec, FloatAxioms.ltb_spec. unfold SFltb.
  destruct (Prim2SF x), (Prim2SF y); cbn; intros H; try discriminate; split; reflexivity.
Qed.

Lemma nan_ltb (x : float) : (nan <? x) = false.
Proof. rewrite FloatAxioms.ltb_spec. reflexivity. Qed.

(** [Math.max] is below neither argument. *)
Lemma Math_max_not_below x y :
  (Math_max x y <? x) = false /\ (Math_max x y <? y) = false.
Proof.
  unfold Math_max.
  destruct (isNaN x || isNaN y) eqn:N; [split; apply nan_ltb|].
  apply orb_false_elim in N as [Nx Ny].
  destruct (x <? y) eqn:L1; [split; [apply ltb_asym; assumption | apply ltb_irrefl]|].
  destruct (y <? x) eqn:L2; [split; [apply ltb_irrefl | apply ltb_asym; assumption]|].
  destruct (x =? 0) eqn:Z0; [|split; [apply ltb_irrefl | assumption]].
  revert Nx Ny L1 L2 Z0.
  rewrite !isNaN_spec, !FloatAxioms.ltb_spec, FloatAxioms.eqb_spec, add_spec.
  change (Prim2SF 0) with (S754_zero false).
  destruct (Prim2SF x) as [sx|sx| |sx mx ex]; try destruct sx; cbn; try discriminate;
    destruct (Prim2SF y) as [sy|sy| |sy my ey]; try destruct sy; cbn; try discriminate;
    intros; split; reflexivity.
Qed.

Lemma Math_max_new_high h l : (h <? l) = true -> Math_max h l = l.
Proof.
  intros L. destruct (ltb_not_NaN h l L) as [Nh Nl].
  unfold Math_max. rewrite Nh, Nl, L. reflexivity.
Qed.

Lemma SF_finite_props x s m e :
  Prim2SF x = S754_finite s m e -> isFinite x = true /\ (x =? 0) = false.
Proof.
  intros H. unfold isFinite.
  rewrite FloatAxioms.ltb_spec, FloatAxioms.abs_spec, FloatAxioms.eqb_spec, H.
  change (Prim2SF 0) with (S754_zero false).
  change (Prim2SF infinity) with (S754_infinity false).
  destruct s; split; reflexivity.
Qed.

Lemma SFpos_compare_eq a b :
  SFpos a -> SFcompare a b = Some Eq -> a = b.
Proof.
  destruct a as [s|s| |s m e]; try contradiction; destruct s; try contradiction; intros _;
  destruct b as [s'|s'| |s' m' e']; cbn; try discriminate; try destruct s'; try discriminate.
  - reflexivity.
  - destruct (Z.compare_spec e e') as [E|E|E]; try discriminate.
    change (Pos.compare_cont Eq m m') with (Pos.compare m m').
    destruct (Pos.compare_spec m m') as [E'|E'|E']; try discriminate.
    intros _. congruence.
Qed.

(** A finite float minus itself is [+0]. *)
Lemma sub_self x : isFinite x = true -> x - x = 0.
Proof.
  intros H. apply Prim2SF_inj. rewrite sub_spec.
  change (Prim2SF 0) with (S754_zero false).
  revert H. unfold isFinite.
  rewrite FloatAxioms.ltb_spec, FloatAxioms.abs_spec.
  change (Prim2SF infinity) with (S754_infinity false).
  destruct (Prim2SF x) as [s|s| |s m e]; cbn -[Z.sub]; try discriminate; intros _.
  - destruct s; reflexivity.
  - unfold SF64sub, SFsub. rewrite Z.sub_diag. reflexivity.
Qed.

Lemma SFleb_pos a b : SFpos a -> SFleb a b = true -> SFpos b.
Proof.
  unfold SFleb.
  destruct a as [s|s| |s m e]; try contradiction; destruct s; try contradiction; intros _;
  destruct b as [s'|s'| |s' m' e']; cbn; try discriminate; try destruct s'; try discriminate;
    intros _; exact I.
Qed.

(** [Math.min] of an order quantity and a positive held quantity not
    above it is the held quantity. *)
Lemma Math_min_held o p :
  (0 <? p) = true -> (p <=? o) = true -> Math_min o p = p.
Proof.
  intros Hp Hle.
  pose proof (pos_not_NaN p Hp) as Np.
  apply pos_iff in Hp.
  revert Hle. rewrite FloatAxioms.leb_spec. intros Hle.
  assert (Po : SFpos (Prim2SF o)) by (eapply SFleb_pos; eassumption).
  assert (No : isNaN o = false) by (apply pos_not_NaN, pos_iff; exact Po).
  unfold Math_min. rewrite No, Np. cbn [orb].
  rewrite !FloatAxioms.ltb_spec, FloatAxioms.eqb_spec.
  unfold SFleb in Hle. unfold SFltb.
  destruct (SFcompare (Prim2SF p) (Prim2SF o)) as [[]|] eqn:C; try discriminate.
  - pose proof C as C0.
    apply SFpos_compare_eq in C0; [|exact Hp]. apply Prim2SF_inj in C0. subst o.
    rewrite C.
    destruct (SFeqb (Prim2SF p) (Prim2SF 0)) eqn:Z; [|reflexivity].
    exfalso. change (Prim2SF 0) with (S754_zero false) in Z.
    destruct (Prim2SF p) as [s|s| |s m e]; try contradiction; destruct s; try contradiction;
      cbn in Z; discriminate.
  - rewrite (SFcompare_antisym (Prim2SF p) (Prim2SF o)), C. reflexivity.
Qed.

Lemma float_mul_comm (x y : float) : x * y = y * x.
Proof.
  apply Prim2SF_inj. rewrite !mul_spec. unfold SF64mul, SFmul.
  destruct (Prim2SF x) as [s|s| |s m e], (Prim2SF y) as [s'|s'| |s' m' e'];
    try reflexivity; try (rewrite xorb_comm; reflexivity).
  rewrite xorb_comm, Pos.mul_comm, Z.add_comm. reflexivity.
Qed.

Lemma pos_le_not_le0 p o : (0 <? p) = true -> (p <=? o) = true -> (o <=? 0) = false.
Proof.
  rewrite pos_iff, !FloatAxioms.leb_spec. intros Hp Hle.
  pose proof (SFleb_pos _ _ Hp Hle) as Po.
  change (Prim2SF 0) with (S754_zero false).
  destruct (Prim2SF o) as [s|s| |s m e]; try contradiction; destruct s; try contradiction;
    reflexivity.
Qed.

Lemma pos_not_le0 q : (0 <? q) = true -> (q <=? 0) = false.
Proof.
  rewrite pos_iff, FloatAxioms.leb_spec.
  change (Prim2SF 0) with (S754_zero false).
  destruct (Prim2SF q) as [s|s| |s m e]; try contradiction;
    destruct s; try contradiction; reflexivity.
Qed.

Lemma leb_refl_pos q : (0 <? q) = true -> (q <=? q) = true.
Proof.
  rewrite pos_iff, FloatAxioms.leb_spec. intros H.
  pose proof (SFeqb_refl_pos _ H) as R. unfold SFeqb in R. unfold SFleb.
  destruct (SFcompare (Prim2SF q) (Prim2SF q)) as [[]|]; congruence.
Qed.

(** [Math.min(1, s)] of a number above zero. *)
Lemma Math_min_one s :
  (0 <? s) = true ->
  (0 <? Math_min 1 s) = true /\ (Math_min 1 s <=? 1) = true.
Proof.
  intros Hs. pose proof (pos_not_NaN s Hs) as Ns.
  assert (M : Math_min 1 s = (if 1 <? s then 1 else if s <? 1 then s else 1)).
  { unfold Math_min. rewrite Ns. reflexivity. }
  rewrite M. destruct (1 <? s); [split; reflexivity|].
  destruct (s <? 1) eqn:L; [|split; reflexivity].
  split; [exact Hs | apply ltb_leb; exact L].
Qed.

End FloatCompare.

Section IntegerFloats.
Import JS SF.
Local Open Scope Z_scope.

Lemma digits2_iter_xO p k :
  Z.pos (digits2_pos (Pos.iter xO p k)) = Z.pos (digits2_pos p) + Z.pos k.
Proof.
  induction k as [|k IH] using Pos.peano_ind.
  - cbn. lia.
  - rewrite Pos.iter_succ. cbn [digits2_pos]. rewrite Pos2Z.inj_succ, IH. lia.
Qed.

Lemma intSF_digits p :
  Z.pos (digits2_pos p) <= 53 ->
  Z.pos (digits2_pos (fst (shl_align p 0 (Z.pos (digits2_pos p) - 53)))) = 53.
Proof.
  intros H. unfold shl_align.
  destruct (Z.pos (digits2_pos p) - 53 - 0) as [|k|k] eqn:E; cbn [fst]; try lia.
  rewrite digits2_iter_xO. lia.
Qed.

(** Rounding an integer of at most 53 digits changes nothing. *)
Lemma binary_round_int p :
  Z.pos (digits2_pos p) <= 53 ->
  binary_round prec emax false p 0 = intSF p.
Proof.
  intros H. unfold binary_round, intSF.
  rewrite fexp_eq, Z.add_0_r.
  replace (Z.max (Z.pos (digits2_pos p) - 53) (-1074)) with (Z.pos (digits2_pos p) - 53) by lia.
  pose proof (intSF_digits p H) as Hd.
  assert (He : snd (shl_align p 0 (Z.pos (digits2_pos p) - 53)) = Z.pos (digits2_pos p) - 53).
  { unfold shl_align.
    destruct (Z.pos (digits2_pos p) - 53 - 0) as [|k|k] eqn:E; cbn [snd]; lia. }
  destruct (shl_align p 0 (Z.pos (digits2_pos p) - 53)) as [mz ez]. cbn [fst snd] in *.
  subst ez. set (e := Z.pos (digits2_pos p) - 53) in *.
  unfold binary_round_aux, shr_fexp. cbn [Zdigits2 shr_record_of_loc].
  rewrite fexp_eq, Hd.
  replace (Z.max (53 + e - 53) (-1074) - e) with 0 by lia.
  cbn [shr shr_m loc_of_shr_record round_nearest_even Zdigits2 shr_record_of_loc].
  rewrite fexp_eq, Hd.
  replace (Z.max (53 + e - 53) (-1074) - e) with 0 by lia.
  cbn [shr shr_m].
  replace (e <=? emax - prec) with true; [reflexivity|].
  symmetry. apply Z.leb_le. change (emax - prec) with 971. lia.
Qed.

Lemma intSF_valid p :
  Z.pos (digits2_pos p) <= 53 -> valid_binary (intSF p) = true.
Proof.
  intros H. unfold intSF. cbn [SpecFloat.valid_binary]. unfold bounded, canonical_mantissa.
  rewrite fexp_eq, (intSF_digits p H).
  apply andb_true_intro. split.
  - apply Z.eqb_eq. lia.
  - apply Z.leb_le. change (emax - prec) with 971. lia.
Qed.

Lemma lt_pow_digits p : Z.pos p < 2 ^ 53 -> Z.pos (digits2_pos p) <= 53.
Proof.
  intros H. pose proof (digits2_bounds p) as [Hlo _].
  destruct (Z_le_gt_dec (Z.pos (digits2_pos p)) 53) as [|G]; [assumption|].
  exfalso. assert (2 ^ 53 <= 2 ^ (Z.pos (digits2_pos p) - 1)) by (apply Z.pow_le_mono_r; lia).
  lia.
Qed.

Lemma Prim2SF_Z2F_pos p :
  Z.pos p < 2 ^ 53 -> Prim2SF (Z2F (Z.pos p)) = intSF p.
Proof.
  intros H. apply lt_pow_digits in H. unfold Z2F. cbn [binary_normalize].
  rewrite binary_round_int by assumption.
  apply Prim2SF_SF2Prim, intSF_valid. assumption.
Qed.

Lemma intSF_value p :
  Z.pos (digits2_pos p) <= 53 ->
  Z.pos (fst (shl_align p 0 (Z.pos (digits2_pos p) - 53))) =
  Z.pos p * 2 ^ (53 - Z.pos (digits2_pos p)).
Proof.
  intros H. rewrite shl_align_fst by lia. f_equal. f_equal. lia.
Qed.

Lemma intSF_compare a b :
  Z.pos a < 2 ^ 53 -> Z.pos b < 2 ^ 53 ->
  SFcompare (intSF a) (intSF b) = Some (Z.pos a ?= Z.pos b).
Proof.
  intros Ha Hb. apply lt_pow_digits in Ha, Hb.
  pose proof (digits2_bounds a) as [Hla Hha]. pose proof (digits2_bounds b) as [Hlb Hhb].
  pose proof (intSF_value a Ha) as Va. pose proof (intSF_value b Hb) as Vb.
  unfold intSF, SFcompare. f_equal.
  change (Pos.compare_cont Eq ?x ?y) with (Pos.compare x y).
  set (ma := fst (shl_align a 0 (Z.pos (digits2_pos a) - 53))) in *.
  set (mb := fst (shl_align b 0 (Z.pos (digits2_pos b) - 53))) in *.
  set (da := Z.pos (digits2_pos a)) in *. set (db := Z.pos (digits2_pos b)) in *.
  change (Z.pos a ?= Z.pos b) with (Pos.compare a b).
  destruct (Z.compare_spec (da - 53) (db - 53)) as [E|E|E].
  - assert (D : da = db) by lia. rewrite <- D in Vb.
    assert (0 < 2 ^ (53 - da)) by (apply Z.pow_pos_nonneg; lia).
    destruct (Pos.compare_spec a b) as [F|F|F].
    + subst b. apply Pos.compare_eq_iff. lia.
    + apply Pos.compare_lt_iff. nia.
    + apply Pos.compare_gt_iff. nia.
  - symmetry. apply Pos.compare_lt_iff.
    assert (2 ^ da <= 2 ^ (db - 1)) by (apply Z.pow_le_mono_r; lia). lia.
  - symmetry. apply Pos.compare_gt_iff.
    assert (2 ^ db <= 2 ^ (da - 1)) by (apply Z.pow_le_mono_r; lia). lia.
Qed.

(** Integers from 0 to [2^53 - 1] compare as floats the way they compare
    as integers: a length and a capacity are compared exactly. *)
Lemma Z2F_compare a b :
  0 <= a < 2 ^ 53 -> 0 <= b < 2 ^ 53 ->
  SFcompare (Prim2SF (Z2F a)) (Prim2SF (Z2F b)) = Some (a ?= b).
Proof.
  intros Ha Hb.
  destruct a as [|a|a]; [| |lia]; destruct b as [|b|b]; try lia.
  - reflexivity.
  - rewrite Prim2SF_Z2F_pos by lia. reflexivity.
  - rewrite Prim2SF_Z2F_pos by lia. reflexivity.
  - rewrite !Prim2SF_Z2F_pos by lia. apply intSF_compare; lia.
Qed.

Lemma Z2F_ltb a b :
  0 <= a < 2 ^ 53 -> 0 <= b < 2 ^ 53 -> (Z2F a <? Z2F b)%float = (a <? b).
Proof.
  intros Ha Hb. rewrite FloatAxioms.ltb_spec. unfold SFltb.
  rewrite Z2F_compare by assumption. unfold Z.ltb. destruct (a ?= b); reflexivity.
Qed.

End IntegerFloats.

Section LedgerExtras.
Import JS Simulator Ledger Entry.
Local Open Scope float_scope.

Lemma step_other_symbol (c : call) (sim : t) (other : string) :
  (forall s, callSymbol c = Some s -> s <> other) ->
  isReset c = false ->
  positions (step c sim) !! other = positions sim !! other.
Proof.
  intros Hs Hr. destruct c as [o|symbol lastPx now|sc]; [| |discriminate Hr]; cbn [step].
  - assert (Hne : Order.symbol o <> other) by (apply Hs; reflexivity).
    unfold fill.
    destruct (_ || _); [reflexivity|].
    destruct (Order.side o); destruct (positions sim !! Order.symbol o);
      repeat (match goal with |- context [if ?b then _ else _] => destruct b end);
      cbn [positions];
      rewrite ?lookup_insert_ne, ?lookup_delete_ne by assumption; reflexivity.
  - assert (Hne : symbol <> other) by (apply Hs; reflexivity).
    unfold tryExit. destruct (positions sim !! symbol); [|reflexivity].
    destruct (Exit.updateExit _ _ _) as [p' [d|]]; cbn [positions];
      rewrite ?lookup_insert_ne, ?lookup_delete_ne by assumption; reflexivity.
Qed.

(** X1: orders and exit checks for one symbol never touch the position
    of another: after any run of [fill] and [tryExit] calls on other
    symbols, a symbol's entry in [positions] is what it was. *)
Theorem run_other_symbol (cs : list call) (sim : t) (other : string) :
  Forall (fun c => isReset c = false /\ forall s, callSymbol c = Some s -> s <> other) cs ->
  positions (run cs sim) !! other = positions sim !! other.
Proof.
  unfold run. intros H. revert sim.
  induction H as [|c cs [Hr Hs] _ IH]; intros sim; cbn [fold_left]; [reflexivity|].
  rewrite IH. apply step_other_symbol; assumption.
Qed.

(** Three calls on ACME, on a ledger that holds GLBX. *)
Lemma run_other_symbol_witness :
  positions (run Samples.acmeCalls Samples.ledgerWithGlbx) !! "GLBX" =
  positions Samples.ledgerWithGlbx !! "GLBX".
Proof.
  apply (run_other_symbol Samples.acmeCalls Samples.ledgerWithGlbx "GLBX").
  repeat constructor; intros s [= <-]; discriminate.
Defined.

Lemma step_fills (c : call) (sim : t) :
  isReset c = false ->
  fills (step c sim) = fills sim \/ exists f, fills (step c sim) = fills sim ++ [f].
Proof.
  intros Hr. destruct c as [o|symbol lastPx now|sc]; [| |discriminate Hr]; cbn [step].
  - unfold fill. destruct (_ || _); [left; reflexivity|].
    right. exists (fillOfOrder o).
    destruct (Order.side o); destruct (positions sim !! Order.symbol o);
      repeat (match goal with |- context [if ?b then _ else _] => destruct b end);
      reflexivity.
  - unfold tryExit. destruct (positions sim !! symbol); [|left; reflexivity].
    destruct (Exit.updateExit _ _ _) as [p' [d|]]; cbn [fills]; [right|left]; eauto.
Qed.

(** X2: the fill log is append-only between resets: after any run of
    [fill] and [tryExit] calls the old log is a prefix of the new one,
    and each call adds at most one record. *)
Theorem run_fills_append_only (cs : list call) (sim : t) :
  Forall (fun c => isReset c = false) cs ->
  fills sim `prefix_of` fills (run cs sim) /\
  (List.length (fills (run cs sim)) <= List.length (fills sim) + List.length cs)%nat.
Proof.
  unfold run. intros H. revert sim.
  induction H as [|c cs Hr _ IH]; intros sim; cbn [fold_left].
  - split; [reflexivity | cbn; lia].
  - destruct (IH (step c sim)) as [Hp Hl].
    destruct (step_fills c sim Hr) as [E | [f E]]; rewrite E in *.
    + split; [exact Hp | cbn [List.length]; lia].
    + split.
      * etransitivity; [|exact Hp]. apply prefix_app_r. reflexivity.
      * rewrite length_app in Hl. cbn [List.length] in *. lia.
Qed.

Lemma run_fills_append_only_witness :
  fills Samples.ledgerWithGlbx `prefix_of` fills (run Samples.acmeCalls Samples.ledgerWithGlbx) /\
  (List.length (fills (run Samples.acmeCalls Samples.ledgerWithGlbx))
   <= List.length (fills Samples.ledgerWithGlbx) + List.length Samples.acmeCalls)%nat.
Proof.
  apply (run_fills_append_only Samples.acmeCalls Samples.ledgerWithGlbx).
  repeat constructor.
Defined.

Lemma fill_sell_all (o : Order.t) (sim : t) (pos : Position.t) :
  Order.side o = sell ->
  positions sim !! Order.symbol o = Some pos ->
  (0 <? Position.qty pos) = true ->
  isFinite (Position.qty pos) = true ->
  (Position.qty pos <=? Order.qty o) = true ->
  isFinite (Order.px o) = true ->
  fill o sim =
    mk (fills sim ++ [fillOfOrder o])
       (cash sim + Order.px o * Position.qty pos)
       (delete (Order.symbol o) (positions sim))
       (realizedPnl sim + (Order.px o - Position.avg pos) * Position.qty pos).
Proof.
  intros Hside Hp Hpos Hfin Hle Hpx. unfold fill.
  rewrite (pos_le_not_le0 _ _ Hpos Hle), Hpx, Hside, Hp. cbn [orb negb].
  rewrite (Math_min_held _ _ Hpos Hle).
  rewrite (pos_not_le0 _ Hpos), (sub_self _ Hfin).
  change (0 =? 0) with true. reflexivity.
Qed.

(** X3: a sell order for at least the held quantity closes the position:
    the held quantity (not the ordered one) is sold at the order price,
    cash and realized P&L are credited for it, the symbol is removed from
    [positions], and the record logged carries the ordered quantity. *)
Theorem sell_all_closes (o : Order.t) (sim : t) (pos : Position.t) :
  Order.side o = sell ->
  positions sim !! Order.symbol o = Some pos ->
  (0 <? Position.qty pos) = true ->
  isFinite (Position.qty pos) = true ->
  (Position.qty pos <=? Order.qty o) = true ->
  isFinite (Order.px o) = true ->
  fill o sim =
    mk (fills sim ++ [fillOfOrder o])
       (cash sim + Order.px o * Position.qty pos)
       (delete (Order.symbol o) (positions sim))
       (realizedPnl sim + (Order.px o - Position.avg pos) * Position.qty pos).
Proof. apply fill_sell_all. Qed.

(** Ten ACME shares held at 5, a sell order for ten at 6. *)
Lemma sell_all_closes_witness :
  fill Samples.sellAcme Samples.ledgerWithAcme =
    mk (fills Samples.ledgerWithAcme ++ [fillOfOrder Samples.sellAcme])
       (cash Samples.ledgerWithAcme + Order.px Samples.sellAcme * Position.qty Samples.acme)
       (delete (Order.symbol Samples.sellAcme) (positions Samples.ledgerWithAcme))
       (realizedPnl Samples.ledgerWithAcme
        + (Order.px Samples.sellAcme - Position.avg Samples.acme) * Position.qty Samples.acme).
Proof.
  apply (sell_all_closes Samples.sellAcme Samples.ledgerWithAcme Samples.acme);
    vm_compute; reflexivity.
Defined.

(** X4: buying a finite positive quantity of a symbol that is not held
    and selling the same quantity restores [positions], logs the two
    fills, and leaves cash and realized P&L changed by the two legs. *)
Theorem buy_then_sell_all (sim : t) (s : string) (q p1 p2 t1 t2 : float)
    (stop1 stop2 notional1 notional2 : option float) :
  positions sim !! s = None ->
  isFinite q = true -> (q <=? 0) = false ->
  isFinite p1 = true -> isFinite p2 = true ->
  fill (Order.mk sell s q t2 p2 stop2 notional2)
       (fill (Order.mk buy s q t1 p1 stop1 notional1) sim) =
  mk (fills sim ++ [SimFill.mk t1 s buy p1 q None; SimFill.mk t2 s sell p2 q None])
     (cash sim - p1 * q + p2 * q)
     (positions sim)
     (realizedPnl sim + (p2 - p1) * q).
Proof.
  intros Hnone Hfin Hq Hp1 Hp2.
  pose proof (finite_not_le_pos _ Hfin Hq) as Hpos.
  assert (Hbuy : fill (Order.mk buy s q t1 p1 stop1 notional1) sim =
                 mk (fills sim ++ [SimFill.mk t1 s buy p1 q None]) (cash sim - p1 * q)
                    (<[s := Position.mk s q p1 t1 p1]> (positions sim)) (realizedPnl sim)).
  { unfold fill. cbn [Order.qty Order.px Order.side Order.symbol Order.ts].
    rewrite Hq, Hp1, Hnone. reflexivity. }
  rewrite Hbuy.
  rewrite (fill_sell_all _ _ (Position.mk s q p1 t1 p1));
    cbn [Order.qty Order.px Order.side Order.symbol Order.ts positions fills cash
         realizedPnl Position.qty Position.avg];
    try assumption; try reflexivity.
  - rewrite delete_insert_id by assumption. rewrite <- app_assoc. reflexivity.
  - apply lookup_insert_eq.
  - apply leb_refl_pos. exact Hpos.
Qed.

Lemma buy_then_sell_all_witness :
  fill (Order.mk sell "ACME" 10 2000 6 None None)
       (fill (Order.mk buy "ACME" 10 1000 5 None None) (new None)) =
  mk (fills (new None)
      ++ [SimFill.mk 1000 "ACME" buy 5 10 None; SimFill.mk 2000 "ACME" sell 6 10 None])
     (cash (new None) - 5 * 10 + 6 * 10)
     (positions (new None))
     (realizedPnl (new None) + (6 - 5) * 10).
Proof.
  apply (buy_then_sell_all (new None) "ACME" 10 5 6 1000 2000 None None None None);
    reflexivity.
Defined.

(** X5: an order the sizer could not size (no notional: the zero-quantity
    order), or one sized from a price that is NaN or infinite, is
    rejected by [fill]: the ledger is unchanged. *)
Theorem unsized_or_unpriced_order_is_not_filled
    (symbol : string) (px now : float) (riskPct equity : option float) (sim : t) :
  Order.notional (simulateEntry symbol px now riskPct equity) = None \/
  px = nan \/ px = infinity ->
  fill (simulateEntry symbol px now riskPct equity) sim = sim.
Proof.
  intros H. unfold simulateEntry in *. cbv zeta in *.
  destruct (sizedQty px (orDefault 0.01 riskPct) (orDefault 10000 equity) <=? 0) eqn:E.
  - unfold fill. cbn [Order.qty]. change (0 <=? 0) with true. reflexivity.
  - destruct H as [H | [-> | ->]]; [discriminate H| |];
      unfold fill; cbn [Order.qty Order.px]; rewrite E; reflexivity.
Qed.

(** A price of 6000: one share already exceeds the notional cap. *)
Lemma unsized_or_unpriced_order_is_not_filled_witness :
  fill (simulateEntry "ACME" 6000 1000 None None) Samples.ledgerWithGlbx =
  Samples.ledgerWithGlbx.
Proof.
  apply (unsized_or_unpriced_order_is_not_filled "ACME" 6000 1000 None None
           Samples.ledgerWithGlbx).
  left. vm_compute. reflexivity.
Defined.

(** X6: a sized order with a finite price is filled as the sizer meant
    it: cash is debited by exactly the order's notional, one buy record
    is logged, realized P&L is untouched, and a symbol that was not held
    gets a position with the order's quantity, opened at the order's
    price and time. *)
Theorem sized_order_debits_its_notional
    (symbol : string) (px now : float) (riskPct equity : option float) (sim : t)
    (n : float) :
  Order.notional (simulateEntry symbol px now riskPct equity) = Some n ->
  isFinite (Order.px (simulateEntry symbol px now riskPct equity)) = true ->
  cash (fill (simulateEntry symbol px now riskPct equity) sim) = cash sim - n /\
  fills (fill (simulateEntry symbol px now riskPct equity) sim) =
    fills sim ++ [fillOfOrder (simulateEntry symbol px now riskPct equity)] /\
  realizedPnl (fill (simulateEntry symbol px now riskPct equity) sim) = realizedPnl sim /\
  (positions sim !! symbol = None ->
   positions (fill (simulateEntry symbol px now riskPct equity) sim) =
     <[symbol := Position.mk symbol
                   (Order.qty (simulateEntry symbol px now riskPct equity))
                   (Order.px (simulateEntry symbol px now riskPct equity)) now
                   (Order.px (simulateEntry symbol px now riskPct equity))]>
       (positions sim)).
Proof.
  unfold simulateEntry. cbv zeta.
  destruct (sizedQty px (orDefault 0.01 riskPct) (orDefault 10000 equity) <=? 0) eqn:E;
    [discriminate|].
  cbn [Order.notional Order.px]. intros [= <-] Hpx.
  unfold fill. cbn [Order.qty Order.px Order.side Order.symbol Order.ts].
  rewrite E, Hpx. cbn [orb negb].
  destruct (positions sim !! symbol) eqn:Hp; cbn [cash fills realizedPnl positions];
    (split; [rewrite float_mul_comm; reflexivity|]); (split; [reflexivity|]);
    (split; [reflexivity|]); intros Hn; [discriminate Hn | reflexivity].
Qed.

(** The order of claim C1: 625 shares at 2.01. *)
Lemma sized_order_debits_its_notional_witness :
  cash (fill (simulateEntry "ACME" 2 1000 None None) (new None)) =
    cash (new None) - 625 * (2 + 0.01) /\
  fills (fill (simulateEntry "ACME" 2 1000 None None) (new None)) =
    fills (new None) ++ [fillOfOrder (simulateEntry "ACME" 2 1000 None None)] /\
  realizedPnl (fill (simulateEntry "ACME" 2 1000 None None) (new None)) =
    realizedPnl (new None) /\
  (positions (new None) !! "ACME" = None ->
   positions (fill (simulateEntry "ACME" 2 1000 None None) (new None)) =
     <["ACME" := Position.mk "ACME"
                   (Order.qty (simulateEntry "ACME" 2 1000 None None))
                   (Order.px (simulateEntry "ACME" 2 1000 None None)) 1000
                   (Order.px (simulateEntry "ACME" 2 1000 None None))]>
       (positions (new None))).
Proof.
  apply (sized_order_debits_its_notional "ACME" 2 1000 None None (new None)
           (625 * (2 + 0.01))); vm_compute; reflexivity.
Defined.

(** X7: what [tryExit] does to a held symbol is one of two things:
    it keeps the position and only raises its high to the price, leaving
    log, cash and P&L alone; or it sells the whole held quantity at the
    price, logs the sale with the reason, credits cash and realized P&L
    against the average cost, and removes the symbol. *)
Theorem tryExit_effect (symbol : string) (lastPx now : float) (sim : t) (p : Position.t) :
  positions sim !! symbol = Some p ->
  (fills (tryExit symbol lastPx now sim) = fills sim /\
   cash (tryExit symbol lastPx now sim) = cash sim /\
   realizedPnl (tryExit symbol lastPx now sim) = realizedPnl sim /\
   positions (tryExit symbol lastPx now sim) =
     <[symbol := Position.set_high p (Math_max (Position.high p) lastPx)]> (positions sim))
  \/
  (exists reason,
     fills (tryExit symbol lastPx now sim) =
       fills sim ++ [SimFill.mk now symbol sell lastPx (Position.qty p) (Some reason)] /\
     cash (tryExit symbol lastPx now sim) = cash sim + lastPx * Position.qty p /\
     realizedPnl (tryExit symbol lastPx now sim) =
       realizedPnl sim + (lastPx - Position.avg p) * Position.qty p /\
     positions (tryExit symbol lastPx now sim) = delete symbol (positions sim)).
Proof.
  intros Hp. unfold tryExit. rewrite Hp. unfold Exit.updateExit.
  destruct (_ <=? _); [|destruct (_ <=? _); [|destruct (_ && _)]];
    cbn [fills cash realizedPnl positions Exit.px Exit.reason Position.qty Position.avg
         Position.set_high];
    try (right; eexists; repeat split; reflexivity).
  left. repeat split; reflexivity.
Qed.

Lemma tryExit_effect_witness :
  (fills (tryExit "ACME" 8 2000 Samples.ledgerWithAcme) = fills Samples.ledgerWithAcme /\
   cash (tryExit "ACME" 8 2000 Samples.ledgerWithAcme) = cash Samples.ledgerWithAcme /\
   realizedPnl (tryExit "ACME" 8 2000 Samples.ledgerWithAcme) =
     realizedPnl Samples.ledgerWithAcme /\
   positions (tryExit "ACME" 8 2000 Samples.ledgerWithAcme) =
     <["ACME" := Position.set_high Samples.acme
                   (Math_max (Position.high Samples.acme) 8)]>
       (positions Samples.ledgerWithAcme))
  \/
  (exists reason,
     fills (tryExit "ACME" 8 2000 Samples.ledgerWithAcme) =
       fills Samples.ledgerWithAcme
       ++ [SimFill.mk 2000 "ACME" sell 8 (Position.qty Samples.acme) (Some reason)] /\
     cash (tryExit "ACME" 8 2000 Samples.ledgerWithAcme) =
       cash Samples.ledgerWithAcme + 8 * Position.qty Samples.acme /\
     realizedPnl (tryExit "ACME" 8 2000 Samples.ledgerWithAcme) =
       realizedPnl Samples.ledgerWithAcme
       + (8 - Position.avg Samples.acme) * Position.qty Samples.acme /\
     positions (tryExit "ACME" 8 2000 Samples.ledgerWithAcme) =
       delete "ACME" (positions Samples.ledgerWithAcme)).
Proof.
  apply (tryExit_effect "ACME" 8 2000 Samples.ledgerWithAcme Samples.acme).
  vm_compute. reflexivity.
Defined.

(** X8: from a new ledger, every run of [fill], [tryExit] and [reset]
    calls whose orders carry finite quantities leaves only positions with
    a quantity above zero in [positions]. *)
Theorem ledger_positions_stay_positive (cs : list call) (startingCash : option float) :
  Forall finiteQuantity cs -> positionsPositive (run cs (new startingCash)).
Proof. intros H. apply run_positive; [exact H | apply new_positive]. Qed.

Lemma ledger_positions_stay_positive_witness :
  positionsPositive (run Samples.acmeCalls (new None)).
Proof.
  apply (ledger_positions_stay_positive Samples.acmeCalls None).
  repeat constructor.
Defined.

End LedgerExtras.

Section ExitExtras.
Import JS Exit.
Local Open Scope float_scope.

(** A price against itself is never a drawdown: the ratio is 1, or NaN
    when the price is zero or not finite. *)
Lemma self_drawdown l : (l / l - 1 <=? - trailPct) = false.
Proof.
  destruct (Prim2SF l) as [s|s| |s m e] eqn:E.
  - rewrite FloatAxioms.leb_spec, sub_spec, div_spec, E. destruct s; reflexivity.
  - rewrite FloatAxioms.leb_spec, sub_spec, div_spec, E. destruct s; reflexivity.
  - rewrite FloatAxioms.leb_spec, sub_spec, div_spec, E. reflexivity.
  - destruct (SF_finite_props l s m e E) as [Hf Hz].
    rewrite (div_self l Hf Hz). reflexivity.
Qed.

(** X10: a price above the stored high becomes the high, and the
    trailing stop does not fire on that bar, whatever the position: the
    decision, if there is one, is the target or the time stop. *)
Theorem new_high_never_trails pos lastPx now :
  (Position.high pos <? lastPx) = true ->
  Position.high (fst (updateExit pos lastPx now)) = lastPx /\
  forall d, snd (updateExit pos lastPx now) = Some d ->
            reason d = target50 \/ reason d = time.
Proof.
  intros L. unfold updateExit. cbn [fst snd].
  destruct pos as [sy q a o h]. unfold Position.set_high. cbn [Position.high] in *.
  cbn [Position.symbol Position.qty Position.avg Position.openTs Position.high].
  rewrite (Math_max_new_high h lastPx L). split; [reflexivity|].
  unfold drawdownFromHigh. cbn [Position.high]. rewrite self_drawdown.
  intros d.
  destruct (0.5 <=? gain _ lastPx); [intros [= <-]; left; reflexivity|].
  destruct (_ && _); [intros [= <-]; right; reflexivity|discriminate].
Qed.

Lemma new_high_never_trails_witness :
  Position.high (fst (updateExit Samples.acme 8 2000)) = 8 /\
  forall d, snd (updateExit Samples.acme 8 2000) = Some d ->
            reason d = target50 \/ reason d = time.
Proof.
  apply (new_high_never_trails Samples.acme 8 2000). reflexivity.
Defined.

End ExitExtras.

Section WindowTheorems.
Import JS PriceConfirm Feed.
Local Open Scope float_scope.

Lemma lengthF_ltb (N : nat) {A} (l : list A) :
  (Z.of_nat N < 2 ^ 53)%Z -> (Z.of_nat (List.length l) < 2 ^ 53)%Z ->
  (Z2F (Z.of_nat N) <? lengthF l) = (N <? List.length l)%nat.
Proof.
  intros HN Hl. unfold lengthF. rewrite Z2F_ltb by lia.
  destruct (Nat.ltb_spec N (List.length l)); [apply Z.ltb_lt | apply Z.ltb_ge]; lia.
Qed.

Lemma lastN_length {A} n (l : list A) :
  List.length (lastN n l) = Nat.min n (List.length l).
Proof. unfold lastN. rewrite length_skipn. lia. Qed.

Lemma lastN_snoc {A} n (l : list A) x :
  lastN n (l ++ [x]) =
  if (n <? List.length (lastN n l ++ [x]))%nat
  then tail (lastN n l ++ [x]) else lastN n l ++ [x].
Proof.
  rewrite length_app, lastN_length. cbn [List.length].
  unfold lastN. rewrite length_app. cbn [List.length].
  destruct (Nat.ltb_spec n (Nat.min n (List.length l) + 1)) as [H|H].
  - assert (Hn : (n <= List.length l)%nat) by lia.
    replace (List.length l + 1 - n)%nat with (S (List.length l - n)) by lia.
    destruct n as [|n].
    + rewrite Nat.sub_0_r, skipn_all.
      rewrite skipn_all2 by (rewrite length_app; cbn; lia).
      reflexivity.
    + rewrite skipn_app.
      replace (S (List.length l - S n) - List.length l)%nat with 0%nat by lia.
      cbn [skipn].
      destruct (skipn (List.length l - S n) l) as [|y ys] eqn:E.
      * assert (L : List.length (skipn (List.length l - S n) l) = 0%nat)
          by (rewrite E; reflexivity).
        rewrite length_skipn in L. lia.
      * cbn [app tail].
        change (S (List.length l - S n)) with (1 + (List.length l - S n))%nat.
        rewrite <- skipn_skipn, E. reflexivity.
  - assert (Hn : (List.length l < n)%nat) by lia.
    replace (List.length l + 1 - n)%nat with 0%nat by lia.
    replace (List.length l - n)%nat with 0%nat by lia. reflexivity.
Qed.

Lemma pushAll_snoc xs x w : pushAll (xs ++ [x]) w = push x (pushAll xs w).
Proof. unfold pushAll. rewrite fold_left_app. reflexivity. Qed.

Lemma pushAll_capacity xs w : capacity (pushAll xs w) = capacity w.
Proof.
  revert w. induction xs as [|x xs IH]; intros w; [reflexivity|].
  change (pushAll (x :: xs) w) with (pushAll xs (push x w)). rewrite IH.
  unfold push. destruct (capacity w <? _); reflexivity.
Qed.

Lemma pushAll_values (N : nat) (xs : list float) :
  (Z.of_nat N < 2 ^ 53 - 1)%Z ->
  values (pushAll xs (newWindow (Z2F (Z.of_nat N)))) = lastN N xs.
Proof.
  intros HN. induction xs as [|x xs IH] using rev_ind; [reflexivity|].
  rewrite pushAll_snoc. unfold push.
  rewrite pushAll_capacity. cbn [newWindow capacity]. rewrite IH.
  rewrite lengthF_ltb; [| lia |].
  - rewrite lastN_snoc. destruct (_ <? _)%nat; reflexivity.
  - rewrite length_app, lastN_length. cbn [List.length]. lia.
Qed.

(** X11: a window of capacity [N] holds, after any sequence of pushes,
    the last [N] values pushed, oldest first, and never more than [N]. *)
Theorem window_keeps_latest (N : nat) (xs : list float) :
  (Z.of_nat N < 2 ^ 53 - 1)%Z ->
  values (pushAll xs (newWindow (Z2F (Z.of_nat N)))) = lastN N xs /\
  (List.length (values (pushAll xs (newWindow (Z2F (Z.of_nat N))))) <= N)%nat.
Proof.
  intros HN. rewrite (pushAll_values N xs HN). split; [reflexivity|].
  rewrite lastN_length. lia.
Qed.

(** Five volumes through a window of three. *)
Lemma window_keeps_latest_witness :
  values (pushAll Samples.volumes (newWindow (Z2F (Z.of_nat 3)))) = lastN 3 Samples.volumes /\
  (List.length (values (pushAll Samples.volumes (newWindow (Z2F (Z.of_nat 3))))) <= 3)%nat.
Proof.
  apply (window_keeps_latest 3 Samples.volumes). reflexivity.
Defined.

(** X12: a window whose capacity is NaN (a [VOL_WINDOW_SIZE] that does
    not read as a number) never drops a value: it keeps every volume it
    was given. *)
Theorem window_nan_capacity_never_evicts (xs : list float) :
  values (pushAll xs (newWindow nan)) = xs.
Proof.
  induction xs as [|x xs IH] using rev_ind; [reflexivity|].
  rewrite pushAll_snoc. unfold push. rewrite pushAll_capacity. cbn [newWindow capacity].
  rewrite nan_ltb. cbn [values]. rewrite IH. reflexivity.
Qed.

End WindowTheorems.

Section FeedTheorems.
Import JS PriceConfirm Feed.
Local Open Scope float_scope.

Lemma read_plain {V} (dict : gmap string V) key :
  inherited key = false ->
  read dict key = match dict !! key with Some v => Own v | None => Missing end.
Proof. intros H. unfold read. rewrite H. reflexivity. Qed.

(** A bar of a symbol that is no inherited name: the call returns. *)
Lemma onAgg_plain env s close vol st :
  inherited s = false ->
  onAgg env s close vol st =
  (Returned tt,
   mkState
     (<[s := push vol (orDefault (newWindow (WINDOW_SIZE env)) (volumeWindows st !! s))]>
        (volumeWindows st))
     (<[s := mkVwap
               (priceVolume (orDefault (mkVwap 0 0) (vwapAccumulators st !! s))
                + close * vol)
               (volume (orDefault (mkVwap 0 0) (vwapAccumulators st !! s)) + vol)]>
        (vwapAccumulators st))
     (referencePrices st)).
Proof.
  intros H. unfold onAgg, getOrCreateWindow, getOrCreateVwap.
  rewrite !read_plain by assumption.
  destruct (volumeWindows st !! s), (vwapAccumulators st !! s); reflexivity.
Qed.

(** A bar of an inherited name that has no window: the call throws and
    writes nothing. *)
Lemma onAgg_inherited env s close vol st :
  inherited s = true -> volumeWindows st !! s = None ->
  onAgg env s close vol st = (TypeError, st).
Proof.
  intros H Hw. unfold onAgg, getOrCreateWindow, read. rewrite Hw, H. reflexivity.
Qed.

Lemma onAgg_ref env s close vol st :
  referencePrices (snd (onAgg env s close vol st)) = referencePrices st.
Proof.
  unfold onAgg. destruct (getOrCreateWindow env s st); [|reflexivity].
  destruct (getOrCreateVwap s st); reflexivity.
Qed.

Lemma bars_cons env s b bs st :
  bars env s (b :: bs) st = bars env s bs (snd (onAgg env s (fst b) (snd b) st)).
Proof. reflexivity. Qed.

Lemma bars_window env s bs st :
  inherited s = false ->
  orDefault (newWindow (WINDOW_SIZE env)) (volumeWindows (bars env s bs st) !! s) =
  pushAll (map snd bs) (orDefault (newWindow (WINDOW_SIZE env)) (volumeWindows st !! s)).
Proof.
  intros H. revert st. induction bs as [|b bs IH]; intros st; [reflexivity|].
  rewrite bars_cons, IH. cbn [map].
  change (pushAll (snd b :: map snd bs) ?w) with (pushAll (map snd bs) (push (snd b) w)).
  f_equal. rewrite onAgg_plain by assumption. cbn [snd volumeWindows].
  rewrite lookup_insert_eq. reflexivity.
Qed.

Lemma bars_vwap env s bs st :
  inherited s = false ->
  orDefault (mkVwap 0 0) (vwapAccumulators (bars env s bs st) !! s) =
  mkVwap (fold_left (fun a b => a + fst b * snd b) bs
            (priceVolume (orDefault (mkVwap 0 0) (vwapAccumulators st !! s))))
         (fold_left (fun a b => a + snd b) bs
            (volume (orDefault (mkVwap 0 0) (vwapAccumulators st !! s)))).
Proof.
  intros H. revert st. induction bs as [|b bs IH]; intros st.
  - cbn. destruct (orDefault (mkVwap 0 0) (vwapAccumulators st !! s)); reflexivity.
  - rewrite bars_cons, IH. cbn [fold_left].
    rewrite onAgg_plain by assumption. cbn [snd vwapAccumulators].
    rewrite lookup_insert_eq. reflexivity.
Qed.

Lemma bars_present env s bs st :
  inherited s = false -> bs <> [] ->
  volumeWindows (bars env s bs st) !! s =
    Some (orDefault (newWindow (WINDOW_SIZE env)) (volumeWindows (bars env s bs st) !! s)) /\
  vwapAccumulators (bars env s bs st) !! s =
    Some (orDefault (mkVwap 0 0) (vwapAccumulators (bars env s bs st) !! s)).
Proof.
  intros H Hne. destruct bs as [|b bs _] using rev_ind; [congruence|].
  unfold bars. rewrite fold_left_app. cbn [fold_left].
  set (st0 := fold_left _ bs st).
  rewrite onAgg_plain by assumption. cbn [snd volumeWindows vwapAccumulators].
  rewrite !lookup_insert_eq. split; reflexivity.
Qed.

Lemma bars_ref env s bs st : referencePrices (bars env s bs st) = referencePrices st.
Proof.
  revert st. induction bs as [|b bs IH]; intros st; [reflexivity|].
  rewrite bars_cons, IH. apply onAgg_ref.
Qed.

Lemma bars_inherited env s bs st :
  inherited s = true -> volumeWindows st !! s = None ->
  bars env s bs st = st /\
  Forall (fun b => fst (onAgg env s (fst b) (snd b) st) = TypeError) bs.
Proof.
  intros H Hw. induction bs as [|b bs [IH1 IH2]]; [split; [reflexivity|constructor]|].
  rewrite bars_cons, onAgg_inherited by assumption. cbn [snd].
  split; [exact IH1|].
  constructor; [rewrite onAgg_inherited by assumption; reflexivity | exact IH2].
Qed.

(** X13: after the bars of a session have been fed for a symbol that had
    no state, the symbol's window holds the volumes of the last
    [WINDOW_SIZE] bars, its accumulator holds the running sums of
    [close * volume] and of [volume], taken in the order of the bars from
    0, and no reference price has been touched.  For a property name of
    [Object.prototype] every one of the calls throws instead, and the
    state stays as it was. *)
Theorem bars_state env s bs st (N : nat) :
  volumeWindows st !! s = None ->
  vwapAccumulators st !! s = None ->
  WINDOW_SIZE env = Z2F (Z.of_nat N) ->
  (Z.of_nat N < 2 ^ 53 - 1)%Z ->
  bs <> [] ->
  if inherited s then
    bars env s bs st = st /\
    Forall (fun b => fst (onAgg env s (fst b) (snd b) st) = TypeError) bs
  else
    Forall (fun b => fst (onAgg env s (fst b) (snd b) st) = Returned tt) bs /\
    volumeWindows (bars env s bs st) !! s =
      Some (mkWindow (lastN N (map snd bs)) (WINDOW_SIZE env)) /\
    vwapAccumulators (bars env s bs st) !! s =
      Some (mkVwap (fold_left (fun a b => a + fst b * snd b) bs 0)
                   (fold_left (fun a b => a + snd b) bs 0)) /\
    referencePrices (bars env s bs st) = referencePrices st.
Proof.
  intros Hw Ha HW HN Hne.
  destruct (inherited s) eqn:Hi; [apply bars_inherited; assumption|].
  split.
  { apply List.Forall_forall. intros b _. rewrite onAgg_plain by assumption. reflexivity. }
  destruct (bars_present env s bs st Hi Hne) as [Pw Pa].
  rewrite Pw, Pa, bars_window, bars_vwap, bars_ref by assumption.
  rewrite Hw, Ha. cbn [orDefault priceVolume volume].
  repeat split. f_equal.
  pose proof (pushAll_values N (map snd bs) HN) as V.
  rewrite HW.
  assert (C : capacity (pushAll (map snd bs) (newWindow (Z2F (Z.of_nat N)))) = Z2F (Z.of_nat N))
    by apply pushAll_capacity.
  destruct (pushAll (map snd bs) (newWindow (Z2F (Z.of_nat N)))) as [vs c].
  cbn [values capacity] in V, C. subst. reflexivity.
Qed.

(** Two bars of ACME on the initial state, with a window of 60. *)
Lemma bars_state_witness :
  Forall (fun b => fst (onAgg Examples.env "ACME" (fst b) (snd b) initial) = Returned tt)
         Samples.acmeBars /\
  volumeWindows (bars Examples.env "ACME" Samples.acmeBars initial) !! "ACME" =
    Some (mkWindow (lastN 60 (map snd Samples.acmeBars)) (WINDOW_SIZE Examples.env)) /\
  vwapAccumulators (bars Examples.env "ACME" Samples.acmeBars initial) !! "ACME" =
    Some (mkVwap (fold_left (fun a b => a + fst b * snd b) Samples.acmeBars 0)
                 (fold_left (fun a b => a + snd b) Samples.acmeBars 0)) /\
  referencePrices (bars Examples.env "ACME" Samples.acmeBars initial) =
    referencePrices initial.
Proof.
  apply (bars_state Examples.env "ACME" Samples.acmeBars initial 60);
    try reflexivity.
  discriminate.
Defined.

Lemma std_short (w : RollingWindow) : (List.length (values w) <= 1)%nat -> std w = 0.
Proof.
  intros H. unfold std, lengthF.
  destruct (values w) as [|x [|y l]]; cbn [List.length] in *; try lia; reflexivity.
Qed.

(** X14: while the window of a symbol that is no inherited name holds
    fewer than two volumes (no bar yet, or one bar), [getConfirm] returns
    a signal whose volume z-score is 0, whatever that volume was; the pass
    flag then reads the thresholds against 0. *)
Theorem volZ_needs_two_samples env clock s p st :
  inherited s = false ->
  (forall w, volumeWindows st !! s = Some w -> (List.length (values w) <= 1)%nat) ->
  exists sig,
    fst (getConfirm env clock s p st) = Returned sig /\
    ConfirmSignal.volZ sig = 0 /\
    ConfirmSignal.pass sig =
      ((VOL_Z_MIN env <=? 0) && (RET_1M_MIN env <=? ConfirmSignal.ret1m sig))
      || ((VWAP_DEV_MIN env <=? ConfirmSignal.vwapDev sig)
            && (VOL_Z_MIN env - 0.5 <=? 0)).
Proof.
  intros Hi H. unfold getConfirm. rewrite read_plain by assumption.
  assert (S0 : std (orDefault (newWindow (WINDOW_SIZE env)) (volumeWindows st !! s)) = 0).
  { apply std_short. destruct (volumeWindows st !! s) as [w|]; cbn.
    - apply H. reflexivity.
    - lia. }
  destruct (volumeWindows st !! s) as [w|]; cbn [orDefault] in S0; cbn [fst];
    eexists; (split; [reflexivity|]);
    cbn [ConfirmSignal.volZ ConfirmSignal.pass ConfirmSignal.ret1m ConfirmSignal.vwapDev];
    rewrite S0; change (0 <? 0) with false; cbv iota; split; reflexivity.
Qed.

(** One bar of ACME has been seen. *)
Lemma volZ_needs_two_samples_witness :
  exists sig,
    fst (getConfirm Examples.env 0 "ACME" 10.5 Examples.zeroVolumeState) = Returned sig /\
    ConfirmSignal.volZ sig = 0 /\
    ConfirmSignal.pass sig =
      ((VOL_Z_MIN Examples.env <=? 0)
         && (RET_1M_MIN Examples.env <=? ConfirmSignal.ret1m sig))
      || ((VWAP_DEV_MIN Examples.env <=? ConfirmSignal.vwapDev sig)
            && (VOL_Z_MIN Examples.env - 0.5 <=? 0)).
Proof.
  apply (volZ_needs_two_samples Examples.env 0 "ACME" 10.5 Examples.zeroVolumeState).
  - reflexivity.
  - intros w H. vm_compute in H. injection H as <-. cbn. lia.
Defined.

Lemma step_keeps_ref env c st s p :
  c <> ResetSymbolState s ->
  referencePrices st !! s = Some p ->
  referencePrices (step env c st) !! s = Some p.
Proof.
  intros Hc H. destruct c as [s' close vol | s' px | clock s' priceNow | s']; cbn [step].
  - rewrite onAgg_ref. exact H.
  - unfold setRef, read. destruct (referencePrices st !! s') eqn:E; [exact H|].
    destruct (inherited s'); [exact H|].
    cbn [referencePrices]. destruct (decide (s' = s)) as [->|Hne].
    + congruence.
    + rewrite lookup_insert_ne by assumption. exact H.
  - unfold getConfirm. destruct (read (volumeWindows st) s'); exact H.
  - unfold resetSymbolState. cbn [referencePrices].
    rewrite lookup_delete_ne by congruence. exact H.
Qed.

Lemma step_keeps_no_ref env c st s :
  inherited s = true ->
  referencePrices st !! s = None ->
  referencePrices (step env c st) !! s = None.
Proof.
  intros Hi H. destruct c as [s' close vol | s' px | clock s' priceNow | s']; cbn [step].
  - rewrite onAgg_ref. exact H.
  - unfold setRef, read. destruct (referencePrices st !! s') eqn:E; [exact H|].
    destruct (inherited s') eqn:Hi'; [exact H|].
    cbn [referencePrices]. rewrite lookup_insert_ne by congruence. exact H.
  - unfold getConfirm. destruct (read (volumeWindows st) s'); exact H.
  - unfold resetSymbolState. cbn [referencePrices].
    destruct (decide (s' = s)) as [->|Hne].
    + apply lookup_delete_eq.
    + rewrite lookup_delete_ne by assumption. exact H.
Qed.

(** X15: the reference price of a symbol is the first one set: once
    [setRef] has stored a price for a symbol that had none, later bars,
    later [setRef] calls with other prices, reads of the signal and
    resets of other symbols leave it in place.  For a property name of
    [Object.prototype] no reference price is ever stored. *)
Theorem reference_price_is_set_once env cs st s p :
  referencePrices st !! s = None ->
  Forall (fun c => c <> ResetSymbolState s) cs ->
  referencePrices (run env cs (setRef s p st)) !! s =
  if inherited s then None else Some p.
Proof.
  intros Hn Hcs.
  assert (H0 : referencePrices (setRef s p st) !! s = if inherited s then None else Some p).
  { unfold setRef, read. rewrite Hn.
    destruct (inherited s); [exact Hn|]. cbn [referencePrices]. apply lookup_insert_eq. }
  revert H0. generalize (setRef s p st). clear Hn.
  destruct (inherited s) eqn:Hi.
  - induction Hcs as [|c cs Hc _ IH]; intros st0 H0; [exact H0|].
    apply IH. apply step_keeps_no_ref; assumption.
  - induction Hcs as [|c cs Hc _ IH]; intros st0 H0; [exact H0|].
    apply IH. apply step_keeps_ref; assumption.
Qed.

(** The reference 10 survives a bar, a second [setRef] and a read. *)
Lemma reference_price_is_set_once_witness :
  referencePrices (run Examples.env Samples.acmeFeed (setRef "ACME" 10 initial)) !! "ACME"
  = Some 10.
Proof.
  apply (reference_price_is_set_once Examples.env Samples.acmeFeed initial "ACME" 10).
  - reflexivity.
  - repeat constructor; discriminate.
Defined.

Lemma State_eq (a b : State) :
  volumeWindows a = volumeWindows b -> vwapAccumulators a = vwapAccumulators b ->
  referencePrices a = referencePrices b -> a = b.
Proof. destruct a, b. cbn. intros -> -> ->. reflexivity. Qed.

(** X16: [resetSymbolState] removes the symbol's window, accumulator and
    reference price and nothing else; it is idempotent, does nothing for
    a symbol without state, and wipes whatever the calls on that symbol
    had stored. *)
Theorem resetSymbolState_clears env s st :
  volumeWindows (resetSymbolState s st) !! s = None /\
  vwapAccumulators (resetSymbolState s st) !! s = None /\
  referencePrices (resetSymbolState s st) !! s = None /\
  (forall other, other <> s ->
     volumeWindows (resetSymbolState s st) !! other = volumeWindows st !! other /\
     vwapAccumulators (resetSymbolState s st) !! other = vwapAccumulators st !! other /\
     referencePrices (resetSymbolState s st) !! other = referencePrices st !! other) /\
  resetSymbolState s (resetSymbolState s st) = resetSymbolState s st /\
  (volumeWindows st !! s = None -> vwapAccumulators st !! s = None ->
   referencePrices st !! s = None -> resetSymbolState s st = st) /\
  (forall c, callSymbol c = s ->
     resetSymbolState s (step env c st) = resetSymbolState s st).
Proof.
  unfold resetSymbolState. cbn [volumeWindows vwapAccumulators referencePrices].
  rewrite !lookup_delete_eq. repeat split.
  - rewrite lookup_delete_ne by congruence. reflexivity.
  - rewrite lookup_delete_ne by congruence. reflexivity.
  - rewrite lookup_delete_ne by congruence. reflexivity.
  - apply State_eq; cbn; apply delete_id; apply lookup_delete_eq.
  - intros Hw Ha Hr. apply State_eq; cbn; apply delete_id; assumption.
  - intros c Hc. destruct c as [s' close vol | s' px | clock s' priceNow | s'];
      cbn [callSymbol] in Hc; subst s'; cbn [step].
    + unfold onAgg. destruct (getOrCreateWindow env s st); [|reflexivity].
      destruct (getOrCreateVwap s st);
        cbn [snd volumeWindows vwapAccumulators referencePrices];
        rewrite ?delete_insert_eq; reflexivity.
    + unfold setRef. destruct (read (referencePrices st) s); try reflexivity.
      cbn [volumeWindows vwapAccumulators referencePrices].
      rewrite delete_insert_eq. reflexivity.
    + unfold getConfirm. destruct (read (volumeWindows st) s); reflexivity.
    + cbn [volumeWindows vwapAccumulators referencePrices].
      apply State_eq; cbn; apply delete_id; apply lookup_delete_eq.
Qed.

(** X17: right after a reset the signal of the symbol at a finite
    non-zero price has all three metrics at 0: no volume spike, no return,
    no deviation from VWAP, whatever had been fed before.  For a property
    name of [Object.prototype] the call throws after the reset as it does
    before. *)
Theorem signal_after_reset env clock s p st :
  isFinite p = true -> (p =? 0) = false ->
  fst (getConfirm env clock s p (resetSymbolState s st)) =
  if inherited s then TypeError
  else
    Returned
      (ConfirmSignal.mk s clock p 0 0 0
         (((VOL_Z_MIN env <=? 0) && (RET_1M_MIN env <=? 0))
          || ((VWAP_DEV_MIN env <=? 0) && (VOL_Z_MIN env - 0.5 <=? 0)))).
Proof.
  intros Hf Hz. unfold getConfirm, resetSymbolState, read.
  cbn [fst volumeWindows vwapAccumulators referencePrices].
  rewrite !lookup_delete_eq. destruct (inherited s); [reflexivity|].
  cbn [fst refOf vwapPxOf].
  rewrite (div_self p Hf Hz).
  change (std (newWindow (WINDOW_SIZE env))) with 0.
  change (0 <? 0) with false. cbv iota.
  change (1 - 1) with 0. reflexivity.
Qed.

Lemma signal_after_reset_witness :
  fst (getConfirm Examples.env 0 "ACME" 10.5
         (resetSymbolState "ACME" Examples.zeroVolumeState)) =
  Returned
    (ConfirmSignal.mk "ACME" 0 10.5 0 0 0
       (((VOL_Z_MIN Examples.env <=? 0) && (RET_1M_MIN Examples.env <=? 0))
        || ((VWAP_DEV_MIN Examples.env <=? 0) && (VOL_Z_MIN Examples.env - 0.5 <=? 0)))).
Proof.
  apply (signal_after_reset Examples.env 0 "ACME" 10.5 Examples.zeroVolumeState);
    reflexivity.
Defined.

Lemma step_other_lookup env c st s :
  callSymbol c <> s ->
  volumeWindows (step env c st) !! s = volumeWindows st !! s /\
  vwapAccumulators (step env c st) !! s = vwapAccumulators st !! s /\
  referencePrices (step env c st) !! s = referencePrices st !! s.
Proof.
  intros Hc. destruct c as [s' close vol | s' px | clock s' priceNow | s'];
    cbn [callSymbol] in Hc; cbn [step].
  - unfold onAgg. destruct (getOrCreateWindow env s' st); [|repeat split].
    destruct (getOrCreateVwap s' st);
      cbn [snd volumeWindows vwapAccumulators referencePrices];
      rewrite ?lookup_insert_ne by assumption; repeat split.
  - unfold setRef. destruct (read (referencePrices st) s'); try (repeat split; fail).
    cbn [volumeWindows vwapAccumulators referencePrices].
    rewrite lookup_insert_ne by assumption. repeat split.
  - unfold getConfirm. destruct (read (volumeWindows st) s'); repeat split.
  - unfold resetSymbolState. cbn [volumeWindows vwapAccumulators referencePrices].
    rewrite !lookup_delete_ne by assumption. repeat split.
Qed.

(** X18: the outcome of [getConfirm] for a symbol, the signal it returns
    or the exception it throws, does not depend on what is fed, set, read
    or reset for other symbols, whether those calls return or throw. *)
Theorem signal_ignores_other_symbols env clock s p cs st :
  Forall (fun c => callSymbol c <> s) cs ->
  fst (getConfirm env clock s p (run env cs st)) = fst (getConfirm env clock s p st).
Proof.
  intros Hcs. revert st. induction Hcs as [|c cs Hc _ IH]; intros st; [reflexivity|].
  change (run env (c :: cs) st) with (run env cs (step env c st)). rewrite IH.
  destruct (step_other_lookup env c st s Hc) as (Hw & Ha & Hr).
  apply getConfirm_entries; assumption.
Qed.

Lemma signal_ignores_other_symbols_witness :
  fst (getConfirm Examples.env 0 "ACME" 10.5
         (run Examples.env Samples.glbxFeed Examples.zeroVolumeState)) =
  fst (getConfirm Examples.env 0 "ACME" 10.5 Examples.zeroVolumeState).
Proof.
  apply (signal_ignores_other_symbols Examples.env 0 "ACME" 10.5 Samples.glbxFeed
           Examples.zeroVolumeState).
  repeat constructor; discriminate.
Defined.

End FeedTheorems.

Section ClassifierExtras.
Import JS Str RegExp Classify.
Local Open Scope float_scope.

Lemma by_get_In by_ k v : by_get by_ k = Some v -> In k (map fst by_).
Proof.
  induction by_ as [|[k' v'] r IH]; cbn [by_get map fst]; [discriminate|].
  destruct (bool_decide (k' = k)) eqn:E.
  - apply bool_decide_eq_true in E. intros _. left. exact E.
  - intros H. right. apply IH. exact H.
Qed.

Lemma by_has_In by_ k : by_has by_ k = true -> In k (map fst by_).
Proof.
  unfold by_has. destruct (by_get by_ k) eqn:E; [|discriminate].
  intros _. eapply by_get_In. exact E.
Qed.

Lemma by_set_keys by_ k v k' :
  In k' (map fst (by_set by_ k v)) -> k' = k \/ In k' (map fst by_).
Proof.
  induction by_ as [|[k0 v0] r IH]; cbn [by_set map fst In].
  - intros [H|[]]. left. symmetry. exact H.
  - destruct (bool_decide (k0 = k)) eqn:E; cbn [map fst In].
    + intros [H|H]; [left; symmetry; exact H | right; right; exact H].
    + intros [H|H]; [right; left; exact H|].
      destruct (IH H) as [H1|H1]; [left; exact H1 | right; right; exact H1].
Qed.

Lemma fold_hits_keys (hits : list ScoreHit) (init : byMap) k :
  In k (map fst
          (fold_left
             (fun by_ h => by_set by_ (label h) (orDefault 0 (by_get by_ (label h)) + w h))
             hits init)) ->
  In k (map label hits) \/ In k (map fst init).
Proof.
  revert init. induction hits as [|h hits IH]; intros init; cbn [fold_left map In].
  - intros H. right. exact H.
  - intros H. destruct (IH _ H) as [H1|H1]; [left; right; exact H1|].
    destruct (by_set_keys _ _ _ _ H1) as [H2|H2].
    + left. left. symmetry. exact H2.
    + right. exact H2.
Qed.

Lemma insertSorted_In a l x : In x (insertSorted a l) -> x = a \/ In x l.
Proof.
  induction l as [|b l IH]; cbn [insertSorted In].
  - intros [H|[]]. left. symmetry. exact H.
  - destruct (0 <? snd b - snd a); cbn [In].
    + intros [H|H]; [right; left; exact H|].
      destruct (IH H) as [H1|H1]; [left; exact H1 | right; right; exact H1].
    + intros [H|H]; [left; symmetry; exact H | right; exact H].
Qed.

Lemma sortDescending_In l x : In x (sortDescending l) -> In x l.
Proof.
  induction l as [|a l IH]; cbn [sortDescending fold_right In]; [tauto|].
  intros H. apply insertSorted_In in H as [H|H]; [left; symmetry; exact H|].
  right. apply IH. exact H.
Qed.

Lemma selectEvent_label (x : jsstring) (hits : list ScoreHit) :
  fst (selectEvent x hits) = OTHER \/
  In (fst (selectEvent x hits)) (map label hits).
Proof.
  unfold selectEvent. destruct hits as [|h0 hits0]; [left; reflexivity|].
  cbv beta iota zeta.
  set (hits := h0 :: hits0).
  set (by0 := fold_left
                (fun by_ h => by_set by_ (label h) (orDefault 0 (by_get by_ (label h)) + w h))
                hits []).
  assert (K0 : forall k, In k (map fst by0) -> In k (map label hits)).
  { intros k Hk. destruct (fold_hits_keys hits [] k Hk) as [H|[]]. exact H. }
  set (by1 := if by_has by0 PIVOTAL_TRIAL_SUCCESS && by_has by0 FDA_MARKETING_AUTH
              then _ else by0).
  assert (K1 : forall k, In k (map fst by1) -> In k (map label hits)).
  { intros k Hk. unfold by1 in Hk.
    destruct (by_has by0 PIVOTAL_TRIAL_SUCCESS && by_has by0 FDA_MARKETING_AUTH) eqn:E;
      [|apply K0; exact Hk].
    apply andb_prop in E as [_ E].
    destruct (by_set_keys _ _ _ _ Hk) as [->|H]; apply K0; [apply by_has_In; exact E | exact H]. }
  set (by2 := if (_ || _ || _) && _ then _ else by1).
  assert (K2 : forall k, In k (map fst by2) -> k = OTHER \/ In k (map label hits)).
  { intros k Hk. unfold by2 in Hk.
    destruct ((_ || _ || _) && _) in Hk; [|right; apply K1; exact Hk].
    destruct (by_set_keys _ _ _ _ Hk) as [->|H]; [left; reflexivity | right; apply K1; exact H]. }
  destruct (_ && negb _); [left; reflexivity|].
  destruct (sortDescending by2) as [|top rest] eqn:S; [left; reflexivity|].
  cbn [fst]. apply K2.
  apply (in_map fst). apply sortDescending_In. rewrite S. left. reflexivity.
Qed.

(** X19: the event [selectEvent] reports is [OTHER] or the label of one
    of the hits: aggregation, the two synergy bonuses and the sort never
    bring up a label that no rule pushed. *)
Theorem selectEvent_reports_a_hit (x : jsstring) (hits : list ScoreHit) :
  fst (selectEvent x hits) = OTHER \/
  In (fst (selectEvent x hits)) (map label hits).
Proof. apply selectEvent_label. Qed.

Lemma Forall_push (P : ScoreHit -> Prop) ok l wt why hits :
  P (mkHit l wt why) -> Forall P hits -> Forall P (push ok l wt why hits).
Proof.
  intros Hh H. unfold push. destruct ok; [|exact H].
  apply Forall_app. split; [exact H|]. constructor; [exact Hh|constructor].
Qed.

Lemma Forall_if (P : ScoreHit -> Prop) (c : bool) a b :
  Forall P a -> Forall P b -> Forall P (if c then a else b).
Proof. destruct c; tauto. Qed.

Ltac solve_hits :=
  repeat first
    [ assumption
    | apply List.Forall_nil
    | apply Forall_push;
      [ cbn [label In]; intuition discriminate | ]
    | apply Forall_if ].

Ltac peel_hits :=
  lazymatch goal with
  | |- Forall ?P (let h := ?A in @?B h) =>
      let T := type of A in
      lazymatch T with
      | bool =>
          change (let h := A in Forall P (B h));
          let b := fresh "b" in intros b; cbv beta; clearbody b
      | _ =>
          let H := fresh "H" in
          assert (H : Forall P A) by solve_hits;
          change (let h := A in Forall P (B h));
          let hs := fresh "hits" in
          intros hs; cbv beta;
          change (Forall P hs) in H; clearbody hs
      end
  end.

(** Off the wires, no rule pushes one of the five labels that are tried
    for wire items only. *)
Lemma positiveHits_off_wire x :
  Forall (fun h => ~ In (label h)
                      [FDA_MARKETING_AUTH; FDA_ADCOM_POSITIVE; PIVOTAL_TRIAL_SUCCESS;
                       REGULATORY_DESIGNATION; MAJOR_GOV_CONTRACT])
         (positiveHits x false).
Proof.
  cbv beta delta [positiveHits andb] iota.
  repeat peel_hits.
  solve_hits.
Qed.

(** X20: an item that is not a wire release is never classified as an
    FDA approval, an advisory-committee vote, a regulatory designation or
    a major government contract, whatever its text says.  (A pivotal-trial
    success is wire-only in these rules too, but the repository's later
    revision of the classifier also reports it off the wire, so it is not
    listed.) *)
Theorem off_wire_never_reports_wire_only_events
    (hostname : jsstring -> option jsstring) (it : RawItem.t) :
  isWirePR hostname (RawItem.url it) (textOf it) = false ->
  ~ In (fst (classifyOne hostname it))
       [FDA_MARKETING_AUTH; FDA_ADCOM_POSITIVE;
        REGULATORY_DESIGNATION; MAJOR_GOV_CONTRACT].
Proof.
  intros Hw.
  assert (HO : ~ In OTHER [FDA_MARKETING_AUTH; FDA_ADCOM_POSITIVE;
                           REGULATORY_DESIGNATION; MAJOR_GOV_CONTRACT]).
  { intros [H|[H|[H|[H|[]]]]]; discriminate H. }
  unfold classifyOne. cbv zeta. fold (textOf it). rewrite Hw.
  repeat match goal with
         | |- ~ In (fst (if ?c then _ else _)) _ => destruct c; [exact HO|]
         end.
  destruct (selectEvent_label (textOf it) (positiveHits (textOf it) false))
    as [-> | Hin]; [exact HO|].
  apply in_map_iff in Hin as (h & Hl & Hh). rewrite <- Hl.
  pose proof (positiveHits_off_wire (textOf it)) as F.
  rewrite List.Forall_forall in F. specialize (F h Hh).
  intros Hfour. apply F. cbn [In] in *. tauto.
Qed.

(** An approval headline with no URL and no wire token in its text. *)
Lemma off_wire_never_reports_wire_only_events_witness :
  ~ In (fst (classifyOne Examples.hostname Samples.approvalOffWire))
       [FDA_MARKETING_AUTH; FDA_ADCOM_POSITIVE;
        REGULATORY_DESIGNATION; MAJOR_GOV_CONTRACT].
Proof.
  apply (off_wire_never_reports_wire_only_events Examples.hostname Samples.approvalOffWire).
  vm_compute. reflexivity.
Defined.

(** X21: each hard guard decides alone: an item whose text matches the
    security-update, awards, proxy or vote (without binding-deal
    wording), investor-conference, law-firm, shelf or ATM,
    analyst-or-media or erratum pattern is [OTHER] with score 0, whatever
    else it matches and whatever its URL. *)
Theorem hard_guards_give_OTHER
    (hostname : jsstring -> option jsstring) (it : RawItem.t) :
  test PAT.securityIncidentUpdate (textOf it) = true \/
  test PAT.awardsPR (textOf it) = true \/
  ((test PAT.proxyAdvisor (textOf it) || test PAT.voteAdminOnly (textOf it))
   && negb (test PAT.mnaBinding (textOf it))) = true \/
  test PAT.investorConfs (textOf it) = true \/
  test PAT.lawFirmPR (textOf it) = true \/
  test PAT.shelfOrATM (textOf it) = true \/
  test PAT.analystMedia (textOf it) = true \/
  test PAT.typoErratum (textOf it) = true ->
  classifyOne hostname it = (OTHER, 0).
Proof.
  intros H. unfold classifyOne. cbv zeta. fold (textOf it).
  destruct (test PAT.securityIncidentUpdate (textOf it)); [reflexivity|].
  destruct (test PAT.awardsPR (textOf it)); [reflexivity|].
  destruct ((test PAT.proxyAdvisor (textOf it) || test PAT.voteAdminOnly (textOf it))
            && negb (test PAT.mnaBinding (textOf it))); [reflexivity|].
  destruct (test PAT.investorConfs (textOf it)); [reflexivity|].
  destruct (test PAT.lawFirmPR (textOf it)); [reflexivity|].
  destruct (test PAT.shelfOrATM (textOf it)); [reflexivity|].
  destruct (test PAT.analystMedia (textOf it)); [reflexivity|].
  destruct (test PAT.typoErratum (textOf it)); [reflexivity|].
  exfalso. intuition discriminate.
Qed.

(** A television interview about a priced, definitive takeover, on a
    wire: the analyst-or-media guard decides. *)
Lemma hard_guards_give_OTHER_witness :
  classifyOne Examples.hostname Samples.interview = (OTHER, 0).
Proof.
  apply (hard_guards_give_OTHER Examples.hostname Samples.interview).
  do 6 right. left. vm_compute. reflexivity.
Defined.

(** X22: plain dilutive financing wording without premium or strategic
    wording is never a catalyst: the item is [OTHER], with score 0.1, or
    with score 0 when a hard guard matched first. *)
Theorem plain_dilution_is_OTHER
    (hostname : jsstring -> option jsstring) (it : RawItem.t) :
  test PAT.plainDilution (textOf it) = true ->
  test PREMIUM_OR_STRATEGIC (textOf it) = false ->
  classifyOne hostname it = (OTHER, 0) \/ classifyOne hostname it = (OTHER, 0.1).
Proof.
  intros Hd Hp. unfold classifyOne. cbv zeta. fold (textOf it).
  rewrite Hd, Hp.
  repeat match goal with
         | |- context [if ?c then (OTHER, 0) else _] => destruct c; [left; reflexivity|]
         end.
  right. reflexivity.
Qed.

Lemma plain_dilution_is_OTHER_witness :
  classifyOne Examples.hostname Samples.registeredDirect = (OTHER, 0) \/
  classifyOne Examples.hostname Samples.registeredDirect = (OTHER, 0.1).
Proof.
  apply (plain_dilution_is_OTHER Examples.hostname Samples.registeredDirect);
    vm_compute; reflexivity.
Defined.

End ClassifierExtras.

Section NormalizeTheorems.
Import Str Classify NormalForm.
Local Open Scope N_scope.

Lemma collapse_single p s : singleSpaced p (collapseSpaces p s) = true.
Proof.
  revert p. induction s as [|c s IH]; intros p; [reflexivity|].
  cbn [collapseSpaces]. destruct (isSpace c) eqn:E.
  - destruct p; [apply IH|].
    cbn [singleSpaced]. change (isSpace 32) with true. rewrite IH. reflexivity.
  - cbn [singleSpaced]. rewrite E. apply IH.
Qed.

Lemma single_collapse p s : singleSpaced p s = true -> collapseSpaces p s = s.
Proof.
  revert p. induction s as [|c s IH]; intros p; [reflexivity|].
  cbn [singleSpaced collapseSpaces]. destruct (isSpace c) eqn:E.
  - intros H. apply andb_prop in H as [H H2]. apply andb_prop in H as [H0 H1].
    apply N.eqb_eq in H0. subst c. destruct p; [discriminate|].
    f_equal. apply IH. exact H2.
  - intros H. f_equal. apply IH. exact H.
Qed.

Lemma single_weaken p s : singleSpaced p s = true -> singleSpaced false s = true.
Proof.
  destruct s as [|c s]; [reflexivity|]. cbn [singleSpaced].
  destruct (isSpace c); [|tauto].
  intros H. apply andb_prop in H as [H H2]. apply andb_prop in H as [H0 _].
  rewrite H0, H2. reflexivity.
Qed.

Lemma single_app p a b :
  singleSpaced p (a ++ b) = true -> singleSpaced p a = true /\ singleSpaced false b = true.
Proof.
  revert p. induction a as [|c a IH]; intros p; cbn [app singleSpaced].
  - intros H. split; [reflexivity|]. eapply single_weaken. exact H.
  - destruct (isSpace c).
    + intros H. apply andb_prop in H as [H H2]. rewrite H. apply IH. exact H2.
    + apply IH.
Qed.

Lemma normalize_eq s :
  normalize s = trim (map straighten (collapseSpaces false s)).
Proof. unfold normalize. cbv zeta. rewrite !map_map. reflexivity. Qed.

Lemma straighten_spec c :
  isTypographic (straighten c) = false /\
  isSpace (straighten c) = isSpace c /\
  (isSpace c = true -> straighten c = c) /\
  (isTypographic c = false -> straighten c = c).
Proof.
  unfold straighten, isTypographic. cbv zeta.
  repeat (cbn [orb];
          match goal with
          | |- context [N.eqb c ?k] =>
              destruct (N.eqb_spec c k); [subst c; vm_compute; intuition discriminate|]
          end).
  cbn [orb]. repeat split; reflexivity.
Qed.

Lemma map_straighten_single p s :
  singleSpaced p s = true -> singleSpaced p (map straighten s) = true.
Proof.
  revert p. induction s as [|c s IH]; intros p; [reflexivity|].
  cbn [map singleSpaced].
  destruct (straighten_spec c) as (_ & Hs & Hid & _). rewrite Hs.
  destruct (isSpace c) eqn:E; [|apply IH].
  rewrite (Hid eq_refl). intros H. apply andb_prop in H as [H H2].
  rewrite H, (IH _ H2). reflexivity.
Qed.

Lemma map_straighten_clean s :
  forallb (fun c => negb (isTypographic c)) (map straighten s) = true.
Proof.
  induction s as [|c s IH]; [reflexivity|]. cbn [map forallb].
  destruct (straighten_spec c) as (H & _). rewrite H, IH. reflexivity.
Qed.

Lemma clean_map_id s :
  forallb (fun c => negb (isTypographic c)) s = true -> map straighten s = s.
Proof.
  induction s as [|c s IH]; [reflexivity|]. cbn [map forallb].
  intros H. apply andb_prop in H as [H1 H2].
  destruct (straighten_spec c) as (_ & _ & _ & Hid).
  rewrite Hid by (destruct (isTypographic c); [discriminate | reflexivity]).
  f_equal. apply IH. exact H2.
Qed.

(** [dropSpaces] keeps a suffix that does not begin with white space. *)
Lemma dropSpaces_suffix s :
  exists pre, s = pre ++ dropSpaces s /\
              match dropSpaces s with [] => True | c :: _ => isSpace c = false end.
Proof.
  induction s as [|c s (pre & Hs & Hh)]; [exists []; split; [reflexivity | exact I]|].
  cbn [dropSpaces]. destruct (isSpace c) eqn:E.
  - exists (c :: pre). split; [cbn; f_equal; exact Hs | exact Hh].
  - exists []. split; [reflexivity | exact E].
Qed.

Lemma dropSpaces_id s :
  match s with [] => True | c :: _ => isSpace c = false end -> dropSpaces s = s.
Proof. destruct s as [|c s]; [reflexivity|]. cbn. intros ->. reflexivity. Qed.

(** What [trim] returns: an infix of its argument with no white space at
    either end. *)
Lemma trim_spec s :
  exists pre post, s = pre ++ trim s ++ post /\
    match trim s with [] => True | c :: _ => isSpace c = false end /\
    match rev (trim s) with [] => True | c :: _ => isSpace c = false end.
Proof.
  unfold trim.
  destruct (dropSpaces_suffix s) as (pre & Hs & Hh).
  set (u := dropSpaces s) in *.
  destruct (dropSpaces_suffix (rev u)) as (post & Hr & Hl).
  set (d := dropSpaces (rev u)) in *.
  exists pre, (rev post). rewrite rev_involutive.
  assert (Hu : u = rev d ++ rev post).
  { rewrite <- rev_app_distr, <- Hr, rev_involutive. reflexivity. }
  split; [rewrite <- Hu; exact Hs|]. split; [|exact Hl].
  destruct (rev d) as [|c r] eqn:Ed; [exact I|].
  rewrite Hu in Hh. exact Hh.
Qed.

Lemma trim_id s :
  match s with [] => True | c :: _ => isSpace c = false end ->
  match rev s with [] => True | c :: _ => isSpace c = false end ->
  trim s = s.
Proof.
  intros Hh Hl. unfold trim. rewrite (dropSpaces_id s Hh), (dropSpaces_id (rev s) Hl).
  apply rev_involutive.
Qed.

Lemma forallb_infix {A} (f : A -> bool) a b c :
  forallb f (a ++ b ++ c) = true -> forallb f b = true.
Proof.
  rewrite !forallb_app. intros H. apply andb_prop in H as [_ H].
  apply andb_prop in H as [H _]. exact H.
Qed.

Lemma last_of_rev (l : jsstring) (d : N) :
  l <> [] -> match rev l with [] => True | x :: _ => List.last l d = x end.
Proof.
  intros Hne. destruct l as [|x l _] using rev_ind; [congruence|].
  rewrite rev_app_distr, last_last. reflexivity.
Qed.

(** X23: [normalize] is idempotent.  A normalized text has only single
    space characters as white space, none of the curly quotes, the
    non-breaking hyphen or the dashes, and no white space at its ends;
    normalizing it again changes nothing. *)
Theorem normalize_idempotent (s : jsstring) :
  normalize (normalize s) = normalize s /\
  singleSpaced false (normalize s) = true /\
  forallb (fun c => negb (isTypographic c)) (normalize s) = true /\
  trimmed (normalize s) = true.
Proof.
  rewrite !normalize_eq.
  set (m := map straighten (collapseSpaces false s)).
  assert (Sm : singleSpaced false m = true)
    by (apply map_straighten_single, collapse_single).
  assert (Cm : forallb (fun c => negb (isTypographic c)) m = true)
    by apply map_straighten_clean.
  destruct (trim_spec m) as (pre & post & Hm & Hh & Hl).
  set (t := trim m) in *.
  assert (St : singleSpaced false t = true).
  { rewrite Hm in Sm. apply single_app in Sm as [_ Sm].
    apply single_app in Sm as [Sm _]. exact Sm. }
  assert (Ct : forallb (fun c => negb (isTypographic c)) t = true).
  { rewrite Hm in Cm. eapply forallb_infix. exact Cm. }
  split; [|split; [exact St | split; [exact Ct|]]].
  - rewrite (single_collapse false t St), (clean_map_id t Ct). apply trim_id; assumption.
  - unfold trimmed. destruct t as [|c r] eqn:Et; [reflexivity|].
    rewrite Hh. cbn [negb andb].
    pose proof (last_of_rev (c :: r) c ltac:(discriminate)) as Hlast.
    destruct (rev (c :: r)) as [|x q] eqn:Er.
    { apply (f_equal (@List.length N)) in Er. rewrite length_rev in Er. discriminate Er. }
    rewrite Hlast, Hl. reflexivity.
Qed.

End NormalizeTheorems.

Section PipelineTheorems.
Import JS Str RegExp.
Local Open Scope float_scope.

Lemma booster_pos (b : bool) s c :
  (0 <? s) = true -> (0 <? c) = true -> (0 <? (if b then s + c else s)) = true.
Proof. intros Hs Hc. destruct b; [apply add_pos; assumption | exact Hs]. Qed.

(** X24: the earlier scorer returns, for every item, a number above 0
    and at most 1 (so never NaN), whatever the class, the text, the
    market capitalisation (NaN included) and the symbols. *)
Theorem earlier_score_in_unit_interval (toLowerCase : jsstring -> jsstring)
    (it : ClassifiedItem.t) :
  (0 <? ScoreEarlier.scoreOf toLowerCase it) = true /\
  (ScoreEarlier.scoreOf toLowerCase it <=? 1) = true.
Proof.
  unfold ScoreEarlier.scoreOf. cbv zeta.
  apply Math_min_one.
  repeat (apply booster_pos; [|reflexivity]).
  destruct (ClassifiedItem.klass it); reflexivity.
Qed.

(** X25: classification followed by scoring keeps every item, in order,
    with the label the classifier gave it: nothing is dropped, reordered
    or relabelled on the way. *)
Theorem pipeline_keeps_items (hostname : jsstring -> option jsstring)
    (items : list RawItem.t) :
  map ClassifiedItem.item (Score.score hostname (Classify.classify hostname items)) = items /\
  map ClassifiedItem.klass (Score.score hostname (Classify.classify hostname items)) =
    map (fun it => fst (Classify.classifyOne hostname it)) items /\
  List.length (Score.score hostname (Classify.classify hostname items)) = List.length items.
Proof.
  unfold Score.score, Classify.classify. rewrite !map_map, !length_map.
  repeat split.
  - rewrite <- (map_id items) at 2. apply map_ext. intros it.
    destruct (Classify.classifyOne hostname it). reflexivity.
  - apply map_ext. intros it.
    destruct (Classify.classifyOne hostname it). reflexivity.
Qed.

End PipelineTheorems.

Section FloatNotNaN.
Import JS SF.
Local Open Scope Z_scope.

(** Rounding a positive integer never gives NaN, so the sum and the
    difference of a number and a finite number are numbers. *)
Lemma binary_round_aux_not_nan sx m e l :
  0 < m -> -1074 <= e -> SFisNaN (binary_round_aux prec emax sx m e l) = false.
Proof.
  intros Hm He. unfold binary_round_aux.
  pose proof (shr_fexp_pos m e l Hm He) as [H1 H1e].
  destruct (shr_fexp prec emax m e l) as [mrs' e']. cbn [fst snd] in *.
  pose proof (round_nearest_even_ge (shr_m mrs') (loc_of_shr_record mrs')) as Hr.
  pose proof (shr_fexp_pos (round_nearest_even (shr_m mrs') (loc_of_shr_record mrs')) e'
                loc_Exact ltac:(lia) H1e) as [H2 _].
  destruct (shr_fexp prec emax _ e' loc_Exact) as [mrs'' e'']. cbn [fst snd] in *.
  destruct (shr_m mrs'') as [|q|q]; try lia.
  destruct (e'' <=? emax - prec); reflexivity.
Qed.

Lemma binary_round_not_nan sx m e :
  -1074 <= e -> SFisNaN (binary_round prec emax sx m e) = false.
Proof.
  intros He. unfold binary_round, shl_align. rewrite fexp_eq.
  destruct (Z.max (Z.pos (digits2_pos m) + e - 53) (-1074) - e) as [|n|n] eqn:En;
    apply binary_round_aux_not_nan; lia.
Qed.

Lemma binary_normalize_not_nan m e sz :
  -1074 <= e -> SFisNaN (binary_normalize prec emax m e sz) = false.
Proof.
  intros He. destruct m; cbn [binary_normalize];
    [reflexivity | apply binary_round_not_nan; assumption
     | apply binary_round_not_nan; assumption].
Qed.

Lemma SFadd_not_nan a c :
  valid_binary a = true -> valid_binary c = true ->
  SFisNaN a = false -> SFisFinite c = true -> SFisNaN (SF64add a c) = false.
Proof.
  intros Va Vc Na Fc.
  destruct a as [sa|sa| |sa ma ea]; try discriminate;
    destruct c as [sc|sc| |sc mc ec]; try discriminate;
    try reflexivity.
  - destruct sa, sc; reflexivity.
  - unfold SF64add, SFadd.
    apply valid_finite in Va as (Hea & _ & _). apply valid_finite in Vc as (Hec & _ & _).
    apply binary_normalize_not_nan. lia.
Qed.

Lemma SFsub_not_nan a c :
  valid_binary a = true -> valid_binary c = true ->
  SFisNaN a = false -> SFisFinite c = true -> SFisNaN (SF64sub a c) = false.
Proof.
  intros Va Vc Na Fc.
  destruct a as [sa|sa| |sa ma ea]; try discriminate;
    destruct c as [sc|sc| |sc mc ec]; try discriminate;
    try reflexivity.
  - destruct sa, sc; reflexivity.
  - unfold SF64sub, SFsub.
    apply valid_finite in Va as (Hea & _ & _). apply valid_finite in Vc as (Hec & _ & _).
    apply binary_normalize_not_nan. lia.
Qed.

Local Open Scope float_scope.

Lemma isFinite_spec x : isFinite x = SFisFinite (Prim2SF x).
Proof.
  unfold isFinite. rewrite FloatAxioms.ltb_spec, FloatAxioms.abs_spec.
  change (Prim2SF infinity) with (S754_infinity false).
  destruct (Prim2SF x) as [s|s| |s m e]; try destruct s; reflexivity.
Qed.

Lemma notNaN_add s c : isNaN s = false -> isFinite c = true -> isNaN (s + c) = false.
Proof.
  rewrite !isNaN_spec, isFinite_spec, add_spec.
  apply SFadd_not_nan; apply Prim2SF_valid.
Qed.

Lemma notNaN_sub s c : isNaN s = false -> isFinite c = true -> isNaN (s - c) = false.
Proof.
  rewrite !isNaN_spec, isFinite_spec, sub_spec.
  apply SFsub_not_nan; apply Prim2SF_valid.
Qed.

(** [Math.min] against a positive constant. *)
Lemma Math_min_const s c :
  isNaN s = false -> isNaN c = false -> (c =? 0) = false ->
  Math_min s c = s \/ Math_min s c = c.
Proof.
  intros Ns Nc Zc. unfold Math_min. rewrite Ns, Nc. cbn [orb].
  destruct (s <? c) eqn:L1; [left; reflexivity|].
  destruct (c <? s) eqn:L2; [right; reflexivity|].
  destruct (s =? 0) eqn:Z0; [|left; reflexivity].
  exfalso. revert Ns Nc Zc L1 L2 Z0.
  rewrite !isNaN_spec, !FloatAxioms.ltb_spec, !FloatAxioms.eqb_spec.
  change (Prim2SF 0) with (S754_zero false).
  destruct (Prim2SF s) as [ss|ss| |ss ms es]; try destruct ss; cbn; try discriminate;
    destruct (Prim2SF c) as [sc|sc| |sc mc ec]; try destruct sc; cbn; discriminate.
Qed.

Lemma notNaN_min s c :
  isNaN s = false -> isNaN c = false -> (c =? 0) = false -> isNaN (Math_min s c) = false.
Proof.
  intros Ns Nc Zc. destruct (Math_min_const s c Ns Nc Zc) as [-> | ->]; assumption.
Qed.

(** The final clamp [Math.max(0, Math.min(1, s))] of a number. *)
Lemma clamp_unit s :
  isNaN s = false ->
  (0 <=? Math_max 0 (Math_min 1 s)) = true /\ (Math_max 0 (Math_min 1 s) <=? 1) = true.
Proof.
  intros Ns.
  assert (M : Math_min 1 s = (if 1 <? s then 1 else if s <? 1 then s else 1)).
  { unfold Math_min. rewrite Ns. reflexivity. }
  rewrite M. destruct (1 <? s) eqn:L1; [split; reflexivity|].
  destruct (s <? 1) eqn:L2; [|split; reflexivity].
  unfold Math_max. rewrite Ns. change (isNaN 0) with false. cbn [orb]. cbv iota.
  destruct (0 <? s) eqn:P; [split; apply ltb_leb; assumption|].
  destruct (s <? 0) eqn:Q; [split; reflexivity|].
  change (0 =? 0) with true. cbv iota.
  revert Ns P Q.
  rewrite !isNaN_spec, !FloatAxioms.ltb_spec, !FloatAxioms.leb_spec, add_spec.
  change (Prim2SF 0) with (S754_zero false).
  destruct (Prim2SF s) as [ss|ss| |ss ms es]; try destruct ss; cbn; try discriminate;
    intros; split; reflexivity.
Qed.

End FloatNotNaN.

Section ScoreRange.
Import JS Str RegExp Score.
Local Open Scope float_scope.

(** Each section of [score] takes a number to a number: the tactic
    walks the statements of a section, one [let] at a time. *)
Ltac finite_constant :=
  first [ reflexivity
        | lazymatch goal with
          | |- isFinite (if ?c then _ else _) = true => destruct c; reflexivity
          end ].

Ltac number :=
  lazymatch goal with
  | |- isNaN (let x := ?A in @?B x) = false =>
      let x' := fresh "s" in
      let N := fresh "N" in
      change (let x := A in isNaN (B x) = false);
      intros x'; cbv beta;
      try (assert (N : isNaN x' = false) by (subst x'; number));
      clearbody x';
      number
  | |- isNaN (if ?c then _ else _) = false => destruct c; number
  | |- isNaN (Math_min _ _) = false =>
      apply notNaN_min; [number | reflexivity | reflexivity]
  | |- isNaN (_ + _) = false => apply notNaN_add; [number | finite_constant]
  | |- isNaN (_ - _) = false => apply notNaN_sub; [number | finite_constant]
  | |- _ => assumption
  end.

Lemma BASELINE_number klass : isNaN (BASELINE klass) = false.
Proof. destruct klass; reflexivity. Qed.

Lemma earlyCaps_number blob s :
  isNaN s = false -> isNaN (ScoreSections.earlyCaps blob s) = false.
Proof. intros N. unfold ScoreSections.earlyCaps. number. Qed.

Lemma dilutiveFinancing_number blob s :
  isNaN s = false -> isNaN (ScoreSections.dilutiveFinancing blob s) = false.
Proof. intros N. unfold ScoreSections.dilutiveFinancing. number. Qed.

Lemma bioNuance_number klass blob s :
  isNaN s = false -> isNaN (ScoreSections.bioNuance klass blob s) = false.
Proof. intros N. unfold ScoreSections.bioNuance. number. Qed.

Lemma approvalsSplit_number klass blob s :
  isNaN s = false -> isNaN (ScoreSections.approvalsSplit klass blob s) = false.
Proof. intros N. unfold ScoreSections.approvalsSplit. number. Qed.

Lemma processGuards_number blob s :
  isNaN s = false -> isNaN (ScoreSections.processGuards blob s) = false.
Proof. intros N. unfold ScoreSections.processGuards. number. Qed.

Lemma mnaSpecifics_number klass blob s :
  isNaN s = false -> isNaN (ScoreSections.mnaSpecifics klass blob s) = false.
Proof. intros N. unfold ScoreSections.mnaSpecifics. number. Qed.

Lemma govFollowOn_number klass blob s :
  isNaN s = false -> isNaN (ScoreSections.govFollowOn klass blob s) = false.
Proof. intros N. unfold ScoreSections.govFollowOn. number. Qed.

Lemma indexInclusion_number klass blob s :
  isNaN s = false -> isNaN (ScoreSections.indexInclusion klass blob s) = false.
Proof. intros N. unfold ScoreSections.indexInclusion. number. Qed.

Lemma wireModulation_number label blob isWire s :
  isNaN s = false -> isNaN (ScoreSections.wireModulation label blob isWire s) = false.
Proof. intros N. unfold ScoreSections.wireModulation. number. Qed.

Lemma cryptoTreasury_number label blob s :
  isNaN s = false -> isNaN (ScoreSections.cryptoTreasury label blob s) = false.
Proof. intros N. unfold ScoreSections.cryptoTreasury. number. Qed.

Lemma genericResults_number blob s :
  isNaN s = false -> isNaN (ScoreSections.genericResults blob s) = false.
Proof. intros N. unfold ScoreSections.genericResults. number. Qed.

Lemma positiveExceptions_number blob s :
  isNaN s = false -> isNaN (ScoreSections.positiveExceptions blob s) = false.
Proof. intros N. unfold ScoreSections.positiveExceptions. number. Qed.

Lemma boosters_number blob marketCap symbolCount s :
  isNaN s = false ->
  isNaN (ScoreSections.boosters blob marketCap symbolCount s) = false.
Proof. intros N. unfold ScoreSections.boosters. number. Qed.

Lemma unbounded_number klass blob isWire marketCap symbolCount :
  isNaN (ScoreSections.unbounded klass blob isWire marketCap symbolCount) = false.
Proof.
  unfold ScoreSections.unbounded.
  apply boosters_number, positiveExceptions_number, genericResults_number,
    cryptoTreasury_number, wireModulation_number, indexInclusion_number,
    govFollowOn_number, mnaSpecifics_number, processGuards_number,
    approvalsSplit_number, bioNuance_number, dilutiveFinancing_number,
    earlyCaps_number, BASELINE_number.
Qed.

Lemma scoreOf_unit hostname klass blob url marketCap symbolCount :
  (0 <=? ScoreSections.scoreOf hostname klass blob url marketCap symbolCount) = true /\
  (ScoreSections.scoreOf hostname klass blob url marketCap symbolCount <=? 1) = true.
Proof.
  unfold ScoreSections.scoreOf.
  destruct (test RX_MISINFO blob); [split; reflexivity|].
  apply clamp_unit, unbounded_number.
Qed.

(** On the batch of samples the sections, run in order, give the score
    of [Score.scoreOne], item by item. *)
Lemma sections_agree_on_samples :
  map (ScoreSections.scoreOne Examples.hostname) Samples.scored =
  map (Score.scoreOne Examples.hostname) Samples.scored.
Proof. vm_compute. reflexivity. Qed.

(** X26: whatever the items are (any class, any text, any URL, any market
    capitalisation, NaN and the infinities included, any symbols), every
    score that [score] writes is a number between 0 and 1, both ends
    included: never NaN, never negative, never above 1. *)
Theorem score_in_unit_interval
    (hostname : jsstring -> option jsstring) (items : list ClassifiedItem.t) :
  Forall (fun out =>
            (0 <=? ClassifiedItem.score out) = true /\
            (ClassifiedItem.score out <=? 1) = true)
         (ScoreSections.score hostname items).
Proof.
  unfold ScoreSections.score.
  induction items as [|it items IH]; cbn [map]; constructor; [|exact IH].
  unfold ScoreSections.scoreOne. cbn [ClassifiedItem.score].
  apply scoreOf_unit.
Qed.

End ScoreRange.

(** ** Rounding to nearest and the order of the floats *)

Section IntegerRounding.
Import SF.
Local Open Scope Z_scope.

Lemma rne_bounds V k : V / 2 ^ k <= rne V k <= V / 2 ^ k + 1.
Proof.
  unfold rne. destruct (2 * (V mod 2 ^ k) ?= 2 ^ k); [|lia|lia].
  destruct (Z.even (V / 2 ^ k)); lia.
Qed.

Lemma rne_mono V1 V2 k : 0 <= k -> V1 <= V2 -> rne V1 k <= rne V2 k.
Proof.
  intros Hk HV.
  assert (Hd : 0 < 2 ^ k) by (apply Z.pow_pos_nonneg; lia).
  pose proof (Z.div_le_mono V1 V2 (2 ^ k) Hd HV) as Hq.
  pose proof (Z.div_mod V1 (2 ^ k) ltac:(lia)) as E1.
  pose proof (Z.div_mod V2 (2 ^ k) ltac:(lia)) as E2.
  pose proof (Z.mod_pos_bound V1 (2 ^ k) Hd) as B1.
  pose proof (Z.mod_pos_bound V2 (2 ^ k) Hd) as B2.
  destruct (Z.eq_dec (V1 / 2 ^ k) (V2 / 2 ^ k)) as [E|N].
  - unfold rne. rewrite <- E.
    assert (Hr : V1 mod 2 ^ k <= V2 mod 2 ^ k).
    { rewrite E in E1. lia. }
    destruct (Z.compare_spec (2 * (V1 mod 2 ^ k)) (2 ^ k));
      destruct (Z.compare_spec (2 * (V2 mod 2 ^ k)) (2 ^ k));
      destruct (Z.even (V1 / 2 ^ k)); lia.
  - pose proof (rne_bounds V1 k). pose proof (rne_bounds V2 k). lia.
Qed.

Lemma rne_exact V k : 0 <= k -> V mod 2 ^ k = 0 -> rne V k = V / 2 ^ k.
Proof.
  intros Hk H. unfold rne. rewrite H.
  assert (Hd : 0 < 2 ^ k) by (apply Z.pow_pos_nonneg; lia).
  destruct (Z.compare_spec (2 * 0) (2 ^ k)); lia.
Qed.

Lemma rne_scale V k j : 0 <= k -> 0 <= j -> rne (V * 2 ^ j) (k + j) = rne V k.
Proof.
  intros Hk Hj. unfold rne.
  assert (Hd : 0 < 2 ^ k) by (apply Z.pow_pos_nonneg; lia).
  assert (He : 0 < 2 ^ j) by (apply Z.pow_pos_nonneg; lia).
  rewrite Z.pow_add_r by lia.
  rewrite Z.div_mul_cancel_r by lia.
  rewrite Z.mul_mod_distr_r by lia.
  replace (2 * (V mod 2 ^ k * 2 ^ j)) with (2 * (V mod 2 ^ k) * 2 ^ j) by ring.
  destruct (Z.compare_spec (2 * (V mod 2 ^ k) * 2 ^ j) (2 ^ k * 2 ^ j));
    destruct (Z.compare_spec (2 * (V mod 2 ^ k)) (2 ^ k)); try reflexivity; nia.
Qed.

Lemma rnd_nonneg V : 0 <= V -> 0 <= rnd V.
Proof.
  intros HV. unfold rnd.
  set (k := Z.max (Z.log2 V - 52) 0).
  assert (Hd : 0 < 2 ^ k) by (apply Z.pow_pos_nonneg; lia).
  pose proof (rne_bounds V k).
  pose proof (Z.div_pos V (2 ^ k) HV Hd). nia.
Qed.

Lemma rnd_mono V1 V2 : 0 < V1 -> V1 <= V2 -> rnd V1 <= rnd V2.
Proof.
  intros H1 H12. unfold rnd.
  pose proof (Z.log2_le_mono V1 V2 H12) as Hl.
  pose proof (Z.log2_spec V1 H1) as [L1 U1].
  pose proof (Z.log2_spec V2 ltac:(lia)) as [L2 U2].
  pose proof (Z.log2_nonneg V1) as N1.
  set (k1 := Z.max (Z.log2 V1 - 52) 0).
  set (k2 := Z.max (Z.log2 V2 - 52) 0).
  assert (Hk : k1 <= k2) by lia.
  assert (Hd1 : 0 < 2 ^ k1) by (apply Z.pow_pos_nonneg; lia).
  assert (Hd2 : 0 < 2 ^ k2) by (apply Z.pow_pos_nonneg; lia).
  destruct (Z.eq_dec k1 k2) as [E|N].
  - rewrite <- E. apply Z.mul_le_mono_nonneg_r; [lia|]. apply rne_mono; lia.
  - (* a binade apart *)
    assert (K2 : k2 = Z.log2 V2 - 52) by lia.
    assert (A : rne V1 k1 * 2 ^ k1 <= 2 ^ (k1 + 53)).
    { pose proof (rne_bounds V1 k1) as [_ Hb].
      assert (Hq : V1 / 2 ^ k1 < 2 ^ 53).
      { apply Z.div_lt_upper_bound; [lia|]. rewrite <- Z.pow_add_r by lia.
        eapply Z.lt_le_trans; [exact U1|]. apply Z.pow_le_mono_r; lia. }
      rewrite Z.pow_add_r by lia. rewrite (Z.mul_comm (2 ^ k1)).
      apply Z.mul_le_mono_nonneg_r; lia. }
    assert (B : 2 ^ (k2 + 52) <= rne V2 k2 * 2 ^ k2).
    { pose proof (rne_bounds V2 k2) as [Hb _].
      assert (Hq : 2 ^ 52 <= V2 / 2 ^ k2).
      { apply Z.div_le_lower_bound; [lia|]. rewrite <- Z.pow_add_r by lia.
        replace (k2 + 52) with (Z.log2 V2) by lia. exact L2. }
      rewrite Z.pow_add_r by lia. rewrite Z.mul_comm.
      apply Z.mul_le_mono_nonneg_r; lia. }
    assert (C : 2 ^ (k1 + 53) <= 2 ^ (k2 + 52)) by (apply Z.pow_le_mono_r; lia).
    lia.
Qed.

Lemma rnd_exact m j : 0 < m -> m < 2 ^ 53 -> 0 <= j -> rnd (m * 2 ^ j) = m * 2 ^ j.
Proof.
  intros Hm Hb Hj. unfold rnd.
  rewrite Z.log2_mul_pow2 by lia.
  assert (Hl : Z.log2 m <= 52).
  { assert (Z.log2 m < 53) by (apply Z.log2_lt_pow2; lia). lia. }
  pose proof (Z.log2_nonneg m).
  set (k := Z.max (j + Z.log2 m - 52) 0).
  assert (Hk : 0 <= k <= j) by lia.
  assert (E : m * 2 ^ j = m * 2 ^ (j - k) * 2 ^ k).
  { rewrite <- Z.mul_assoc, <- Z.pow_add_r by lia. do 2 f_equal. lia. }
  assert (Hd : 0 < 2 ^ k) by (apply Z.pow_pos_nonneg; lia).
  rewrite rne_exact; [| lia |].
  - rewrite E at 1. rewrite Z.div_mul by lia. lia.
  - rewrite E. apply Z.mod_mul. lia.
Qed.

Lemma ordInf_pos : 0 < ordInf.
Proof. unfold ordInf. apply Z.pow_pos_nonneg; lia. Qed.

Lemma RND_pos S : 0 < S -> RND S = Z.min (rnd S) ordInf.
Proof. destruct S; try lia. reflexivity. Qed.

Lemma RND_neg S : S < 0 -> RND S = - Z.min (rnd (- S)) ordInf.
Proof. destruct S; try lia. reflexivity. Qed.

Lemma RND_mono S1 S2 : S1 <= S2 -> RND S1 <= RND S2.
Proof.
  intros H. pose proof ordInf_pos.
  assert (Hn : forall S, S < 0 -> RND S <= 0).
  { intros S HS. rewrite RND_neg by assumption.
    pose proof (rnd_nonneg (- S) ltac:(lia)). lia. }
  assert (Hp : forall S, 0 < S -> 0 <= RND S).
  { intros S HS. rewrite RND_pos by assumption.
    pose proof (rnd_nonneg S ltac:(lia)). lia. }
  destruct (Z.lt_trichotomy S1 0) as [N1|[Z1|P1]];
    destruct (Z.lt_trichotomy S2 0) as [N2|[Z2|P2]]; try lia.
  - rewrite !RND_neg by assumption.
    pose proof (rnd_mono (- S2) (- S1) ltac:(lia) ltac:(lia)). lia.
  - subst S2. specialize (Hn S1 N1). cbn [RND]. lia.
  - specialize (Hn S1 N1). specialize (Hp S2 P2). lia.
  - subst. cbn [RND]. lia.
  - subst S1. specialize (Hp S2 P2). cbn [RND]. lia.
  - rewrite !RND_pos by assumption.
    pose proof (rnd_mono S1 S2 ltac:(lia) ltac:(lia)). lia.
Qed.

Lemma RND_exact s m j :
  0 < m -> m < 2 ^ 53 -> 0 <= j -> m * 2 ^ j < ordInf ->
  RND (cond_Zopp s (m * 2 ^ j)) = cond_Zopp s (m * 2 ^ j).
Proof.
  intros Hm Hb Hj Ht.
  assert (Hp : 0 < m * 2 ^ j).
  { apply Z.mul_pos_pos; [lia|]. apply Z.pow_pos_nonneg; lia. }
  destruct s; cbn [cond_Zopp].
  - rewrite RND_neg by lia. rewrite Z.opp_involutive, rnd_exact by lia. lia.
  - rewrite RND_pos by lia. rewrite rnd_exact by lia. lia.
Qed.

End IntegerRounding.

Section RoundingAlgorithm.
Import SF.
Local Open Scope Z_scope.

Lemma digits_log2 p : Z.pos (digits2_pos p) = Z.log2 (Z.pos p) + 1.
Proof.
  pose proof (digits2_bounds p) as [L U].
  assert (H : Z.log2 (Z.pos p) = Z.pos (digits2_pos p) - 1).
  { apply Z.log2_unique; [lia|].
    replace (Z.succ (Z.pos (digits2_pos p) - 1)) with (Z.pos (digits2_pos p)) by lia.
    split; assumption. }
  lia.
Qed.

Lemma shr_1_spec mrs :
  0 <= shr_m mrs ->
  shr_m mrs = 2 * shr_m (shr_1 mrs) + Z.b2z (shr_r (shr_1 mrs)) /\
  shr_s (shr_1 mrs) = shr_r mrs || shr_s mrs /\
  0 <= shr_m (shr_1 mrs).
Proof.
  destruct mrs as [m r s]. cbn [shr_m shr_r shr_s]. intros H.
  destruct m as [|[p|p|]|p]; cbn; try lia; repeat split; lia.
Qed.

Lemma iter_pos_nat {A} (f : A -> A) n x :
  SpecFloat.iter_pos f n x = Nat.iter (Pos.to_nat n) f x.
Proof.
  revert x. induction n as [n IH|n IH|]; intros x; cbn [SpecFloat.iter_pos].
  - rewrite !IH, Pos2Nat.inj_xI.
    replace (S (2 * Pos.to_nat n)) with (S (Pos.to_nat n + Pos.to_nat n)) by lia.
    rewrite Nat.iter_succ_r, Nat.iter_add. reflexivity.
  - rewrite !IH, Pos2Nat.inj_xO.
    replace (2 * Pos.to_nat n)%nat with (Pos.to_nat n + Pos.to_nat n)%nat by lia.
    rewrite Nat.iter_add. reflexivity.
  - reflexivity.
Qed.

(** After [j+1] shifts the record holds the quotient by [2^(j+1)], the
    bit below it, and whether anything lower was set. *)
Lemma shr_iter_spec P j :
  0 <= P ->
  exists L,
    0 <= L < 2 ^ Z.of_nat j /\
    P = shr_m (Nat.iter (S j) shr_1 (Build_shr_record P false false)) * 2 ^ (Z.of_nat j + 1)
        + Z.b2z (shr_r (Nat.iter (S j) shr_1 (Build_shr_record P false false))) * 2 ^ Z.of_nat j
        + L /\
    shr_s (Nat.iter (S j) shr_1 (Build_shr_record P false false)) = negb (L =? 0) /\
    0 <= shr_m (Nat.iter (S j) shr_1 (Build_shr_record P false false)).
Proof.
  intros HP. induction j as [|j IH].
  - change (Nat.iter 1 shr_1 (Build_shr_record P false false))
      with (shr_1 (Build_shr_record P false false)).
    destruct (shr_1_spec (Build_shr_record P false false) HP) as (E & HS & N).
    cbn [shr_m shr_r shr_s orb] in E, HS. exists 0. rewrite HS.
    change (Z.of_nat 0) with 0. cbn [Z.add Z.pow Z.pow_pos Pos.iter Z.eqb negb].
    repeat split; try lia.
  - destruct IH as (L & HL & E & HS & N).
    set (mrs := Nat.iter (S j) shr_1 (Build_shr_record P false false)) in *.
    change (Nat.iter (S (S j)) shr_1 (Build_shr_record P false false)) with (shr_1 mrs).
    destruct (shr_1_spec mrs N) as (E' & HS' & N').
    exists (Z.b2z (shr_r mrs) * 2 ^ Z.of_nat j + L).
    assert (Hd : 0 < 2 ^ Z.of_nat j) by (apply Z.pow_pos_nonneg; lia).
    assert (Hp2 : 2 ^ (Z.of_nat j + 1) = 2 * 2 ^ Z.of_nat j).
    { rewrite Z.pow_add_r by lia. lia. }
    assert (Hp3 : 2 ^ (Z.of_nat (S j) + 1) = 4 * 2 ^ Z.of_nat j).
    { rewrite Nat2Z.inj_succ. unfold Z.succ. rewrite !Z.pow_add_r by lia. lia. }
    assert (Hp1 : 2 ^ Z.of_nat (S j) = 2 * 2 ^ Z.of_nat j).
    { rewrite Nat2Z.inj_succ. unfold Z.succ. rewrite !Z.pow_add_r by lia. lia. }
    rewrite Hp3, Hp1. rewrite Hp2 in E.
    split; [|split; [|split]].
    + destruct (shr_r mrs); cbn [Z.b2z]; lia.
    + rewrite E at 1. rewrite E' at 1. ring.
    + rewrite HS', HS. destruct (shr_r mrs); cbn [Z.b2z orb].
      * symmetry. apply negb_true_iff. apply Z.eqb_neq. lia.
      * reflexivity.
    + exact N'.
Qed.

(** Shifting right with the two bookkeeping bits and rounding is rounding
    the quotient to nearest, ties to even. *)
Lemma shr_round P n :
  0 <= P ->
  round_nearest_even
    (shr_m (SpecFloat.iter_pos shr_1 n (Build_shr_record P false false)))
    (loc_of_shr_record (SpecFloat.iter_pos shr_1 n (Build_shr_record P false false))) =
  rne P (Z.pos n).
Proof.
  intros HP. rewrite iter_pos_nat.
  destruct (Pos2Nat.is_succ n) as [j Hj]. rewrite Hj.
  destruct (shr_iter_spec P j HP) as (L & HL & E & HS & N).
  assert (Hn : Z.pos n = Z.of_nat j + 1) by lia.
  destruct (Nat.iter (S j) shr_1 (Build_shr_record P false false)) as [m r s].
  cbn [shr_m shr_r shr_s] in *. rewrite Hn.
  assert (Hd : 0 < 2 ^ Z.of_nat j) by (apply Z.pow_pos_nonneg; lia).
  assert (Hp2 : 2 ^ (Z.of_nat j + 1) = 2 * 2 ^ Z.of_nat j).
  { rewrite Z.pow_add_r by lia. lia. }
  assert (Hq : P / 2 ^ (Z.of_nat j + 1) = m).
  { symmetry. apply Z.div_unique with (Z.b2z r * 2 ^ Z.of_nat j + L).
    - left. rewrite Hp2. destruct r; cbn [Z.b2z]; lia.
    - rewrite E. ring. }
  assert (Hr : P mod 2 ^ (Z.of_nat j + 1) = Z.b2z r * 2 ^ Z.of_nat j + L).
  { symmetry. apply Z.mod_unique with m.
    - left. rewrite Hp2. destruct r; cbn [Z.b2z]; lia.
    - rewrite E. ring. }
  unfold rne. rewrite Hq, Hr, Hp2.
  destruct r, s; cbn [loc_of_shr_record round_nearest_even Z.b2z];
    symmetry in HS; try apply negb_true_iff in HS; try apply negb_false_iff in HS;
    try apply Z.eqb_neq in HS; try apply Z.eqb_eq in HS.
  - destruct (Z.compare_spec (2 * (1 * 2 ^ Z.of_nat j + L)) (2 * 2 ^ Z.of_nat j)); lia.
  - destruct (Z.compare_spec (2 * (1 * 2 ^ Z.of_nat j + L)) (2 * 2 ^ Z.of_nat j));
      first [reflexivity | lia].
  - destruct (Z.compare_spec (2 * (0 * 2 ^ Z.of_nat j + L)) (2 * 2 ^ Z.of_nat j)); lia.
  - destruct (Z.compare_spec (2 * (0 * 2 ^ Z.of_nat j + L)) (2 * 2 ^ Z.of_nat j)); lia.
Qed.

Lemma shl_align_snd m e ez : ez <= e -> snd (shl_align m e ez) = ez.
Proof.
  intros H. unfold shl_align.
  destruct (ez - e) as [|d|d] eqn:E; cbn [snd]; lia.
Qed.

(** A mantissa already at its canonical exponent is left alone. *)
Lemma shr_fexp_canonical m e :
  Z.max (Z.log2 (Z.pos m) + 1 + e - 53) (-1074) = e ->
  shr_fexp prec emax (Z.pos m) e loc_Exact = (Build_shr_record (Z.pos m) false false, e).
Proof.
  intros H. unfold shr_fexp. rewrite fexp_eq. cbn [Zdigits2].
  rewrite digits_log2, H, Z.sub_diag. reflexivity.
Qed.

End RoundingAlgorithm.

Section RoundingResult.
Import SF.
Local Open Scope Z_scope.

Lemma ordInf_split : ordInf = 2 ^ 53 * 2 ^ 2045.
Proof. unfold ordInf. rewrite <- Z.pow_add_r by lia. reflexivity. Qed.

Lemma ordInf_split' : ordInf = 2 ^ 52 * 2 ^ 2046.
Proof. unfold ordInf. rewrite <- Z.pow_add_r by lia. reflexivity. Qed.

(** The last step of rounding: overflow to an infinity. *)
Lemma final_ord s m e :
  -1074 <= e -> Z.pos m < 2 ^ 53 -> (971 < e -> 2 ^ 52 <= Z.pos m) ->
  ord (if e <=? emax - prec then S754_finite s m e else S754_infinity s) =
  cond_Zopp s (Z.min (Z.pos m * 2 ^ (e + 1074)) ordInf).
Proof.
  intros He Hm Hn. change (emax - prec) with 971.
  destruct (Z.leb_spec e 971) as [H|H]; cbn [ord]; f_equal.
  - symmetry. assert (H1 : 2 ^ (e + 1074) <= 2 ^ 2045) by (apply Z.pow_le_mono_r; lia).
    assert (H2 : 0 < 2 ^ (e + 1074)) by (apply Z.pow_pos_nonneg; lia).
    rewrite ordInf_split.
    assert (H3 : Z.pos m * 2 ^ (e + 1074) <= Z.pos m * 2 ^ 2045).
    { apply Z.mul_le_mono_nonneg_l; lia. }
    assert (H4 : Z.pos m * 2 ^ 2045 < 2 ^ 53 * 2 ^ 2045).
    { apply Z.mul_lt_mono_pos_r; [apply Z.pow_pos_nonneg; lia | exact Hm]. }
    apply Z.min_l. apply Z.lt_le_incl. eapply Z.le_lt_trans; eassumption.
  - specialize (Hn H).
    assert (H1 : 2 ^ 2046 <= 2 ^ (e + 1074)) by (apply Z.pow_le_mono_r; lia).
    assert (H2 : 0 < 2 ^ 2046) by (apply Z.pow_pos_nonneg; lia).
    rewrite ordInf_split'.
    assert (H3 : 2 ^ 52 * 2 ^ 2046 <= Z.pos m * 2 ^ (e + 1074)).
    { apply Z.mul_le_mono_nonneg; [apply Z.pow_nonneg; lia | exact Hn
                                   | apply Z.lt_le_incl; exact H2 | exact H1]. }
    symmetry. apply Z.min_r. exact H3.
Qed.

(** Rounding a positive integer scaled by a power of two: the float of
    the specification holds the integer rounded to 53 bits. *)
Lemma binary_round_ord s p e :
  -1074 <= e ->
  ord (binary_round prec emax s p e) =
  cond_Zopp s (Z.min (rnd (Z.pos p * 2 ^ (e + 1074))) ordInf).
Proof.
  intros He. unfold binary_round. rewrite fexp_eq, digits_log2.
  pose proof (Z.log2_nonneg (Z.pos p)) as Hl0.
  pose proof (Z.log2_spec (Z.pos p) ltac:(lia)) as [Lp Up].
  set (l := Z.log2 (Z.pos p)) in *.
  destruct (Z_le_gt_dec l 52) as [Hd|Hd].
  - (* at most 53 digits: nothing is lost *)
    set (fe := Z.max (l + 1 + e - 53) (-1074)).
    assert (Hfe : fe <= e) by lia.
    pose proof (shl_align_fst p e fe Hfe) as Hm.
    pose proof (shl_align_snd p e fe Hfe) as Hz.
    destruct (shl_align p e fe) as [mz ez]. cbn [fst snd] in Hm, Hz. subst ez.
    assert (Hlz : Z.log2 (Z.pos mz) = e - fe + l).
    { rewrite Hm. apply Z.log2_mul_pow2; lia. }
    unfold binary_round_aux.
    rewrite shr_fexp_canonical by lia.
    cbn [shr_m loc_of_shr_record round_nearest_even].
    rewrite shr_fexp_canonical by lia.
    cbn [shr_m].
    rewrite final_ord.
    + f_equal. f_equal. rewrite Hm.
      rewrite <- Z.mul_assoc, <- Z.pow_add_r by lia.
      replace (e - fe + (fe + 1074)) with (e + 1074) by lia.
      symmetry. apply rnd_exact; [lia| |lia].
      apply Z.log2_lt_pow2; lia.
    + lia.
    + apply Z.log2_lt_pow2; lia.
    + intros Hbig. pose proof (Z.log2_spec (Z.pos mz) ltac:(lia)) as [Lz _].
      replace (Z.log2 (Z.pos mz)) with 52 in Lz by lia. exact Lz.
  - (* more than 53 digits: shift right and round *)
    assert (Hsh : shl_align p e (Z.max (l + 1 + e - 53) (-1074)) = (p, e)).
    { unfold shl_align.
      destruct (Z.max (l + 1 + e - 53) (-1074) - e) eqn:E; try reflexivity; lia. }
    rewrite Hsh. unfold binary_round_aux, shr_fexp at 1.
    rewrite fexp_eq. cbn [Zdigits2]. rewrite digits_log2. fold l.
    destruct (Z.max (l + 1 + e - 53) (-1074) - e) as [|n|n] eqn:En; try lia.
    cbn [shr shr_record_of_loc].
    rewrite shr_round by lia.
    assert (Hn : Z.pos n = l - 52) by lia.
    assert (Hdn : 0 < 2 ^ Z.pos n) by (apply Z.pow_pos_nonneg; lia).
    assert (Hq1 : 2 ^ 52 <= Z.pos p / 2 ^ Z.pos n).
    { apply Z.div_le_lower_bound; [lia|]. rewrite <- Z.pow_add_r by lia.
      replace (Z.pos n + 52) with l by lia. exact Lp. }
    assert (Hq2 : Z.pos p / 2 ^ Z.pos n < 2 ^ 53).
    { apply Z.div_lt_upper_bound; [lia|]. rewrite <- Z.pow_add_r by lia.
      replace (Z.pos n + 53) with (Z.succ l) by lia. exact Up. }
    pose proof (rne_bounds (Z.pos p) (Z.pos n)) as [HM1 HM2].
    assert (HV : rnd (Z.pos p * 2 ^ (e + 1074)) =
                 rne (Z.pos p) (Z.pos n) * 2 ^ (e + Z.pos n + 1074)).
    { unfold rnd. rewrite Z.log2_mul_pow2 by lia. fold l.
      replace (Z.max (e + 1074 + l - 52) 0) with (Z.pos n + (e + 1074)) by lia.
      rewrite rne_scale by lia. f_equal. f_equal. lia. }
    rewrite HV.
    remember (rne (Z.pos p) (Z.pos n)) as M eqn:EM. clear EM.
    destruct (Z.eq_dec M (2 ^ 53)) as [E53|N53].
    + subst M. change (2 ^ 53) with 9007199254740992.
      unfold shr_fexp. rewrite fexp_eq.
      change (Zdigits2 9007199254740992) with 54.
      replace (Z.max (54 + (e + Z.pos n) - 53) (-1074) - (e + Z.pos n)) with 1 by lia.
      cbn [shr SpecFloat.iter_pos shr_record_of_loc shr_1 shr_m].
      rewrite final_ord.
      * f_equal. f_equal.
        replace (e + Z.pos n + 1 + 1074) with (1 + (e + Z.pos n + 1074)) by lia.
        rewrite Z.pow_add_r by lia. change (2 ^ 1) with 2. lia.
      * lia.
      * reflexivity.
      * intros _. apply Z.le_refl.
    + destruct M as [|mp|mp]; try lia.
      assert (HlM : Z.log2 (Z.pos mp) = 52).
      { apply Z.log2_unique; [lia|]. change (Z.succ 52) with 53. lia. }
      rewrite shr_fexp_canonical by lia.
      cbn [shr_m].
      rewrite final_ord; [reflexivity|lia|lia|intros _; lia].
Qed.

Lemma binary_normalize_ord N e sz :
  -1074 <= e ->
  ord (binary_normalize prec emax N e sz) = RND (N * 2 ^ (e + 1074)).
Proof.
  intros He.
  assert (Hp : 0 < 2 ^ (e + 1074)) by (apply Z.pow_pos_nonneg; lia).
  destruct N as [|p|p]; cbn [binary_normalize].
  - reflexivity.
  - rewrite binary_round_ord by assumption. cbn [cond_Zopp].
    rewrite RND_pos by lia. reflexivity.
  - rewrite binary_round_ord by assumption. cbn [cond_Zopp].
    rewrite RND_neg by lia. do 3 f_equal. lia.
Qed.

End RoundingResult.

Section OrderEmbedding.
Import JS SF.
Local Open Scope Z_scope.

Lemma valid_finite_top s m e :
  valid_binary (S754_finite s m e) = true -> e <= 971.
Proof.
  cbn [SpecFloat.valid_binary]. unfold bounded. intros H.
  apply andb_prop in H as [_ H]. apply Z.leb_le in H. exact H.
Qed.

Lemma finite_ord_bounds s m e :
  valid_binary (S754_finite s m e) = true ->
  Z.pos m < 2 ^ 53 /\ 0 <= e + 1074 /\ 0 < Z.pos m * 2 ^ (e + 1074) < ordInf.
Proof.
  intros V. pose proof (valid_finite_top _ _ _ V) as Ht.
  apply valid_finite in V as (He & Hd & _).
  pose proof (digits2_bounds m) as [_ Hu].
  assert (Hm : Z.pos m < 2 ^ 53).
  { eapply Z.lt_le_trans; [exact Hu|]. apply Z.pow_le_mono_r; lia. }
  assert (Hp : 0 < 2 ^ (e + 1074)) by (apply Z.pow_pos_nonneg; lia).
  assert (H1 : 2 ^ (e + 1074) <= 2 ^ 2045) by (apply Z.pow_le_mono_r; lia).
  repeat split; [exact Hm | lia | apply Z.mul_pos_pos; lia |].
  rewrite ordInf_split.
  eapply Z.le_lt_trans;
    [apply Z.mul_le_mono_nonneg_l; [lia | exact H1]
    | apply Z.mul_lt_mono_pos_r; [apply Z.pow_pos_nonneg; lia | exact Hm]].
Qed.

(** Floats of different exponents: the larger exponent is the larger
    value. *)
Lemma finite_ord_lt s1 m1 e1 s2 m2 e2 :
  valid_binary (S754_finite s1 m1 e1) = true ->
  valid_binary (S754_finite s2 m2 e2) = true ->
  e1 < e2 ->
  Z.pos m1 * 2 ^ (e1 + 1074) < Z.pos m2 * 2 ^ (e2 + 1074).
Proof.
  intros V1 V2 H.
  apply valid_finite in V1 as (He1 & Hd1 & _).
  apply valid_finite in V2 as (He2 & Hd2 & Hn2).
  pose proof (digits2_bounds m1) as [_ Hu1].
  pose proof (digits2_bounds m2) as [Hl2 _].
  assert (Hm1 : Z.pos m1 < 2 ^ 53).
  { eapply Z.lt_le_trans; [exact Hu1|]. apply Z.pow_le_mono_r; lia. }
  assert (Hm2 : 2 ^ 52 <= Z.pos m2).
  { replace (Z.pos (digits2_pos m2)) with 53 in Hl2 by lia. exact Hl2. }
  assert (Hp : 0 < 2 ^ (e1 + 1074)) by (apply Z.pow_pos_nonneg; lia).
  assert (Hs : 2 ^ (e2 + 1074) = 2 ^ (e2 - e1) * 2 ^ (e1 + 1074)).
  { rewrite <- Z.pow_add_r by lia. f_equal. lia. }
  assert (H2 : 2 ^ 1 <= 2 ^ (e2 - e1)) by (apply Z.pow_le_mono_r; lia).
  rewrite Hs. change (2 ^ 1) with 2 in H2.
  change (2 ^ 53) with 9007199254740992 in Hm1.
  change (2 ^ 52) with 4503599627370496 in Hm2.
  nia.
Qed.

Lemma cmp_lt a b : a < b -> Some Lt = Some (a ?= b).
Proof. intros H. apply Z.compare_lt_iff in H. rewrite H. reflexivity. Qed.

Lemma cmp_gt a b : b < a -> Some Gt = Some (a ?= b).
Proof. intros H. apply Z.compare_gt_iff in H. rewrite H. reflexivity. Qed.

Lemma cmp_eq a b : a = b -> Some Eq = Some (a ?= b).
Proof. intros ->. rewrite Z.compare_refl. reflexivity. Qed.

(** On the floats other than NaN the comparison of the specification is
    the comparison of the values. *)
Lemma ord_compare a b :
  valid_binary a = true -> valid_binary b = true ->
  SFisNaN a = false -> SFisNaN b = false ->
  SFcompare a b = Some (ord a ?= ord b).
Proof.
  intros Va Vb Na Nb. pose proof ordInf_pos as Ht.
  destruct a as [sa|sa| |sa ma ea]; try discriminate;
    destruct b as [sb|sb| |sb mb eb]; try discriminate;
    try pose proof (finite_ord_bounds _ _ _ Va) as (_ & Ea & Ba);
    try pose proof (finite_ord_bounds _ _ _ Vb) as (_ & Eb & Bb);
    cbn [SFcompare ord];
    try destruct sa; try destruct sb; cbn [cond_Zopp];
    try first [apply cmp_eq; lia | apply cmp_lt; lia | apply cmp_gt; lia].
  - (* both negative *)
    destruct (Z.compare_spec ea eb) as [E|E|E].
    + subst eb. change (Pos.compare_cont Eq ma mb) with (Pos.compare ma mb).
      assert (Hp : 0 < 2 ^ (ea + 1074)) by (apply Z.pow_pos_nonneg; lia).
      destruct (Pos.compare_spec ma mb) as [C|C|C]; cbn [CompOpp];
        [apply cmp_eq; subst; reflexivity | apply cmp_gt | apply cmp_lt]; nia.
    + pose proof (finite_ord_lt _ _ _ _ _ _ Va Vb E). apply cmp_gt. lia.
    + pose proof (finite_ord_lt _ _ _ _ _ _ Vb Va E). apply cmp_lt. lia.
  - (* both positive *)
    destruct (Z.compare_spec ea eb) as [E|E|E].
    + subst eb. change (Pos.compare_cont Eq ma mb) with (Pos.compare ma mb).
      assert (Hp : 0 < 2 ^ (ea + 1074)) by (apply Z.pow_pos_nonneg; lia).
      destruct (Pos.compare_spec ma mb) as [C|C|C];
        [apply cmp_eq; subst; reflexivity | apply cmp_lt | apply cmp_gt]; nia.
    + pose proof (finite_ord_lt _ _ _ _ _ _ Va Vb E). apply cmp_lt. lia.
    + pose proof (finite_ord_lt _ _ _ _ _ _ Vb Va E). apply cmp_gt. lia.
Qed.

Lemma RND_range S : - ordInf <= RND S <= ordInf.
Proof.
  pose proof ordInf_pos.
  destruct S as [|p|p]; cbn [RND]; [lia| |].
  - pose proof (rnd_nonneg (Z.pos p) ltac:(lia)). lia.
  - pose proof (rnd_nonneg (Z.pos p) ltac:(lia)). lia.
Qed.

(** A finite float is its own rounding. *)
Lemma RND_ord a :
  valid_binary a = true -> SFisFinite a = true -> RND (ord a) = ord a.
Proof.
  intros V F. destruct a as [s|s| |s m e]; try discriminate; [reflexivity|].
  pose proof (finite_ord_bounds _ _ _ V) as (Hm & He & Hb).
  cbn [ord]. apply RND_exact; lia.
Qed.

Lemma shift_value s m e ez :
  -1074 <= ez -> ez <= e ->
  cond_Zopp s (Z.pos (fst (shl_align m e ez))) * 2 ^ (ez + 1074) =
  cond_Zopp s (Z.pos m * 2 ^ (e + 1074)).
Proof.
  intros H1 H2. rewrite shl_align_fst by assumption.
  assert (E : 2 ^ (e + 1074) = 2 ^ (e - ez) * 2 ^ (ez + 1074)).
  { rewrite <- Z.pow_add_r by lia. f_equal. lia. }
  rewrite E. destruct s; cbn [cond_Zopp]; ring.
Qed.

(** The sum of two finite floats is the rounding of the exact sum. *)
Lemma ord_add a c :
  valid_binary a = true -> valid_binary c = true ->
  SFisFinite a = true -> SFisFinite c = true ->
  ord (SF64add a c) = RND (ord a + ord c).
Proof.
  intros Va Vc Fa Fc.
  destruct a as [sa|sa| |sa ma ea]; try discriminate;
    destruct c as [sc|sc| |sc mc ec]; try discriminate.
  - destruct sa, sc; reflexivity.
  - change (SF64add (S754_zero sa) (S754_finite sc mc ec)) with (S754_finite sc mc ec).
    change (ord (S754_zero sa)) with 0. rewrite Z.add_0_l.
    symmetry. apply RND_ord; [assumption | reflexivity].
  - change (SF64add (S754_finite sa ma ea) (S754_zero sc)) with (S754_finite sa ma ea).
    change (ord (S754_zero sc)) with 0. rewrite Z.add_0_r.
    symmetry. apply RND_ord; [assumption | reflexivity].
  - apply valid_finite in Va as (Hea & _ & _). apply valid_finite in Vc as (Hec & _ & _).
    unfold SF64add, SFadd.
    rewrite binary_normalize_ord by lia.
    rewrite Z.mul_add_distr_r, !shift_value by lia. reflexivity.
Qed.

(** Adding the same finite float on both sides keeps the order. *)
Lemma SFadd_mono a b c :
  valid_binary a = true -> valid_binary b = true -> valid_binary c = true ->
  SFisNaN a = false -> SFisNaN b = false -> SFisFinite c = true ->
  ord a <= ord b -> ord (SF64add a c) <= ord (SF64add b c).
Proof.
  intros Va Vb Vc Na Nb Fc H. pose proof ordInf_pos as Ht.
  assert (Hfin : forall x, valid_binary x = true -> SFisFinite x = true ->
                           - ordInf < ord x < ordInf).
  { intros x Vx Fx. destruct x as [s|s| |s m e]; try discriminate; cbn [ord]; [lia|].
    pose proof (finite_ord_bounds _ _ _ Vx) as (_ & _ & B).
    destruct s; cbn [cond_Zopp]; lia. }
  assert (Hinf : forall s, SF64add (S754_infinity s) c = S754_infinity s).
  { intros s. destruct c as [sc|sc| |sc mc ec]; try discriminate; reflexivity. }
  destruct (SFisFinite a) eqn:Fa; destruct (SFisFinite b) eqn:Fb.
  - rewrite !ord_add by assumption. apply RND_mono. lia.
  - destruct b as [sb|sb| |sb mb eb]; try discriminate.
    rewrite Hinf, ord_add by assumption.
    pose proof (Hfin a Va Fa). pose proof (RND_range (ord a + ord c)).
    destruct sb; cbn [ord cond_Zopp] in *; lia.
  - destruct a as [sa|sa| |sa ma ea]; try discriminate.
    rewrite Hinf, ord_add by assumption.
    pose proof (Hfin b Vb Fb). pose proof (RND_range (ord b + ord c)).
    destruct sa; cbn [ord cond_Zopp] in *; lia.
  - destruct a as [sa|sa| |sa ma ea]; try discriminate;
      destruct b as [sb|sb| |sb mb eb]; try discriminate.
    rewrite !Hinf. destruct sa, sb; cbn [ord cond_Zopp] in *; lia.
Qed.

(** Adding a finite float that is not negative does not lower a float. *)
Lemma SFadd_above a c :
  valid_binary a = true -> valid_binary c = true ->
  SFisNaN a = false -> SFisFinite c = true ->
  0 <= ord c -> ord a <= ord (SF64add a c).
Proof.
  intros Va Vc Na Fc H.
  destruct (SFisFinite a) eqn:Fa.
  - rewrite ord_add by assumption.
    rewrite <- (RND_ord a Va Fa) at 1. apply RND_mono. lia.
  - destruct a as [sa|sa| |sa ma ea]; try discriminate.
    destruct c as [sc|sc| |sc mc ec]; try discriminate; cbn; lia.
Qed.

End OrderEmbedding.

Section FloatOrderEmbedding.
Import JS SF.
Local Open Scope float_scope.

Lemma compare_ord x y :
  isNaN x = false -> isNaN y = false ->
  SFcompare (Prim2SF x) (Prim2SF y) = Some (ord (Prim2SF x) ?= ord (Prim2SF y))%Z.
Proof.
  rewrite !isNaN_spec. intros Nx Ny.
  apply ord_compare; try assumption; apply Prim2SF_valid.
Qed.

Lemma leb_ord x y :
  isNaN x = false -> isNaN y = false ->
  (x <=? y) = (ord (Prim2SF x) <=? ord (Prim2SF y))%Z.
Proof.
  intros Nx Ny. rewrite FloatAxioms.leb_spec. unfold SFleb, Z.leb.
  rewrite compare_ord by assumption.
  destruct (ord (Prim2SF x) ?= ord (Prim2SF y))%Z; reflexivity.
Qed.

Lemma ltb_ord x y :
  isNaN x = false -> isNaN y = false ->
  (x <? y) = (ord (Prim2SF x) <? ord (Prim2SF y))%Z.
Proof.
  intros Nx Ny. rewrite FloatAxioms.ltb_spec. unfold SFltb, Z.ltb.
  rewrite compare_ord by assumption.
  destruct (ord (Prim2SF x) ?= ord (Prim2SF y))%Z; reflexivity.
Qed.

Lemma eqb_ord x y :
  isNaN x = false -> isNaN y = false ->
  (x =? y) = (ord (Prim2SF x) =? ord (Prim2SF y))%Z.
Proof.
  intros Nx Ny. rewrite FloatAxioms.eqb_spec. unfold SFeqb.
  rewrite compare_ord by assumption.
  destruct (Z.compare_spec (ord (Prim2SF x)) (ord (Prim2SF y))) as [E|E|E];
    symmetry; [apply Z.eqb_eq | apply Z.eqb_neq | apply Z.eqb_neq]; lia.
Qed.

End FloatOrderEmbedding.

Section NumberOrder.
Import JS SF.
Local Open Scope float_scope.

Lemma finite_number c : isFinite c = true -> isNaN c = false.
Proof.
  rewrite isFinite_spec, isNaN_spec. destruct (Prim2SF c); try discriminate; reflexivity.
Qed.

Lemma ord_zero : ord (Prim2SF 0) = 0%Z.
Proof. reflexivity. Qed.

Lemma add_mono x y c :
  isNaN x = false -> isNaN y = false -> isFinite c = true ->
  (x <=? y) = true -> (x + c <=? y + c) = true.
Proof.
  intros Nx Ny Fc H.
  rewrite leb_ord in H by assumption. apply Z.leb_le in H.
  rewrite leb_ord by (apply notNaN_add; assumption). apply Z.leb_le.
  rewrite !add_spec.
  apply SFadd_mono; try apply Prim2SF_valid;
    rewrite <- ?isNaN_spec, <- ?isFinite_spec; assumption.
Qed.

Lemma add_above x c :
  isNaN x = false -> isFinite c = true -> (0 <=? c) = true -> (x <=? x + c) = true.
Proof.
  intros Nx Fc H. pose proof (finite_number c Fc) as Nc.
  rewrite leb_ord in H by (reflexivity || assumption). apply Z.leb_le in H.
  rewrite ord_zero in H.
  rewrite leb_ord by (assumption || apply notNaN_add; assumption). apply Z.leb_le.
  rewrite add_spec.
  apply SFadd_above; try apply Prim2SF_valid;
    rewrite <- ?isNaN_spec, <- ?isFinite_spec; assumption.
Qed.

Lemma zero_of_ord f :
  valid_binary f = true -> SFisNaN f = false -> ord f = 0%Z -> exists s, f = S754_zero s.
Proof.
  intros V N H. pose proof ordInf_pos.
  destruct f as [s|s| |s m e]; try discriminate.
  - exists s. reflexivity.
  - destruct s; cbn in H; lia.
  - pose proof (finite_ord_bounds _ _ _ V) as (_ & _ & B).
    destruct s; cbn [ord cond_Zopp] in H; lia.
Qed.

(** [Math.min] and [Math.max] of two numbers are numbers, the smaller
    and the larger value. *)
Lemma min_ord x y :
  isNaN x = false -> isNaN y = false ->
  isNaN (Math_min x y) = false /\
  ord (Prim2SF (Math_min x y)) = Z.min (ord (Prim2SF x)) (ord (Prim2SF y)).
Proof.
  intros Nx Ny. unfold Math_min. rewrite Nx, Ny. cbn [orb].
  rewrite !ltb_ord, eqb_ord by (reflexivity || assumption). rewrite ord_zero.
  destruct (Z.ltb_spec (ord (Prim2SF x)) (ord (Prim2SF y))) as [L1|L1];
    [split; [assumption | lia]|].
  destruct (Z.ltb_spec (ord (Prim2SF y)) (ord (Prim2SF x))) as [L2|L2];
    [split; [assumption | lia]|].
  destruct (Z.eqb_spec (ord (Prim2SF x)) 0) as [Z0|Z0]; [|split; [assumption | lia]].
  assert (Zy : ord (Prim2SF y) = 0%Z) by lia.
  rewrite isNaN_spec in Nx, Ny.
  destruct (zero_of_ord _ (Prim2SF_valid x) Nx Z0) as [sx Ex].
  destruct (zero_of_ord _ (Prim2SF_valid y) Ny Zy) as [sy Ey].
  rewrite isNaN_spec, !opp_spec, add_spec, !opp_spec, Ex, Ey.
  destruct sx, sy; split; reflexivity.
Qed.

Lemma max_ord x y :
  isNaN x = false -> isNaN y = false ->
  isNaN (Math_max x y) = false /\
  ord (Prim2SF (Math_max x y)) = Z.max (ord (Prim2SF x)) (ord (Prim2SF y)).
Proof.
  intros Nx Ny. unfold Math_max. rewrite Nx, Ny. cbn [orb].
  rewrite !ltb_ord, eqb_ord by (reflexivity || assumption). rewrite ord_zero.
  destruct (Z.ltb_spec (ord (Prim2SF x)) (ord (Prim2SF y))) as [L1|L1];
    [split; [assumption | lia]|].
  destruct (Z.ltb_spec (ord (Prim2SF y)) (ord (Prim2SF x))) as [L2|L2];
    [split; [assumption | lia]|].
  destruct (Z.eqb_spec (ord (Prim2SF x)) 0) as [Z0|Z0]; [|split; [assumption | lia]].
  assert (Zy : ord (Prim2SF y) = 0%Z) by lia.
  rewrite isNaN_spec in Nx, Ny.
  destruct (zero_of_ord _ (Prim2SF_valid x) Nx Z0) as [sx Ex].
  destruct (zero_of_ord _ (Prim2SF_valid y) Ny Zy) as [sy Ey].
  rewrite isNaN_spec, add_spec, Ex, Ey.
  destruct sx, sy; split; reflexivity.
Qed.

Lemma below_ord x y :
  below x y <->
  isNaN x = false /\ isNaN y = false /\ (ord (Prim2SF x) <= ord (Prim2SF y))%Z.
Proof.
  unfold below. split; intros (Nx & Ny & H); repeat split; try assumption.
  - rewrite leb_ord in H by assumption. apply Z.leb_le. exact H.
  - rewrite leb_ord by assumption. apply Z.leb_le. exact H.
Qed.

Lemma below_refl x : isNaN x = false -> below x x.
Proof. intros N. apply below_ord. repeat split; try assumption. lia. Qed.

Lemma below_trans x y z : below x y -> below y z -> below x z.
Proof.
  rewrite !below_ord. intros (Nx & Ny & H1) (_ & Nz & H2).
  repeat split; try assumption. lia.
Qed.

Lemma below_add x y c : below x y -> isFinite c = true -> below (x + c) (y + c).
Proof.
  intros (Nx & Ny & H) Fc.
  repeat split; try (apply notNaN_add; assumption). apply add_mono; assumption.
Qed.

Lemma below_raise x c :
  isNaN x = false -> isFinite c = true -> (0 <=? c) = true -> below x (x + c).
Proof.
  intros Nx Fc H.
  repeat split; try assumption; [apply notNaN_add | apply add_above]; assumption.
Qed.

Lemma below_min x y c :
  below x y -> isNaN c = false -> below (Math_min x c) (Math_min y c).
Proof.
  rewrite !below_ord. intros (Nx & Ny & H) Nc.
  destruct (min_ord x c Nx Nc) as [N1 E1]. destruct (min_ord y c Ny Nc) as [N2 E2].
  repeat split; try assumption. lia.
Qed.

Lemma below_min_l x c :
  isNaN x = false -> isNaN c = false -> below (Math_min x c) x.
Proof.
  intros Nx Nc. apply below_ord.
  destruct (min_ord x c Nx Nc) as [N1 E1].
  repeat split; try assumption. lia.
Qed.

Lemma below_clamp x y :
  below x y -> below (Math_max 0 (Math_min 1 x)) (Math_max 0 (Math_min 1 y)).
Proof.
  rewrite !below_ord. intros (Nx & Ny & H).
  destruct (min_ord 1 x ltac:(reflexivity) Nx) as [N1 E1].
  destruct (min_ord 1 y ltac:(reflexivity) Ny) as [N2 E2].
  destruct (max_ord 0 _ ltac:(reflexivity) N1) as [N3 E3].
  destruct (max_ord 0 _ ltac:(reflexivity) N2) as [N4 E4].
  repeat split; try assumption. lia.
Qed.

End NumberOrder.

Section ScoreMonotone.
Import JS SF Str RegExp Score.
Local Open Scope float_scope.

Ltac finite_constant :=
  first [ reflexivity
        | lazymatch goal with
          | |- isFinite (if ?c then _ else _) = true => destruct c; reflexivity
          end ].

Ltac sum_number :=
  lazymatch goal with
  | |- isNaN (_ + _) = false => apply notNaN_add; [sum_number | finite_constant]
  | |- _ => assumption
  end.

(** The sections after the wire section, run on two numbers in step. *)
Ltac in_step :=
  lazymatch goal with
  | |- below (let a := ?A in @?B a) (let b := ?A' in @?B' b) =>
      first
        [ let a' := fresh "s" in
          let b' := fresh "t" in
          let H := fresh "H" in
          assert (H : below A A') by in_step;
          change (let a := A in let b := A' in below (B a) (B' b));
          intros a' b'; cbv beta;
          change (below a' b') in H;
          clearbody a' b';
          in_step
        | let a' := fresh "c" in
          change (let a := A in below (B a) (B' a));
          intros a'; cbv beta; clearbody a';
          in_step ]
  | |- below (if ?c then _ else _) (if ?c then _ else _) => destruct c; in_step
  | |- below (Math_min _ _) (Math_min _ _) => apply below_min; [in_step | reflexivity]
  | |- below (_ + _) (_ + _) => apply below_add; [in_step | finite_constant]
  | |- _ => assumption
  end.

Lemma cryptoTreasury_mono label blob x y :
  below x y ->
  below (ScoreSections.cryptoTreasury label blob x) (ScoreSections.cryptoTreasury label blob y).
Proof. intros H. unfold ScoreSections.cryptoTreasury. in_step. Qed.

Lemma genericResults_mono blob x y :
  below x y ->
  below (ScoreSections.genericResults blob x) (ScoreSections.genericResults blob y).
Proof. intros H. unfold ScoreSections.genericResults. in_step. Qed.

Lemma positiveExceptions_mono blob x y :
  below x y ->
  below (ScoreSections.positiveExceptions blob x) (ScoreSections.positiveExceptions blob y).
Proof. intros H. unfold ScoreSections.positiveExceptions. in_step. Qed.

Lemma boosters_mono blob marketCap symbolCount x y :
  below x y ->
  below (ScoreSections.boosters blob marketCap symbolCount x)
        (ScoreSections.boosters blob marketCap symbolCount y).
Proof. intros H. unfold ScoreSections.boosters. in_step. Qed.

(** Section 10 hands on at least as much for an item on a wire as for
    the same item off the wires. *)
Lemma wireModulation_raise label blob s :
  isNaN s = false ->
  below (ScoreSections.wireModulation label blob false s)
        (ScoreSections.wireModulation label blob true s).
Proof.
  intros N. unfold ScoreSections.wireModulation. cbv zeta.
  match goal with |- below (if ?c then _ else _) _ => destruct c end;
    [|apply below_refl; assumption].
  destruct (bool_decide (label = ACQUISITION_BUYOUT));
    destruct (test RX_MNA_DEFINITIVE blob
              || test RX_MNA_WILL_ACQUIRE blob && test RX_MNA_PERPRICE blob);
    destruct (test TIER1_RX blob && test RX_TIER1_VERBS blob);
    cbn [negb andb orb];
    first [ apply below_refl; assumption
          | apply below_raise; [assumption | reflexivity | reflexivity]
          | eapply below_trans;
            [ apply below_min_l; [assumption | reflexivity]
            | apply below_raise; [assumption | reflexivity | reflexivity] ] ].
Qed.

(** The small-capitalisation booster and the single-symbol booster at
    their best against any other market capitalisation and number of
    symbols. *)
Lemma boosters_best blob marketCap symbolCount cap x y :
  (0 <? cap) = true -> (cap <? 1000000000) = true ->
  below x y ->
  below (ScoreSections.boosters blob marketCap symbolCount x)
        (ScoreSections.boosters blob (Some cap) 1 y).
Proof.
  intros C1 C2 H. pose proof H as (Nx & Ny & _).
  unfold ScoreSections.boosters. cbv zeta. cbn [orDefault Nat.eqb].
  rewrite C1, C2. cbn [andb].
  repeat match goal with
         | |- context [if ?c then _ else _] => destruct c
         end;
    repeat first
      [ assumption
      | lazymatch goal with
        | |- below (?a + ?k) (?b + ?k) => apply below_add; [|reflexivity]
        | |- below _ (?b + _) =>
            apply below_trans with b;
            [|apply below_raise; [sum_number | reflexivity | reflexivity]]
        end ].
Qed.

(** The running score that reaches section 10 is a number. *)
Lemma before_wire_number klass blob :
  isNaN
    (ScoreSections.indexInclusion klass blob
       (ScoreSections.govFollowOn klass blob
          (ScoreSections.mnaSpecifics klass blob
             (ScoreSections.processGuards blob
                (ScoreSections.approvalsSplit klass blob
                   (ScoreSections.bioNuance klass blob
                      (ScoreSections.dilutiveFinancing blob
                         (ScoreSections.earlyCaps blob (BASELINE klass))))))))) = false.
Proof.
  apply indexInclusion_number, govFollowOn_number, mnaSpecifics_number,
    processGuards_number, approvalsSplit_number, bioNuance_number,
    dilutiveFinancing_number, earlyCaps_number, BASELINE_number.
Qed.

(** X27: a story recognised as a wire press release never scores below
    the same story (same class, same text, same market capitalisation,
    same number of symbols) not recognised as one. *)
Theorem wire_never_lowers_the_score
    (hostname : jsstring -> option jsstring) (klass : HighImpactEvent)
    (blob : jsstring) (url url' : option jsstring) (marketCap : option float)
    (symbolCount : nat) :
  isWirePR hostname url blob = false ->
  isWirePR hostname url' blob = true ->
  (ScoreSections.scoreOf hostname klass blob url marketCap symbolCount <=?
   ScoreSections.scoreOf hostname klass blob url' marketCap symbolCount) = true.
Proof.
  intros H H'. unfold ScoreSections.scoreOf. rewrite H, H'.
  destruct (test RX_MISINFO blob); [reflexivity|].
  apply below_clamp. unfold ScoreSections.unbounded.
  apply boosters_mono, positiveExceptions_mono, genericResults_mono,
    cryptoTreasury_mono, wireModulation_raise, before_wire_number.
Qed.

Lemma wire_never_lowers_the_score_witness :
  (ScoreSections.scoreOf Examples.hostname FDA_MARKETING_AUTH
     (lit "Company X Receives FDA Approval for Drug Y ") None None 0 <=?
   ScoreSections.scoreOf Examples.hostname FDA_MARKETING_AUTH
     (lit "Company X Receives FDA Approval for Drug Y ")
     (Some (lit "https://www.prnewswire.com/news/acme")) None 0) = true.
Proof.
  apply (wire_never_lowers_the_score Examples.hostname); reflexivity.
Defined.

(** X28: a story of a company worth more than 0 and less than a billion
    that names exactly one symbol never scores below the same story
    (same class, same text, same URL) with any other market
    capitalisation, or none, and any other number of symbols. *)
Theorem small_cap_single_symbol_scores_highest
    (hostname : jsstring -> option jsstring) (klass : HighImpactEvent)
    (blob : jsstring) (url : option jsstring) (marketCap : option float)
    (symbolCount : nat) (cap : float) :
  (0 <? cap) = true -> (cap <? 1000000000) = true ->
  (ScoreSections.scoreOf hostname klass blob url marketCap symbolCount <=?
   ScoreSections.scoreOf hostname klass blob url (Some cap) 1) = true.
Proof.
  intros C1 C2. unfold ScoreSections.scoreOf.
  destruct (test RX_MISINFO blob); [reflexivity|].
  apply below_clamp. unfold ScoreSections.unbounded.
  apply boosters_best; [assumption | assumption |].
  apply below_refl.
  apply positiveExceptions_number, genericResults_number, cryptoTreasury_number,
    wireModulation_number, before_wire_number.
Qed.

Lemma small_cap_single_symbol_scores_highest_witness :
  (ScoreSections.scoreOf Examples.hostname OTHER (lit "hello world") None None 2 <=?
   ScoreSections.scoreOf Examples.hostname OTHER (lit "hello world") None
     (Some 500000000) 1) = true.
Proof.
  apply (small_cap_single_symbol_scores_highest Examples.hostname); reflexivity.
Defined.

End ScoreMonotone.

Section Subtraction.
Import JS SF.
Local Open Scope Z_scope.

(** The difference of two finite floats is the rounding of the exact
    difference. *)
Lemma ord_sub a c :
  valid_binary a = true -> valid_binary c = true ->
  SFisFinite a = true -> SFisFinite c = true ->
  ord (SF64sub a c) = RND (ord a - ord c).
Proof.
  intros Va Vc Fa Fc.
  destruct a as [sa|sa| |sa ma ea]; try discriminate;
    destruct c as [sc|sc| |sc mc ec]; try discriminate.
  - destruct sa, sc; reflexivity.
  - change (SF64sub (S754_zero sa) (S754_finite sc mc ec))
      with (S754_finite (negb sc) mc ec).
    change (ord (S754_zero sa)) with 0. rewrite Z.sub_0_l.
    pose proof (finite_ord_bounds _ _ _ Vc) as (Hm & He & Hb).
    replace (- ord (S754_finite sc mc ec)) with (ord (S754_finite (negb sc) mc ec))
      by (destruct sc; cbn [ord cond_Zopp negb]; lia).
    cbn [ord]. symmetry. apply RND_exact; lia.
  - change (SF64sub (S754_finite sa ma ea) (S754_zero sc)) with (S754_finite sa ma ea).
    change (ord (S754_zero sc)) with 0. rewrite Z.sub_0_r.
    symmetry. apply RND_ord; [assumption | reflexivity].
  - apply valid_finite in Va as (Hea & _ & _). apply valid_finite in Vc as (Hec & _ & _).
    unfold SF64sub, SFsub.
    rewrite binary_normalize_ord by lia.
    rewrite Z.mul_sub_distr_r, !shift_value by lia. reflexivity.
Qed.

Lemma SFsub_mono a b c :
  valid_binary a = true -> valid_binary b = true -> valid_binary c = true ->
  SFisNaN a = false -> SFisNaN b = false -> SFisFinite c = true ->
  ord a <= ord b -> ord (SF64sub a c) <= ord (SF64sub b c).
Proof.
  intros Va Vb Vc Na Nb Fc H. pose proof ordInf_pos as Ht.
  assert (Hfin : forall x, valid_binary x = true -> SFisFinite x = true ->
                           - ordInf < ord x < ordInf).
  { intros x Vx Fx. destruct x as [s|s| |s m e]; try discriminate; cbn [ord]; [lia|].
    pose proof (finite_ord_bounds _ _ _ Vx) as (_ & _ & B).
    destruct s; cbn [cond_Zopp]; lia. }
  assert (Hinf : forall s, SF64sub (S754_infinity s) c = S754_infinity s).
  { intros s. destruct c as [sc|sc| |sc mc ec]; try discriminate; reflexivity. }
  destruct (SFisFinite a) eqn:Fa; destruct (SFisFinite b) eqn:Fb.
  - rewrite !ord_sub by assumption. apply RND_mono. lia.
  - destruct b as [sb|sb| |sb mb eb]; try discriminate.
    rewrite Hinf, ord_sub by assumption.
    pose proof (Hfin a Va Fa). pose proof (RND_range (ord a - ord c)).
    destruct sb; cbn [ord cond_Zopp] in *; lia.
  - destruct a as [sa|sa| |sa ma ea]; try discriminate.
    rewrite Hinf, ord_sub by assumption.
    pose proof (Hfin b Vb Fb). pose proof (RND_range (ord b - ord c)).
    destruct sa; cbn [ord cond_Zopp] in *; lia.
  - destruct a as [sa|sa| |sa ma ea]; try discriminate;
      destruct b as [sb|sb| |sb mb eb]; try discriminate.
    rewrite !Hinf. destruct sa, sb; cbn [ord cond_Zopp] in *; lia.
Qed.

Local Open Scope float_scope.

Lemma below_sub x y c : below x y -> isFinite c = true -> below (x - c) (y - c).
Proof.
  intros (Nx & Ny & H) Fc.
  repeat split; try (apply notNaN_sub; assumption).
  rewrite leb_ord in H by assumption. apply Z.leb_le in H.
  rewrite leb_ord by (apply notNaN_sub; assumption). apply Z.leb_le.
  rewrite !sub_spec.
  apply SFsub_mono; try apply Prim2SF_valid;
    rewrite <- ?isNaN_spec, <- ?isFinite_spec; assumption.
Qed.

(** A comparison that holds is between numbers. *)
Lemma leb_below x y : (x <=? y) = true -> below x y.
Proof.
  intros H. unfold below. rewrite !isNaN_spec. split; [|split; [|exact H]].
  - rewrite FloatAxioms.leb_spec in H. unfold SFleb in H.
    destruct (Prim2SF x); try reflexivity. discriminate.
  - rewrite FloatAxioms.leb_spec in H. unfold SFleb in H.
    destruct (Prim2SF y); try reflexivity.
    destruct (Prim2SF x); discriminate.
Qed.

End Subtraction.

Section GateMonotone.
Import JS SF PriceConfirm.
Local Open Scope float_scope.

(** The pass flag of a returned signal is a function of the three
    thresholds and of the three metrics of that signal. *)
Lemma getConfirm_pass env clock symbol priceNow st sig :
  fst (getConfirm env clock symbol priceNow st) = Returned sig ->
  ConfirmSignal.pass sig =
  ((VOL_Z_MIN env <=? ConfirmSignal.volZ sig)
   && (RET_1M_MIN env <=? ConfirmSignal.ret1m sig))
  || ((VWAP_DEV_MIN env <=? ConfirmSignal.vwapDev sig)
      && (VOL_Z_MIN env - 0.5 <=? ConfirmSignal.volZ sig)).
Proof.
  unfold getConfirm. destruct (read (volumeWindows st) symbol);
    cbn [fst]; intros [= <-]; reflexivity.
Qed.

(** The statistics of [getConfirm] do not read the thresholds. *)
Lemma getConfirm_statistics env env' clock symbol priceNow st sig :
  fst (getConfirm env clock symbol priceNow st) = Returned sig ->
  exists sig',
    fst (getConfirm env' clock symbol priceNow st) = Returned sig' /\
    ConfirmSignal.volZ sig' = ConfirmSignal.volZ sig /\
    ConfirmSignal.ret1m sig' = ConfirmSignal.ret1m sig /\
    ConfirmSignal.vwapDev sig' = ConfirmSignal.vwapDev sig.
Proof.
  unfold getConfirm. destruct (read (volumeWindows st) symbol);
    cbn [fst]; intros [= <-]; eexists; (split; [reflexivity|]);
    repeat split; reflexivity.
Qed.

(** X29: loosening the thresholds never loses a confirmation.  With the
    same market state, symbol and price, if each of the three thresholds
    of a second configuration is at most the one of the first, and the
    first returns a signal that passes, then the second returns a signal
    with the same statistics that passes too. *)
Theorem looser_thresholds_keep_a_confirmation
    (env env' : Env) (clock : float) (symbol : string) (priceNow : float)
    (st : State) (sig : ConfirmSignal.t) :
  below (VOL_Z_MIN env') (VOL_Z_MIN env) ->
  below (RET_1M_MIN env') (RET_1M_MIN env) ->
  below (VWAP_DEV_MIN env') (VWAP_DEV_MIN env) ->
  fst (getConfirm env clock symbol priceNow st) = Returned sig ->
  ConfirmSignal.pass sig = true ->
  exists sig',
    fst (getConfirm env' clock symbol priceNow st) = Returned sig' /\
    ConfirmSignal.pass sig' = true /\
    ConfirmSignal.volZ sig' = ConfirmSignal.volZ sig /\
    ConfirmSignal.ret1m sig' = ConfirmSignal.ret1m sig /\
    ConfirmSignal.vwapDev sig' = ConfirmSignal.vwapDev sig.
Proof.
  intros HV HR HD HS HP.
  destruct (getConfirm_statistics env env' clock symbol priceNow st sig HS)
    as (sig' & HS' & Ez & Er & Ed).
  exists sig'. split; [exact HS'|]. split; [|repeat split; assumption].
  rewrite (getConfirm_pass _ _ _ _ _ _ HS) in HP.
  rewrite (getConfirm_pass _ _ _ _ _ _ HS'), Ez, Er, Ed.
  set (z := ConfirmSignal.volZ sig) in *.
  set (r := ConfirmSignal.ret1m sig) in *.
  set (d := ConfirmSignal.vwapDev sig) in *.
  assert (T : forall a b c, below a b -> (b <=? c) = true -> (a <=? c) = true).
  { intros a b c Hab Hbc. apply leb_below in Hbc.
    exact (proj2 (proj2 (below_trans _ _ _ Hab Hbc))). }
  apply orb_true_iff in HP as [HP|HP]; apply andb_true_iff in HP as [H1 H2];
    apply orb_true_iff; [left|right]; apply andb_true_iff; split.
  - exact (T _ _ _ HV H1).
  - exact (T _ _ _ HR H2).
  - exact (T _ _ _ HD H1).
  - refine (T _ _ _ _ H2). apply below_sub; [exact HV | reflexivity].
Qed.

Lemma looser_thresholds_keep_a_confirmation_witness :
  exists sig',
    fst (getConfirm Samples.looseEnv 0 "ACME" 11 Samples.surge) = Returned sig' /\
    ConfirmSignal.pass sig' = true /\
    ConfirmSignal.volZ sig' =
      ConfirmSignal.volZ
        (ConfirmSignal.mk "ACME" 0 11 2.2677868380553634 0.10000000000000009
           0.03529411764705892 true) /\
    ConfirmSignal.ret1m sig' =
      ConfirmSignal.ret1m
        (ConfirmSignal.mk "ACME" 0 11 2.2677868380553634 0.10000000000000009
           0.03529411764705892 true) /\
    ConfirmSignal.vwapDev sig' =
      ConfirmSignal.vwapDev
        (ConfirmSignal.mk "ACME" 0 11 2.2677868380553634 0.10000000000000009
           0.03529411764705892 true).
Proof.
  apply (looser_thresholds_keep_a_confirmation Examples.env Samples.looseEnv 0 "ACME" 11
           Samples.surge);
    first [reflexivity | repeat split; reflexivity].
Defined.

End GateMonotone.

Section Divisors.
Import JS SF PriceConfirm.
Local Open Scope Z_scope.

(** The last step of rounding gives a float of the format. *)
Lemma final_valid s m e :
  Z.max (Z.log2 (Z.pos m) + 1 + e - 53) (-1074) = e ->
  valid_binary (if e <=? emax - prec then S754_finite s m e else S754_infinity s) = true.
Proof.
  intros H. destruct (e <=? emax - prec) eqn:E; [|reflexivity].
  cbn [SpecFloat.valid_binary]. unfold bounded, canonical_mantissa.
  rewrite E, andb_true_r, fexp_eq, digits_log2. apply Z.eqb_eq. exact H.
Qed.

Lemma binary_round_valid s p e :
  -1074 <= e -> valid_binary (binary_round prec emax s p e) = true.
Proof.
  intros He. unfold binary_round. rewrite fexp_eq, digits_log2.
  pose proof (Z.log2_nonneg (Z.pos p)) as Hl0.
  pose proof (Z.log2_spec (Z.pos p) ltac:(lia)) as [Lp Up].
  set (l := Z.log2 (Z.pos p)) in *.
  destruct (Z_le_gt_dec l 52) as [Hd|Hd].
  - set (fe := Z.max (l + 1 + e - 53) (-1074)).
    assert (Hfe : fe <= e) by lia.
    pose proof (shl_align_fst p e fe Hfe) as Hm.
    pose proof (shl_align_snd p e fe Hfe) as Hz.
    destruct (shl_align p e fe) as [mz ez]. cbn [fst snd] in Hm, Hz. subst ez.
    assert (Hlz : Z.log2 (Z.pos mz) = e - fe + l).
    { rewrite Hm. apply Z.log2_mul_pow2; lia. }
    unfold binary_round_aux.
    rewrite shr_fexp_canonical by lia.
    cbn [shr_m loc_of_shr_record round_nearest_even].
    rewrite shr_fexp_canonical by lia.
    cbn [shr_m]. apply final_valid. lia.
  - assert (Hsh : shl_align p e (Z.max (l + 1 + e - 53) (-1074)) = (p, e)).
    { unfold shl_align.
      destruct (Z.max (l + 1 + e - 53) (-1074) - e) eqn:E; try reflexivity; lia. }
    rewrite Hsh. unfold binary_round_aux, shr_fexp at 1.
    rewrite fexp_eq. cbn [Zdigits2]. rewrite digits_log2. fold l.
    destruct (Z.max (l + 1 + e - 53) (-1074) - e) as [|n|n] eqn:En; try lia.
    cbn [shr shr_record_of_loc].
    rewrite shr_round by lia.
    assert (Hn : Z.pos n = l - 52) by lia.
    assert (Hdn : 0 < 2 ^ Z.pos n) by (apply Z.pow_pos_nonneg; lia).
    assert (Hq1 : 2 ^ 52 <= Z.pos p / 2 ^ Z.pos n).
    { apply Z.div_le_lower_bound; [lia|]. rewrite <- Z.pow_add_r by lia.
      replace (Z.pos n + 52) with l by lia. exact Lp. }
    assert (Hq2 : Z.pos p / 2 ^ Z.pos n < 2 ^ 53).
    { apply Z.div_lt_upper_bound; [lia|]. rewrite <- Z.pow_add_r by lia.
      replace (Z.pos n + 53) with (Z.succ l) by lia. exact Up. }
    pose proof (rne_bounds (Z.pos p) (Z.pos n)) as [HM1 HM2].
    remember (rne (Z.pos p) (Z.pos n)) as M eqn:EM. clear EM.
    destruct (Z.eq_dec M (2 ^ 53)) as [E53|N53].
    + subst M. change (2 ^ 53) with 9007199254740992.
      unfold shr_fexp. rewrite fexp_eq.
      change (Zdigits2 9007199254740992) with 54.
      replace (Z.max (54 + (e + Z.pos n) - 53) (-1074) - (e + Z.pos n)) with 1 by lia.
      cbn [shr SpecFloat.iter_pos shr_record_of_loc shr_1 shr_m].
      apply final_valid. change (Z.log2 4503599627370496) with 52. lia.
    + destruct M as [|mp|mp]; try lia.
      assert (HlM : Z.log2 (Z.pos mp) = 52).
      { apply Z.log2_unique; [lia|]. change (Z.succ 52) with 53. lia. }
      rewrite shr_fexp_canonical by lia.
      cbn [shr_m]. apply final_valid. lia.
Qed.

Lemma rnd_pos V : 0 < V -> 0 < rnd V.
Proof.
  intros H. pose proof (rnd_mono 1 V ltac:(lia) ltac:(lia)) as M.
  change 1 with (1 * 2 ^ 0) in M at 1. rewrite rnd_exact in M by lia. lia.
Qed.

Lemma RND_sign S : 0 < S -> 0 < RND S.
Proof.
  intros H. rewrite RND_pos by assumption.
  pose proof (rnd_pos S H). pose proof ordInf_pos. lia.
Qed.

Local Open Scope float_scope.

(** The float of a positive integer is above zero, however large. *)
Lemma Z2F_above_zero p : (0 <? Z2F (Z.pos p)) = true.
Proof.
  apply pos_iff. unfold Z2F. cbn [binary_normalize].
  rewrite Prim2SF_SF2Prim by (apply binary_round_valid; lia).
  apply binary_round_pos. lia.
Qed.

Lemma above_zero_nonzero x : (0 <? x) = true -> (x =? 0) = false.
Proof.
  intros H. destruct (x =? 0) eqn:E; [|reflexivity].
  rewrite (eqb_zero_not_pos x E) in H. discriminate.
Qed.

Lemma lengthF_nonzero {A} (l : list A) : l <> [] -> (lengthF l =? 0) = false.
Proof.
  intros H. apply above_zero_nonzero. unfold lengthF.
  destruct l as [|a l]; [congruence|]. cbn [List.length].
  rewrite Nat2Z.inj_succ. destruct (Z.succ (Z.of_nat (List.length l))) eqn:E; try lia.
  apply Z2F_above_zero.
Qed.

(** The difference of a number and a smaller finite number is not zero. *)
Lemma sub_nonzero x y :
  isNaN x = false -> isFinite y = true -> (x <=? y) = false -> (x - y =? 0) = false.
Proof.
  intros Nx Fy H. pose proof (finite_number y Fy) as Ny.
  rewrite leb_ord in H by assumption. apply Z.leb_gt in H.
  rewrite eqb_ord by (reflexivity || apply notNaN_sub; assumption).
  rewrite ord_zero. apply Z.eqb_neq.
  rewrite sub_spec. rewrite isNaN_spec in Nx. rewrite isFinite_spec in Fy.
  pose proof (Prim2SF_valid x) as Vx. pose proof (Prim2SF_valid y) as Vy.
  destruct (SFisFinite (Prim2SF x)) eqn:Fx.
  - rewrite ord_sub by assumption.
    pose proof (RND_sign (ord (Prim2SF x) - ord (Prim2SF y)) ltac:(lia)). lia.
  - pose proof ordInf_pos.
    destruct (Prim2SF x) as [sx|sx| |sx mx ex]; try discriminate.
    destruct (Prim2SF y) as [sy|sy| |sy my ey]; try discriminate;
      destruct sx; cbn; lia.
Qed.

Lemma lengthF_number {A} (l : list A) : isNaN (lengthF l) = false.
Proof.
  unfold lengthF. destruct (Z.of_nat (List.length l)) as [|p|p] eqn:E; try lia.
  - reflexivity.
  - apply pos_not_NaN, Z2F_above_zero.
Qed.

Lemma meanDivisors_nonzero w : Forall (fun d => (d =? 0) = false) (meanDivisors w).
Proof.
  unfold meanDivisors. destruct (values w) as [|v vs] eqn:E; constructor; [|constructor].
  apply lengthF_nonzero. discriminate.
Qed.

Lemma stdDivisors_nonzero w : Forall (fun d => (d =? 0) = false) (stdDivisors w).
Proof.
  unfold stdDivisors. destruct (lengthF (values w) <=? 1) eqn:E; [constructor|].
  apply Forall_app. split; [apply meanDivisors_nonzero|].
  constructor; [|constructor].
  apply sub_nonzero; [apply lengthF_number | reflexivity | exact E].
Qed.


(** C8, as the claim states it, fails, each time with no accumulator or
    with zero accumulated volume.  At a current price of 0 the VWAP price
    falls back to 0, and both the deviation and the return divide 0 by 0.
    With a stored reference price of 0 the return divides by 0.  At an
    infinite current price, and at a current price of NaN, no divisor is
    zero, yet the deviation is NaN and not 0.  For the symbol
    constructor the call throws and returns no deviation. *)
Lemma C8_zero_price_divides_by_zero :
  (vwapAccumulators initial !! "ACME" = None /\
   fst (getConfirm Examples.env 0 "ACME" 0 initial)
     = Returned (ConfirmSignal.mk "ACME" 0 0 0 nan nan false) /\
   divisors Examples.env "ACME" 0 initial = [0; 0]) /\
  (vwapAccumulators (setRef "ACME" 0 Examples.zeroVolumeState) !! "ACME"
     = Some (mkVwap 0 0) /\
   fst (getConfirm Examples.env 0 "ACME" 10.5 (setRef "ACME" 0 Examples.zeroVolumeState))
     = Returned (ConfirmSignal.mk "ACME" 0 10.5 0 infinity 0 false) /\
   divisors Examples.env "ACME" 10.5 (setRef "ACME" 0 Examples.zeroVolumeState)
     = [1; 10.5; 0]) /\
  (fst (getConfirm Examples.env 0 "ACME" infinity initial)
     = Returned (ConfirmSignal.mk "ACME" 0 infinity 0 nan nan false) /\
   divisors Examples.env "ACME" infinity initial = [infinity; infinity]) /\
  (fst (getConfirm Examples.env 0 "ACME" nan initial)
     = Returned (ConfirmSignal.mk "ACME" 0 nan 0 nan nan false) /\
   divisors Examples.env "ACME" nan initial = [nan; nan]) /\
  (vwapAccumulators initial !! "constructor" = None /\
   fst (getConfirm Examples.env 0 "constructor" 10.5 initial) = TypeError).
Proof. vm_compute. repeat split; reflexivity. Qed.

(** C8 (amended): for a symbol that is not one of the names every object
    inherits, whose accumulator is absent or holds zero volume, whose
    stored reference price, if there is one, is not zero, and a current
    price that is finite and not zero, [getConfirm] returns a signal, the
    VWAP price falls back to the current price, the deviation is 0, and
    no division the call evaluates has a zero divisor. *)
Theorem C8_vwapDev_zero_volume :
  forall env clock symbol priceNow st,
    inherited symbol = false ->
    (vwapAccumulators st !! symbol = None \/
     exists a, vwapAccumulators st !! symbol = Some a /\ (volume a =? 0) = true) ->
    (forall r, referencePrices st !! symbol = Some r -> (r =? 0) = false) ->
    isFinite priceNow = true ->
    (priceNow =? 0) = false ->
    exists sig,
      fst (getConfirm env clock symbol priceNow st) = Returned sig /\
      vwapPxOf (vwapAccumulators st !! symbol) priceNow = priceNow /\
      ConfirmSignal.vwapDev sig = 0 /\
      Forall (fun d => (d =? 0) = false) (divisors env symbol priceNow st).
Proof.
  intros env clock symbol priceNow st Hin Hacc Href Hfin Hnz.
  assert (Hd : vwapPxOf (vwapAccumulators st !! symbol) priceNow = priceNow).
  { destruct Hacc as [-> | (a & -> & Hv)]; [reflexivity|].
    unfold vwapPxOf. rewrite (eqb_zero_not_pos _ Hv). reflexivity. }
  assert (Hv : match vwapAccumulators st !! symbol with
               | Some a => if 0 <? volume a then [volume a] else []
               | None => []
               end = []).
  { destruct Hacc as [-> | (a & -> & Hv)]; [reflexivity|].
    rewrite (eqb_zero_not_pos _ Hv). reflexivity. }
  assert (Hr : (refOf (read (referencePrices st) symbol) priceNow =? 0) = false).
  { rewrite read_plain by exact Hin.
    destruct (referencePrices st !! symbol) as [r|] eqn:E; cbn [refOf];
      [apply Href; reflexivity | exact Hnz]. }
  unfold getConfirm, divisors. rewrite read_plain by exact Hin.
  rewrite Hv, Hd.
  set (win := match volumeWindows st !! symbol with
              | Some w => w
              | None => newWindow (WINDOW_SIZE env)
              end).
  assert (Hall : Forall (fun d => (d =? 0) = false)
            (meanDivisors win ++ stdDivisors win
             ++ (if 0 <? std win then [std win] else [])
             ++ [] ++ [priceNow; refOf (read (referencePrices st) symbol) priceNow])).
  { apply Forall_app. split; [apply meanDivisors_nonzero|].
    apply Forall_app. split; [apply stdDivisors_nonzero|].
    apply Forall_app. split.
    { destruct (0 <? std win) eqn:E; constructor; [|constructor].
      apply above_zero_nonzero. exact E. }
    cbn [app]. constructor; [exact Hnz|]. constructor; [exact Hr|]. constructor. }
  destruct (volumeWindows st !! symbol) as [w|] eqn:Ew; cbn [fst];
    (eexists; split; [reflexivity|]; split; [reflexivity|]; split;
     [cbn [ConfirmSignal.vwapDev]; rewrite (div_self _ Hfin Hnz); reflexivity
     | exact Hall]).
Qed.

(** A bar of volume 0 has been seen for the symbol and a reference price
    of 10 is stored: the accumulator exists and holds zero volume. *)
Lemma C8_vwapDev_zero_volume_witness :
  exists sig,
    fst (getConfirm Examples.env 0 "ACME" 10.5
           (setRef "ACME" 10 Examples.zeroVolumeState)) = Returned sig /\
    vwapPxOf (vwapAccumulators (setRef "ACME" 10 Examples.zeroVolumeState) !! "ACME")
      10.5 = 10.5 /\
    ConfirmSignal.vwapDev sig = 0 /\
    Forall (fun d => (d =? 0) = false)
      (divisors Examples.env "ACME" 10.5 (setRef "ACME" 10 Examples.zeroVolumeState)).
Proof.
  apply (C8_vwapDev_zero_volume Examples.env 0 "ACME" 10.5
           (setRef "ACME" 10 Examples.zeroVolumeState)).
  - reflexivity.
  - right. exists (mkVwap 0 0). split; reflexivity.
  - intros r H. vm_compute in H. injection H as <-. reflexivity.
  - reflexivity.
  - reflexivity.
Defined.

End Divisors.

Section ExitHigh.
Import JS SF Exit.
Local Open Scope float_scope.

Lemma NaN_is_nan x : isNaN x = true -> x = nan.
Proof.
  intros H. rewrite isNaN_spec in H. apply Prim2SF_inj.
  destruct (Prim2SF x); try discriminate. reflexivity.
Qed.

Lemma leb_nan_r x : (x <=? nan) = false.
Proof.
  rewrite FloatAxioms.leb_spec. change (Prim2SF nan) with S754_nan.
  destruct (Prim2SF x); reflexivity.
Qed.

(** [Math.max] returns one of its arguments, or NaN when one is NaN. *)
Lemma Math_max_choice x y : Math_max x y = x \/ Math_max x y = y.
Proof.
  unfold Math_max.
  destruct (isNaN x) eqn:Nx; [left; symmetry; apply NaN_is_nan; exact Nx|].
  destruct (isNaN y) eqn:Ny; [right; symmetry; apply NaN_is_nan; exact Ny|].
  cbn [orb].
  destruct (x <? y) eqn:L1; [right; reflexivity|].
  destruct (y <? x) eqn:L2; [left; reflexivity|].
  destruct (x =? 0) eqn:Z0; [|left; reflexivity].
  rewrite FloatAxioms.ltb_spec in L1, L2. rewrite FloatAxioms.eqb_spec in Z0.
  rewrite isNaN_spec in Ny.
  change (Prim2SF 0) with (S754_zero false) in Z0.
  destruct (Prim2SF x) as [sx|sx| |sx mx ex] eqn:Ex;
    try (destruct sx; discriminate Z0); try discriminate Z0.
  destruct (Prim2SF y) as [sy|sy| |sy my ey] eqn:Ey;
    try discriminate Ny;
    try (destruct sy; discriminate);
    try (destruct sx, sy; discriminate).
  destruct sx, sy;
    first [ left; apply Prim2SF_inj; rewrite add_spec, Ex, Ey; reflexivity
          | right; apply Prim2SF_inj; rewrite add_spec, Ex, Ey; reflexivity ].
Qed.

(** X9: [updateExit] writes the high and nothing else of the position.
    The high it writes is NaN exactly when the stored high or the price
    is NaN: a NaN price wipes the stored high.  Otherwise it is at least
    the stored high and at least the price.  In every case it is one of
    the two. *)
Theorem updateExit_writes_the_maximum pos lastPx now :
  let h := Position.high (fst (updateExit pos lastPx now)) in
  fst (updateExit pos lastPx now) =
    Position.mk (Position.symbol pos) (Position.qty pos) (Position.avg pos)
                (Position.openTs pos) h /\
  isNaN h = isNaN (Position.high pos) || isNaN lastPx /\
  (Position.high pos <=? h) = negb (isNaN h) /\
  (lastPx <=? h) = negb (isNaN h) /\
  (h = Position.high pos \/ h = lastPx).
Proof.
  cbv zeta. unfold updateExit. cbn [fst]. destruct pos as [sy q a o hi].
  unfold Position.set_high.
  cbn [Position.high Position.symbol Position.qty Position.avg Position.openTs].
  split; [reflexivity|].
  assert (HN : isNaN (Math_max hi lastPx) = isNaN hi || isNaN lastPx).
  { destruct (isNaN hi || isNaN lastPx) eqn:N.
    - unfold Math_max. rewrite N. reflexivity.
    - apply orb_false_elim in N as [N1 N2]. apply (max_ord hi lastPx N1 N2). }
  split; [exact HN|]. rewrite HN.
  split; [|split; [|apply Math_max_choice]].
  - destruct (isNaN hi || isNaN lastPx) eqn:N.
    + unfold Math_max. rewrite N. apply leb_nan_r.
    + apply orb_false_elim in N as [N1 N2].
      destruct (max_ord hi lastPx N1 N2) as [Nm Om].
      rewrite leb_ord, Om by assumption. cbn [negb]. apply Z.leb_le. lia.
  - destruct (isNaN hi || isNaN lastPx) eqn:N.
    + unfold Math_max. rewrite N. apply leb_nan_r.
    + apply orb_false_elim in N as [N1 N2].
      destruct (max_ord hi lastPx N1 N2) as [Nm Om].
      rewrite leb_ord, Om by assumption. cbn [negb]. apply Z.leb_le. lia.
Qed.

End ExitHigh.

Section InheritedNames.
Import JS PriceConfirm Feed.
Local Open Scope float_scope.

Lemma inherited_In key : inherited key = true <-> In key inheritedNames.
Proof.
  unfold inherited. rewrite existsb_exists. split.
  - intros (k & Hk & E). apply String.eqb_eq in E. subst k. exact Hk.
  - intros H. exists key. split; [exact H | apply String.eqb_refl].
Qed.

Lemma ownsNoInheritedName_spec st :
  ownsNoInheritedName st = true <->
  forall key, inherited key = true ->
    volumeWindows st !! key = None /\ vwapAccumulators st !! key = None /\
    referencePrices st !! key = None.
Proof.
  unfold ownsNoInheritedName. rewrite forallb_forall. split.
  - intros H key Hk. apply inherited_In in Hk. specialize (H key Hk).
    destruct (volumeWindows st !! key); [discriminate|].
    destruct (vwapAccumulators st !! key); [discriminate|].
    destruct (referencePrices st !! key); [discriminate|].
    repeat split.
  - intros H key Hk. apply inherited_In in Hk.
    destruct (H key Hk) as (-> & -> & ->). reflexivity.
Qed.

(** No call stores an entry under an inherited name. *)
Lemma step_keeps_names env c st :
  ownsNoInheritedName st = true -> ownsNoInheritedName (step env c st) = true.
Proof.
  rewrite !ownsNoInheritedName_spec. intros H key Hk.
  destruct (H key Hk) as (Hw & Ha & Hr).
  destruct (String.eqb_spec (callSymbol c) key) as [E | E].
  - destruct c as [s close vol | s px | clock s priceNow | s];
      cbn [callSymbol] in E; subst s; cbn [step].
    + unfold onAgg, getOrCreateWindow, read. rewrite Hw, Hk. cbn [snd]. auto.
    + unfold setRef, read. rewrite Hr, Hk. auto.
    + unfold getConfirm, read. rewrite Hw, Hk. cbn [snd]. auto.
    + unfold resetSymbolState. cbn [volumeWindows vwapAccumulators referencePrices].
      rewrite !lookup_delete_eq. auto.
  - destruct (step_other_lookup env c st key E) as (-> & -> & ->). auto.
Qed.

(** X30: whatever is fed, set, read and reset from the start of the
    module, none of the three dictionaries ever owns an entry under a
    property name of [Object.prototype]: for such a symbol [onAgg] throws
    and [setRef] returns before anything is stored. *)
Theorem inherited_names_are_never_stored env cs :
  ownsNoInheritedName (run env cs initial) = true /\
  forall key, inherited key = true ->
    volumeWindows (run env cs initial) !! key = None /\
    vwapAccumulators (run env cs initial) !! key = None /\
    referencePrices (run env cs initial) !! key = None.
Proof.
  assert (H : ownsNoInheritedName (run env cs initial) = true).
  { assert (H0 : ownsNoInheritedName initial = true) by reflexivity.
    revert H0. generalize initial. induction cs as [|c cs IH]; intros st H0; [exact H0|].
    change (run env (c :: cs) st) with (run env cs (step env c st)).
    apply IH, step_keeps_names, H0. }
  split; [exact H|]. apply ownsNoInheritedName_spec. exact H.
Qed.

End InheritedNames.
